(** * Jukebox playback over an mpv subprocess: a shallow embedding

    Two Go packages are embedded:

    - [mpv]      (the bootstrap chain: binary resolution, process start,
                  control-socket wait, IPC connection), and
    - [playback] (the speaker playback device: queue edits and transport
                  commands translated into IPC requests).

    Go [int] is embedded as [Z].  The only integer arithmetic of the embedded
    code is [retryCount += 1] (at most 6), [retries += 1] (bounded by the
    number of polls), and index comparisons, so no 64-bit wrap-around can
    occur and none is written out; the conversion of a float to [int] is
    written out where the float comes from the player.  [time.Duration] and
    clock readings are
    [Z] nanoseconds.  Effects (the process-wide one-time guard, the clock, the
    IPC traffic, the catalog, the log) are threaded through a small
    state-and-failure monad. *)

From Stdlib Require Import ZArith Lia Ascii String.
From Stdlib Require Import DecimalString.
From stdpp Require Import base list strings.

Local Open Scope string_scope.
Local Open Scope list_scope.
Local Open Scope Z_scope.

(** ** A state monad with panics and bounded loops *)

Module Go.

Inductive Outcome (S A : Type) : Type :=
| Ret (a : A) (s : S)
| Panic (msg : string) (s : S)
| OutOfFuel.
Arguments Ret {S A} a s.
Arguments Panic {S A} msg s.
Arguments OutOfFuel {S A}.

Definition M (S A : Type) : Type := S -> Outcome S A.

Definition ret {S A} (a : A) : M S A := fun s => Ret a s.

Definition bind {S A B} (m : M S A) (k : A -> M S B) : M S B :=
  fun s =>
    match m s with
    | Ret a s' => k a s'
    | Panic msg s' => Panic msg s'
    | OutOfFuel => OutOfFuel
    end.

Definition gets {S A} (f : S -> A) : M S A := fun s => Ret (f s) s.
Definition modify {S} (f : S -> S) : M S unit := fun s => Ret tt (f s).
Definition panic {S A} (msg : string) : M S A := fun s => Panic msg s.
Definition out_of_fuel {S A} : M S A := fun _ => OutOfFuel.

(** [time.Duration] constants, in nanoseconds. *)
Definition Millisecond : Z := 1000000.
Definition Second : Z := 1000 * Millisecond.

(** Log levels of the [log] package; an entry keeps the level and the message
    (the key/value context of an entry is not kept). *)
Inductive Level := LevelError | LevelInfo | LevelDebug | LevelTrace.

(** [fmt.Sprint] of an [int]. *)
Definition Sprint_int (z : Z) : string := NilZero.string_of_int (Z.to_int z).

End Go.

Import Go.

Declare Scope go_scope.
Delimit Scope go_scope with go.
Notation "x <- m ;; k" := (bind m (fun x => k))
  (at level 100, m at next level, k at level 200, right associativity) : go_scope.
Notation "m ;;; k" := (bind m (fun _ => k))
  (at level 100, k at level 200, right associativity) : go_scope.
Local Open Scope go_scope.

(** ** The [strings] functions used to build the command line *)

Module strings.

(** [strings.Split(s, sep)] for a one-byte separator: the pieces between the
    separators, so a string without separator is returned whole and [n]
    separators give [n+1] pieces. *)
Fixpoint Split (s : string) (sep : ascii) : list string :=
  match s with
  | EmptyString => [EmptyString]
  | String c r =>
      if Ascii.eqb c sep then EmptyString :: Split r sep
      else match Split r sep with
           | [] => [String c EmptyString]
           | w :: ws => String c w :: ws
           end
  end.

(** [strings.ReplaceAll(s, old, new)] for a non-empty [old]: occurrences are
    replaced left to right and do not overlap.  [skip] counts the bytes of a
    matched occurrence that are still to be dropped. *)
Fixpoint ReplaceAll_from (skip : nat) (s old new : string) : string :=
  match s with
  | EmptyString => EmptyString
  | String c r =>
      match skip with
      | S k => ReplaceAll_from k r old new
      | O =>
          if String.prefix old s
          then new +:+ ReplaceAll_from (Nat.pred (String.length old)) r old new
          else String c (ReplaceAll_from O r old new)
      end
  end.

Definition ReplaceAll (s old new : string) : string := ReplaceAll_from O s old new.

(** [strings.Join(elems, sep)]. *)
Definition Join (elems : list string) (sep : string) : string :=
  String.concat sep elems.

End strings.

(** ** Package [mpv]: the bootstrap chain *)

Module mpv.

(** Errors.  [exec.LookPath] fails with an [exec.Error] that wraps a cause;
    [errors.Is(err, exec.ErrDot)] looks for the cause [ErrDot] through the
    wrappers.  The two [fmt.Errorf] calls of the package are kept symbolic. *)
Inductive exec_cause := ErrNotFound | ErrDot | ErrOther (msg : string).

Inductive error :=
| exec_Error (name : string) (cause : exec_cause)
| os_Error (msg : string)
| Errorf_starting_cmd (err : error)       (* fmt.Errorf("starting cmd: %w", err) *)
| Errorf_timeout_reached (timeout : Z).   (* fmt.Errorf("timeout reached: %s", timeout) *)

Fixpoint errors_Is_ErrDot (err : error) : bool :=
  match err with
  | exec_Error _ ErrDot => true
  | Errorf_starting_cmd err' => errors_Is_ErrDot err'
  | _ => false
  end.

Record FileInfo := { IsDir : bool }.

(** The operating system and configuration the package talks to.  None of it
    is code of the package: each component is the answer of an external call.
    [socketName] is a helper of the package whose source is not available;
    it only produces the path of the control socket.  [sleep_lag t] is how
    much longer than asked a sleep that starts at time [t] lasts. *)
Record OS := {
  conf_Server_MPVPath : string;
  conf_Server_MPVCmdTemplate : string;
  exec_LookPath : string -> string * option error;
  socketName : string -> string -> string;
  cmd_Start : list string -> option error;
  os_Stat : string -> Z -> option FileInfo * option error;
  sleep_lag : Z -> Z;
  conn_Open : string -> option error
}.

Inductive Event :=
| EvLookPath (file : string)
| EvStart (args : list string)
| EvStat (path : string) (at_time : Z)
| EvSleep (d : Z)
| EvOpen (socket : string)
| EvLog (lvl : Level) (msg : string).

(** The package-level variables [mpvOnce], [mpvPath], [mpvErr], together with
    the clock and the trace of external calls made so far. *)
Record Process := {
  mpvOnce : bool;
  mpvPath : string;
  mpvErr : option error;
  clock : Z;
  events : list Event
}.

Definition fresh_process (t0 : Z) : Process :=
  {| mpvOnce := false; mpvPath := ""; mpvErr := None; clock := t0; events := [] |}.

Definition set_mpvOnce (b : bool) (p : Process) : Process :=
  {| mpvOnce := b; mpvPath := mpvPath p; mpvErr := mpvErr p;
     clock := clock p; events := events p |}.
Definition set_mpvPath (v : string) (p : Process) : Process :=
  {| mpvOnce := mpvOnce p; mpvPath := v; mpvErr := mpvErr p;
     clock := clock p; events := events p |}.
Definition set_mpvErr (v : option error) (p : Process) : Process :=
  {| mpvOnce := mpvOnce p; mpvPath := mpvPath p; mpvErr := v;
     clock := clock p; events := events p |}.
Definition set_clock (t : Z) (p : Process) : Process :=
  {| mpvOnce := mpvOnce p; mpvPath := mpvPath p; mpvErr := mpvErr p;
     clock := t; events := events p |}.
Definition emit (e : Event) (p : Process) : Process :=
  {| mpvOnce := mpvOnce p; mpvPath := mpvPath p; mpvErr := mpvErr p;
     clock := clock p; events := events p ++ [e] |}.

Definition log (lvl : Level) (msg : string) : M Process unit :=
  modify (emit (EvLog lvl msg)).

Definition LookPath (os : OS) (file : string) : M Process (string * option error) :=
  modify (emit (EvLookPath file)) ;;; ret (exec_LookPath os file).

(** [time.Now()].  Reading the clock does not move it: in this embedding time
    passes in sleeps only.  On a machine it also passes between two readings,
    so a run there passes the deadline of a wait no later than the run
    described here. *)
Definition time_Now : M Process Z := gets clock.

Definition time_Sleep (os : OS) (d : Z) : M Process unit :=
  modify (emit (EvSleep d)) ;;;
  modify (fun p => set_clock (clock p + Z.max 0 d + sleep_lag os (clock p)) p).

(** [sync.Once.Do] on [mpvOnce]: the body runs only while the guard is unset,
    and the guard is set when the body has returned. *)
Definition mpvOnce_Do (f : M Process unit) : M Process unit :=
  done <- gets mpvOnce ;;
  if done then ret tt else (f ;;; modify (set_mpvOnce true)).

Definition mpvCommand (os : OS) : M Process (string * option error) :=
  mpvOnce_Do (
    (if negb (String.eqb (conf_Server_MPVPath os) "") then
       modify (set_mpvPath (conf_Server_MPVPath os)) ;;;
       path <- gets mpvPath ;;
       r <- LookPath os path ;;
       modify (set_mpvPath r.1) ;;; modify (set_mpvErr r.2)
     else
       r <- LookPath os "mpv" ;;
       modify (set_mpvPath r.1) ;;; modify (set_mpvErr r.2) ;;;
       err <- gets mpvErr ;;
       if from_option errors_Is_ErrDot false err then
         log LevelTrace "mpv found in current folder '.'" ;;;
         r <- LookPath os "./mpv" ;;
         modify (set_mpvPath r.1) ;;; modify (set_mpvErr r.2)
       else ret tt) ;;;
    err <- gets mpvErr ;;
    match err with
    | None => log LevelInfo "Found mpv"
    | Some _ => ret tt
    end) ;;;
  path <- gets mpvPath ;;
  err <- gets mpvErr ;;
  ret (path, err).

Definition fixCmd (os : OS) (cmd : string) : M Process string :=
  let split := strings.Split cmd " " in
  r <- mpvCommand os ;;
  let cmdPath := r.1 in
  let result :=
    map (fun s => if String.eqb s "mpv" || String.eqb s "mpv.exe" then cmdPath else s)
        split in
  ret (strings.Join result " ").

Definition createMPVCommand (os : OS) (deviceName socketName : string)
  : M Process (list string) :=
  fixed <- fixCmd os (conf_Server_MPVCmdTemplate os) ;;
  let split := strings.Split fixed " " in
  let split :=
    map (fun s => strings.ReplaceAll (strings.ReplaceAll s "%d" deviceName)
                                     "%s" socketName)
        split in
  ret (split ++ ["--idle"])%list.

(** [Executor]: the argument vector and the command once it is created.  The
    output pipe is not represented. *)
Record Executor := { args : list string; cmd : option (string * list string) }.

Definition Executor_zero : Executor := {| args := []; cmd := None |}.

(** The method [start] of [Executor]: [j.args[0]] panics on an empty argument vector. *)
Definition Executor_start (os : OS) (j : Executor) : M Process (Executor * option error) :=
  match args j with
  | [] => panic "index out of range [0] with length 0"
  | name :: rest =>
      let j := {| args := args j; cmd := Some (name, rest) |} in
      modify (emit (EvStart (name :: rest))) ;;;
      match cmd_Start os (name :: rest) with
      | Some err => ret (j, Some (Errorf_starting_cmd err))
      | None => ret (j, None)
      end
  end.

(** [start]: the goroutine [j.wait()] that reports the exit of the process
    runs in the background and is not represented. *)
Definition start (os : OS) (args : list string) : M Process (Executor * option error) :=
  log LevelDebug "Executing mpv command" ;;;
  let j := {| args := args; cmd := None |} in
  r <- Executor_start os j ;;
  match r.2 with
  | Some err => ret (Executor_zero, Some err)
  | None => ret (r.1, None)
  end.

Definition socket_found (r : option FileInfo * option error) : bool :=
  match r with
  | (Some fileInfo, None) => negb (IsDir fileInfo)
  | _ => false
  end.

(** The loop of [waitForSocket]; [fuel] bounds the number of polls. *)
Fixpoint waitForSocket_loop (fuel : nat) (os : OS) (path : string)
    (timeout pause end_ retries : Z) : M Process (option error) :=
  match fuel with
  | O => out_of_fuel
  | S fuel' =>
      t <- time_Now ;;
      modify (emit (EvStat path t)) ;;;
      if socket_found (os_Stat os path t) then
        log LevelDebug "Socket found" ;;; ret None
      else
        now <- time_Now ;;
        if end_ <? now then ret (Some (Errorf_timeout_reached timeout))
        else
          time_Sleep os pause ;;;
          waitForSocket_loop fuel' os path timeout pause end_ (retries + 1)
  end.

Definition waitForSocket (fuel : nat) (os : OS) (path : string) (timeout pause : Z)
  : M Process (option error) :=
  start_ <- time_Now ;;
  let end_ := start_ + timeout in
  waitForSocket_loop fuel os path timeout pause end_ 0.

(** An open [mpvipc.Connection], identified by its socket. *)
Record Connection := { socket : string }.

Definition OpenMpvAndConnection (fuel : nat) (os : OS) (deviceName : string)
  : M Process (option Connection * option error) :=
  r <- mpvCommand os ;;
  match r.2 with
  | Some err => ret (None, Some err)
  | None =>
      let tmpSocketName := socketName os "mpv-ctrl-" ".socket" in
      args <- createMPVCommand os deviceName tmpSocketName ;;
      r <- start os args ;;
      match r.2 with
      | Some err =>
          log LevelError "Error starting mpv process" ;;; ret (None, Some err)
      | None =>
          err <- waitForSocket fuel os tmpSocketName (3 * Second) (100 * Millisecond) ;;
          match err with
          | Some err =>
              log LevelError "Error or timeout waiting for control socket" ;;;
              ret (None, Some err)
          | None =>
              let conn := {| socket := tmpSocketName |} in
              modify (emit (EvOpen tmpSocketName)) ;;;
              match conn_Open os tmpSocketName with
              | Some err =>
                  log LevelError "Error opening new connection" ;;; ret (None, Some err)
              | None => ret (Some conn, None)
              end
          end
      end
  end.

End mpv.

(** ** Finite binary floating-point values

    A finite [float32] or [float64] is an integer significand times a power of
    two.  [mul32] is the IEEE 754 binary32 product (round to nearest, ties to
    even) as long as the product neither overflows nor falls below the
    subnormal grid; for a [float32] in [0,1] times 100, the only product made
    by the embedded code, both hold (the exponent can only grow, and the
    result is at most 100). *)

Module Float.

Record dyadic := Dy { mant : Z; expo : Z }.

Definition float32 := dyadic.
Definition float64 := dyadic.

Definition is_float32 (x : dyadic) : Prop :=
  Z.abs (mant x) < 2 ^ 24 /\ -149 <= expo x <= 104.

(** [m / 2^k] rounded to the nearest integer, ties to even ([0 < k]). *)
Definition rne_shift (m k : Z) : Z :=
  let q := m / 2 ^ k in
  let r := m mod 2 ^ k in
  let half := 2 ^ (k - 1) in
  if (half <? r) || ((r =? half) && Z.odd q) then q + 1 else q.

(** Rounding to 24 significant bits. *)
Definition round32 (x : dyadic) : float32 :=
  let k := Z.log2 (Z.abs (mant x)) + 1 - 24 in
  if k <=? 0 then x else Dy (rne_shift (mant x) k) (expo x + k).

Definition mul32 (a b : float32) : float32 :=
  round32 (Dy (mant a * mant b) (expo a + expo b)).

(** The integer part of [x]: the fraction is discarded (truncation toward
    zero).  This is the Go conversion [int(x)] as long as the integer part
    fits in an [int]. *)
Definition to_int (x : dyadic) : Z :=
  if 0 <=? expo x then mant x * 2 ^ expo x
  else Z.quot (mant x) (2 ^ (- expo x)).

(** The Go conversion [int(x)] of a [float64], with the 64-bit [int] of a
    64-bit machine.  A value whose integer part fits is truncated.  For the
    other values Go leaves the result to the implementation; the conversion
    instruction of amd64 then gives the smallest [int]. *)
Definition int_of_float64 (x : float64) : Z :=
  let z := to_int x in
  if (- 2 ^ 63 <=? z) && (z <? 2 ^ 63) then z else - 2 ^ 63.

(** [0 <= x <= 1]. *)
Definition in_unit_interval (x : dyadic) : Prop :=
  0 <= mant x /\
  if 0 <=? expo x then mant x * 2 ^ expo x <= 1 else mant x <= 2 ^ (- expo x).

(** The real number [100 * x] rounded to the nearest integer (halves away
    from zero), for [0 <= x]: this is [round(g*100)] computed exactly. *)
Definition round_times_100 (x : dyadic) : Z :=
  if 0 <=? expo x then 100 * mant x * 2 ^ expo x
  else (200 * mant x + 2 ^ (- expo x)) / 2 ^ (- expo x + 1).

Definition f32_100 : float32 := Dy 100 0.
Definition f32_1 : float32 := Dy 1 0.
Definition f32_0 : float32 := Dy 0 0.

End Float.

(** ** Package [playback]: the queue and the speaker device *)

Module playback.

Import Float.

(** A Go [error] of this package is observed only through [Error()]. *)
Record error := errors_New { Error : string }.

(** [model.MediaFile], restricted to the fields the package reads. *)
Record MediaFile := { ID : string; Path : string }.

(** *** The queue

    The source of [Queue] is not available; the device only shows its field
    [Index] and the names of its methods.  The type and its operations are
    modelled from the specification. *)

(** Modelled from the spec: the missing type [Queue], an ordered sequence of
    track references with an index cursor. *)
Record Queue := { Index : Z; Items : list MediaFile }.

(** Modelled from the spec: the constructor of the missing [Queue].  The
    queue is an ordered sequence of track references with an index cursor,
    and the cursor is [-1] exactly when the queue is empty. *)
Definition NewQueue : Queue := {| Index := -1; Items := [] |}.

(** Modelled from the spec: [Queue.Size] and [Queue.IsEmpty] of the missing
    [Queue]. *)
Definition Queue_Size (q : Queue) : Z := Z.of_nat (length (Items q)).
Definition Queue_IsEmpty (q : Queue) : bool := Queue_Size q <? 1.

(** Modelled from the spec: [Queue.Get] of the missing [Queue], the ordered
    sequence. *)
Definition Queue_Get (q : Queue) : list MediaFile := Items q.

(** Modelled from the spec: [Queue.Add] of the missing [Queue].  The tracks
    are appended in order; a cursor that was [-1] moves to the start when the
    queue becomes non-empty, as the invariant on the cursor requires. *)
Definition Queue_Add (items : list MediaFile) (q : Queue) : Queue :=
  let items' := Items q ++ items in
  {| Index := if (Index q =? -1) && negb (length items' =? 0)%nat then 0 else Index q;
     Items := items' |}.

(** Modelled from the spec: [Queue.Clear] of the missing [Queue]; the queue
    is emptied, so its cursor is [-1]. *)
Definition Queue_Clear (q : Queue) : Queue := {| Index := -1; Items := [] |}.

(** Modelled from the spec: [Queue.Remove] of the missing [Queue], called by
    the device with an index in range only.  Exactly the element at [idx] is
    removed and the others keep their order.  The specification does not say
    where the cursor goes; it is kept, and pulled back to the last element
    (or to [-1] on an empty queue) when it would leave the queue. *)
Definition Queue_Remove (idx : Z) (q : Queue) : Queue :=
  let items' := delete (Z.to_nat idx) (Items q) in
  let size' := Z.of_nat (length items') in
  {| Index := if size' <=? Index q then size' - 1 else Index q;
     Items := items' |}.

(** Modelled from the spec: [Queue.SetIndex] of the missing [Queue].  An
    index inside the queue becomes the cursor.  The specification does not
    say what happens to an index outside the queue; the invariant on the
    cursor leaves no choice on an empty queue ([-1]), and on a non-empty one
    the index is brought to the nearest valid position. *)
Definition Queue_SetIndex (idx : Z) (q : Queue) : Queue :=
  let size := Queue_Size q in
  {| Index := if size =? 0 then -1 else Z.max 0 (Z.min idx (size - 1));
     Items := Items q |}.

(** Modelled from the spec: [Queue.Current] of the missing [Queue], the track
    under the cursor or none. *)
Definition Queue_Current (q : Queue) : option MediaFile :=
  if Index q <? 0 then None else Items q !! Z.to_nat (Index q).

(** The invariant of the queue stated by the specification. *)
Definition Queue_wf (q : Queue) : Prop :=
  (0 <= Index q < Queue_Size q) \/ (Index q = -1 /\ Items q = []).

(** *** The player connection *)

(** Values exchanged with the player (Go [interface{}]). *)
Inductive value :=
| Nil
| Bool (b : bool)
| Int (z : Z)
| Float64 (f : float64)
| Str (s : string).

(** The three primitives of [mpvipc.Connection] used by the device. *)
Inductive Request :=
| IpcGet (property : string)
| IpcSet (property : string) (v : value)
| IpcCall (command : list value).

Definition Reply : Type := value * option error.

(** [DeviceStatus] of device.go. *)
Module DeviceStatus.
Record t := { CurrentIndex : Z; Playing : bool; Gain : float32; Position : Z }.
Definition zero : t :=
  {| CurrentIndex := 0; Playing := false; Gain := f32_0; Position := 0 |}.
End DeviceStatus.

(** The method of [PlaybackServer] the device calls.  Go returns a pointer
    and an error. *)
Record PlaybackServer := {
  GetMediaFile : string -> option MediaFile * option error
}.

(** [SpeakerPlaybackDevice].  The context, the event and done channels and
    the one-time guard of the track-switcher goroutine are not represented:
    they only serve that goroutine, which no embedded method waits for. *)
Record SpeakerPlaybackDevice := {
  ParentPlaybackServer : PlaybackServer;
  MpvConn : option mpv.Connection;
  Default : bool;
  Name : string;
  DeviceName : string;
  PlaybackQueue : Queue;
  Gain : float32
}.

(** The device together with what it talks to: the player at the other end of
    the connection answers a request knowing the requests made before it;
    the requests, the sleeps, the catalog look-ups and the log entries are
    recorded in the order they happen. *)
Record System := {
  device : SpeakerPlaybackDevice;
  player : list Request -> Request -> Reply;
  sent : list Request;
  slept : list Z;
  lookups : list string;
  logged : list (Level * string)
}.

Definition set_device (pd : SpeakerPlaybackDevice) (s : System) : System :=
  {| device := pd; player := player s; sent := sent s; slept := slept s;
     lookups := lookups s; logged := logged s |}.
Definition add_sent (r : Request) (s : System) : System :=
  {| device := device s; player := player s; sent := sent s ++ [r]; slept := slept s;
     lookups := lookups s; logged := logged s |}.
Definition add_slept (d : Z) (s : System) : System :=
  {| device := device s; player := player s; sent := sent s; slept := slept s ++ [d];
     lookups := lookups s; logged := logged s |}.
Definition add_lookup (id : string) (s : System) : System :=
  {| device := device s; player := player s; sent := sent s; slept := slept s;
     lookups := lookups s ++ [id]; logged := logged s |}.
Definition add_logged (e : Level * string) (s : System) : System :=
  {| device := device s; player := player s; sent := sent s; slept := slept s;
     lookups := lookups s; logged := logged s ++ [e] |}.

Definition set_PlaybackQueue (q : Queue) (pd : SpeakerPlaybackDevice)
  : SpeakerPlaybackDevice :=
  {| ParentPlaybackServer := ParentPlaybackServer pd; MpvConn := MpvConn pd;
     Default := Default pd; Name := Name pd; DeviceName := DeviceName pd;
     PlaybackQueue := q; Gain := Gain pd |}.
Definition set_Gain (g : float32) (pd : SpeakerPlaybackDevice)
  : SpeakerPlaybackDevice :=
  {| ParentPlaybackServer := ParentPlaybackServer pd; MpvConn := MpvConn pd;
     Default := Default pd; Name := Name pd; DeviceName := DeviceName pd;
     PlaybackQueue := PlaybackQueue pd; Gain := g |}.

Definition log (lvl : Level) (msg : string) : M System unit :=
  modify (add_logged (lvl, msg)).

Definition time_Sleep (d : Z) : M System unit := modify (add_slept d).

Definition queue : M System Queue := gets (fun s => PlaybackQueue (device s)).

Definition update_queue (f : Queue -> Queue) : M System unit :=
  modify (fun s => set_device (set_PlaybackQueue (f (PlaybackQueue (device s))) (device s)) s).

(** A request on [pd.MpvConn].  The connection is a pointer: a request on a
    nil connection dereferences it. *)
Definition request (r : Request) : M System Reply :=
  conn <- gets (fun s => MpvConn (device s)) ;;
  match conn with
  | None => panic "invalid memory address or nil pointer dereference"
  | Some _ =>
      reply <- gets (fun s => player s (sent s) r) ;;
      modify (add_sent r) ;;;
      ret reply
  end.

Definition MpvConn_Get (property : string) : M System Reply :=
  request (IpcGet property).
Definition MpvConn_Set (property : string) (v : value) : M System (option error) :=
  reply <- request (IpcSet property v) ;; ret reply.2.
Definition MpvConn_Call (command : list value) : M System Reply :=
  request (IpcCall command).

(** *** The methods of the device

    The receiver [pd] is the device of the [System]; the [context.Context]
    argument of the methods only feeds the log and is dropped. *)

Definition is_property_unavailable (err : option error) : bool :=
  match err with
  | Some e => String.eqb (Error e) "mpv error: property unavailable"
  | None => false
  end.

(** The [for] loop of [Position]; [fuel] bounds the number of iterations. *)
Fixpoint Position_loop (fuel : nat) (retryCount : Z) : M System Z :=
  match fuel with
  | O => out_of_fuel
  | S fuel' =>
      reply <- MpvConn_Get "time-pos" ;;
      let position := reply.1 in
      let err := reply.2 in
      if is_property_unavailable err then
        let retryCount := retryCount + 1 in
        log LevelDebug "Got mpv error, retrying..." ;;;
        if 5 <? retryCount then ret 0
        else
          time_Sleep (retryCount * Millisecond) ;;;
          Position_loop fuel' retryCount
      else
        match err with
        | Some _ => log LevelError "Error getting position in track" ;;; ret 0
        | None =>
            match position with
            | Float64 pos => ret (int_of_float64 pos)
            | _ =>
                log LevelError "Could not cast position from mpv into float64" ;;;
                ret 0
            end
        end
  end.

(** [Position]: six iterations are the most the loop can make (lemma
    [Position_loop_fuel] below), so the loop is run with that bound. *)
Definition Position : M System Z := Position_loop 6 0.

Definition isPlaying : M System bool :=
  reply <- MpvConn_Get "pause" ;;
  match reply.2 with
  | Some _ => log LevelError "Problem getting paused status" ;;; ret false
  | None =>
      match reply.1 with
      | Bool pause => ret (negb pause)
      | _ => log LevelError "Could not cast pausing to boolean" ;;; ret false
      end
  end.

Definition getStatus : M System DeviceStatus.t :=
  q <- queue ;;
  playing <- isPlaying ;;
  gain <- gets (fun s => Gain (device s)) ;;
  position <- Position ;;
  ret {| DeviceStatus.CurrentIndex := Index q;
         DeviceStatus.Playing := playing;
         DeviceStatus.Gain := gain;
         DeviceStatus.Position := position |}.

(** [NewSpeakerPlaybackDevice]: the error of [OpenMpvAndConnection] is
    assigned to the blank identifier, and the device is returned. *)
Definition NewSpeakerPlaybackDevice (fuel : nat) (os : mpv.OS)
    (playbackServer : PlaybackServer) (name deviceName : string)
  : M mpv.Process SpeakerPlaybackDevice :=
  r <- mpv.OpenMpvAndConnection fuel os deviceName ;;
  let conn := r.1 in
  ret {| ParentPlaybackServer := playbackServer;
         MpvConn := conn;
         Default := false;
         Name := name;
         DeviceName := deviceName;
         PlaybackQueue := NewQueue;
         Gain := f32_1 |}.

Definition Get : M System (list MediaFile * DeviceStatus.t * option error) :=
  log LevelDebug "Processing Get action" ;;;
  q <- queue ;;
  st <- getStatus ;;
  ret (Queue_Get q, st, None).

Definition Stop : M System (DeviceStatus.t * option error) :=
  log LevelDebug "Processing Stop action" ;;;
  err <- MpvConn_Set "pause" (Bool true) ;;
  (match err with
   | Some _ => log LevelError "Error pausing track"
   | None => ret tt
   end) ;;;
  st <- getStatus ;;
  ret (st, None).

Definition switchActiveTrackByIndex (index offset : Z) : M System (option error) :=
  update_queue (Queue_SetIndex index) ;;;
  q <- queue ;;
  match Queue_Current q with
  | None => ret (Some (errors_New "could not get current track"))
  | Some currentTrack =>
      MpvConn_Call [Str "loadfile"; Str (Path currentTrack); Str "replace"; Int 0;
                    Str "start=10"] ;;;
      ret None
  end.

Definition Skip (index offset : Z) : M System (DeviceStatus.t * option error) :=
  log LevelDebug "Processing Skip action" ;;;
  q <- queue ;;
  (if negb (index =? Index q) then
     switchActiveTrackByIndex index offset ;;; ret tt
   else
     MpvConn_Call [Str "seek"; Int offset] ;;; ret tt) ;;;
  st <- getStatus ;;
  ret (st, None).

(** The [range] loop of [Add]: the tracks found so far, or the first error. *)
Fixpoint Add_loop (ids : list string) (items : list MediaFile)
  : M System (list MediaFile + error) :=
  match ids with
  | [] => ret (inl items)
  | id :: ids' =>
      server <- gets (fun s => ParentPlaybackServer (device s)) ;;
      modify (add_lookup id) ;;;
      match GetMediaFile server id with
      | (_, Some err) => ret (inr err)
      | (None, None) => panic "invalid memory address or nil pointer dereference"
      | (Some mf, None) =>
          log LevelDebug ("Found mediafile: " +:+ Path mf) ;;;
          Add_loop ids' (items ++ [mf])
      end
  end.

Definition Add (ids : list string) : M System (DeviceStatus.t * option error) :=
  log LevelDebug "Processing Add action" ;;;
  if (length ids <? 1)%nat then
    st <- getStatus ;; ret (st, None)
  else
    r <- Add_loop ids [] ;;
    match r with
    | inr err => ret (DeviceStatus.zero, Some err)
    | inl items =>
        update_queue (Queue_Add items) ;;;
        st <- getStatus ;;
        ret (st, None)
    end.

Definition Clear : M System (DeviceStatus.t * option error) :=
  log LevelDebug "Processing Clear action" ;;;
  Stop ;;;
  update_queue Queue_Clear ;;;
  st <- getStatus ;;
  ret (st, None).

(** The method [Set] ([Set] is reserved in Rocq). *)
Definition Set_ (ids : list string) : M System (DeviceStatus.t * option error) :=
  log LevelDebug "Processing Set action" ;;;
  r <- Clear ;;
  match r.2 with
  | Some err =>
      log LevelError "error setting tracks" ;;;
      st <- getStatus ;;
      ret (st, Some err)
  | None => Add ids
  end.

Definition Remove (index : Z) : M System (DeviceStatus.t * option error) :=
  log LevelDebug "Processing Remove action" ;;;
  playing <- isPlaying ;;
  q <- queue ;;
  stopErr <- (if playing && (Index q =? index) then
                r <- Stop ;; ret r.2
              else ret None) ;;
  match stopErr with
  | Some err =>
      log LevelError "error stopping running track" ;;;
      st <- getStatus ;;
      ret (st, Some err)
  | None =>
      q <- queue ;;
      (if (-1 <? index) && (index <? Queue_Size q) then
         update_queue (Queue_Remove index)
       else
         log LevelError ("Index to remove out of range: " +:+ Sprint_int index)) ;;;
      st <- getStatus ;;
      ret (st, None)
  end.

Definition SetGain (gain : float32) : M System (DeviceStatus.t * option error) :=
  log LevelDebug "Processing SetGain action" ;;;
  let vol := to_int (mul32 gain f32_100) in
  err <- MpvConn_Set "volume" (Int vol) ;;
  (match err with
   | Some _ => log LevelError "Error setting volume"
   | None => ret tt
   end) ;;;
  modify (fun s => set_device (set_Gain gain (device s)) s) ;;;
  st <- getStatus ;;
  ret (st, None).

(** *** Start and Shuffle *)

(** The one-time guard [startTrackSwitcher] of the device and the number of
    track-switcher goroutines started.  The goroutine only waits for the done
    channel and for the end of the service context and touches nothing of the
    device, so it is represented by this count alone. *)
Record Switcher := { startTrackSwitcher : bool; goroutines : nat }.

Definition Running : Type := System * Switcher.

(** A computation on the system, run beside the guard. *)
Definition lift {A} (m : M System A) : M Running A :=
  fun r =>
    match m r.1 with
    | Ret a s' => Ret a (s', r.2)
    | Panic msg s' => Panic msg (s', r.2)
    | OutOfFuel => OutOfFuel
    end.

(** [sync.Once.Do] on [startTrackSwitcher]. *)
Definition startTrackSwitcher_Do (f : M Running unit) : M Running unit :=
  done <- gets (fun r : Running => startTrackSwitcher r.2) ;;
  if done then ret tt
  else
    f ;;;
    modify (fun r : Running =>
              (r.1, {| startTrackSwitcher := true; goroutines := goroutines r.2 |})).

(** [go func() { pd.trackSwitcherGoroutine() }()]. *)
Definition go_trackSwitcherGoroutine : M Running unit :=
  modify (fun r : Running =>
            (r.1, {| startTrackSwitcher := startTrackSwitcher r.2;
                     goroutines := S (goroutines r.2) |})).

Definition Start : M Running (DeviceStatus.t * option error) :=
  lift (log LevelDebug "Processing Start action") ;;;
  startTrackSwitcher_Do (
    lift (log LevelInfo "Starting trackSwitcher goroutine") ;;;
    go_trackSwitcherGoroutine) ;;;
  q <- lift queue ;;
  if negb (Queue_IsEmpty q) then
    err <- lift (switchActiveTrackByIndex (Index q) 0) ;;
    match err with
    | Some err => st <- lift getStatus ;; ret (st, Some err)
    | None =>
        err <- lift (MpvConn_Set "pause" (Bool false)) ;;
        (match err with
         | Some _ => lift (log LevelError "Error pausing track")
         | None => ret tt
         end) ;;;
        st <- lift getStatus ;;
        ret (st, None)
    end
  else
    st <- lift getStatus ;;
    ret (st, None).

(** [Shuffle]: the method [Shuffle] of the missing [Queue] draws a random
    order; the reordering it makes is the parameter [Queue_Shuffle]. *)
Definition Shuffle (Queue_Shuffle : Queue -> Queue)
  : M System (DeviceStatus.t * option error) :=
  log LevelDebug "Processing Shuffle action" ;;;
  q <- queue ;;
  (if 1 <? Queue_Size q then update_queue Queue_Shuffle else ret tt) ;;;
  st <- getStatus ;;
  ret (st, None).

End playback.

(** ** Binary resolution as the specification words it *)

Module resolver.

Import mpv.

(** The algorithm of the specification: an explicit configured path is
    search-path resolved; otherwise the bare name is, and an ambiguous
    relative path is retried from the current directory. *)
Definition resolve (os : OS) : string * option error :=
  if negb (String.eqb (conf_Server_MPVPath os) "") then
    exec_LookPath os (conf_Server_MPVPath os)
  else
    let r := exec_LookPath os "mpv" in
    if from_option errors_Is_ErrDot false r.2 then exec_LookPath os "./mpv" else r.

(** The search-path look-ups of one resolution. *)
Definition resolve_lookups (os : OS) : list string :=
  if negb (String.eqb (conf_Server_MPVPath os) "") then [conf_Server_MPVPath os]
  else if from_option errors_Is_ErrDot false (exec_LookPath os "mpv").2
       then ["mpv"; "./mpv"] else ["mpv"].

Definition lookups_of (tr : list Event) : list string :=
  omap (fun e => match e with EvLookPath f => Some f | _ => None end) tr.

(** The sockets on which a connection was opened. *)
Definition opened (tr : list Event) : list string :=
  omap (fun e => match e with EvOpen f => Some f | _ => None end) tr.

(** The player binary is available to [mpvCommand]: already cached without
    error, or found by the resolution still to be made. *)
Definition binary_found (os : OS) (p : Process) : Prop :=
  if mpvOnce p then mpvErr p = None else (resolve os).2 = None.

(** One iteration of the poll loop, written out on the state. *)
Definition after_stat (path : string) (p : Process) : Process :=
  emit (EvStat path (clock p)) p.

Definition after_sleep (os : OS) (pause : Z) (p : Process) : Process :=
  set_clock (clock p + Z.max 0 pause + sleep_lag os (clock p)) (emit (EvSleep pause) p).

(** [mpvCommand] called once per environment of the list, in order. *)
Fixpoint mpvCommand_calls (oss : list OS) : M Process (list (string * option error)) :=
  match oss with
  | [] => ret []
  | os :: oss' =>
      r <- mpvCommand os ;;
      rs <- mpvCommand_calls oss' ;;
      ret (r :: rs)
  end.

End resolver.

(** ** Observations on a run of the device *)

Module run.

Import Float playback.

Definition connected (s : System) : Prop := exists conn, MpvConn (device s) = Some conn.

(** The requests that ask the player to do something: everything but the
    property reads. *)
Definition writes (tr : list Request) : list Request :=
  omap (fun r => match r with IpcGet _ => None | _ => Some r end) tr.

(** From [s] to [s'] the device only read properties of the player: device,
    catalog look-ups and the player itself are as before, no request other
    than reads was sent, and the log only grew. *)
Definition reads_only (s s' : System) : Prop :=
  device s' = device s /\ player s' = player s /\ lookups s' = lookups s
  /\ writes (sent s') = writes (sent s)
  /\ logged s `prefix_of` logged s'.

Definition get_time_pos : Request := IpcGet "time-pos".

(** The reply of the player to the position query number [k] (from 0) of a
    run of [Position] that starts in [s]. *)
Definition time_pos_reply (s : System) (k : nat) : Reply :=
  player s (sent s ++ replicate k get_time_pos) get_time_pos.

Definition unavailable (r : Reply) : bool := is_property_unavailable r.2.

(** What [Position] makes of a reply that is not the transient error. *)
Definition position_of_reply (r : Reply) : Z :=
  match r with
  | (_, Some _) => 0
  | (Float64 pos, None) => int_of_float64 pos
  | (_, None) => 0
  end.

(** The sleeps before retries [1], ..., [k] when [rc] failures came before:
    retry [i] waits [(rc + i)] milliseconds. *)
Definition backoff (rc : Z) (k : nat) : list Z :=
  map (fun i => (rc + Z.of_nat i) * Millisecond) (seq 1 k).

Definition seek (offset : Z) : Request := IpcCall [Str "seek"; Int offset].

Definition loadfile (path : string) : Request :=
  IpcCall [Str "loadfile"; Str path; Str "replace"; Int 0; Str "start=10"].

Definition set_queue (q : Queue) (s : System) : System :=
  set_device (set_PlaybackQueue q (device s)) s.

(** The state in which [Skip] asks for the status: after its log entry and
    after the seek or the track switch. *)
Definition after_skip (index offset : Z) (s : System) : System :=
  let s0 := add_logged (LevelDebug, "Processing Skip action") s in
  let q := PlaybackQueue (device s) in
  if negb (index =? Index q) then
    let q' := Queue_SetIndex index q in
    match Queue_Current q' with
    | None => set_queue q' s0
    | Some currentTrack => add_sent (loadfile (Path currentTrack)) (set_queue q' s0)
    end
  else add_sent (seek offset) s0.

(** The tracks the catalog returns for a list of ids. *)
Definition resolves (server : PlaybackServer) (ids : list string)
    (tracks : list MediaFile) : Prop :=
  Forall2 (fun id mf => GetMediaFile server id = (Some mf, None)) ids tracks.

End run.

(** ** Outcomes of a device construction *)

Module construction.

Import playback.

(** Device construction fails: the constructor hands no device back. *)
Definition fails (o : Outcome mpv.Process SpeakerPlaybackDevice) : Prop :=
  match o with
  | Ret _ _ => False
  | _ => True
  end.

End construction.

(** ** Observations on a run of the bootstrap chain *)

Module chain.

Import mpv resolver.

(** What the chain did to the machine: the events other than search-path
    look-ups and log entries. *)
Definition actions (tr : list Event) : list Event :=
  omap (fun e => match e with
                 | EvLookPath _ | EvLog _ _ => None
                 | _ => Some e
                 end) tr.

(** The resolution of the player binary fails with [err]: cached so, or by
    the resolution still to be made. *)
Definition binary_missing (os : OS) (p : Process) (err : error) : Prop :=
  if mpvOnce p then mpvErr p = Some err else (resolve os).2 = Some err.

(** The path [mpvCommand] returns: the cached one, or the one the resolution
    still to be made finds. *)
Definition resolved_path (os : OS) (p : Process) : string :=
  if mpvOnce p then mpvPath p else (resolve os).1.

(** The polls of the socket made so far: the times at which the path was
    looked at. *)
Definition polls_of (path : string) (tr : list Event) : list Z :=
  omap (fun e => match e with
                 | EvStat f t => if String.eqb f path then Some t else None
                 | _ => None
                 end) tr.

Fixpoint has_space (s : string) : bool :=
  match s with
  | EmptyString => false
  | String c r => Ascii.eqb c " " || has_space r
  end.

(** What [fixCmd] makes of one piece of the command line. *)
Definition fix_token (cmdPath s : string) : string :=
  if String.eqb s "mpv" || String.eqb s "mpv.exe" then cmdPath else s.

(** What [createMPVCommand] makes of one piece of the command line. *)
Definition substitute (deviceName socketName s : string) : string :=
  strings.ReplaceAll (strings.ReplaceAll s "%d" deviceName) "%s" socketName.

End chain.

(** ** Observations on the transport commands *)

Module transport.

Import playback.

(** What [isPlaying] makes of the reply to the pause query. *)
Definition playing_of_reply (r : Reply) : bool :=
  match r with
  | (Bool pause, None) => negb pause
  | _ => false
  end.

(** The guard and the goroutine count after a call of [Start]. *)
Definition after_guard (sw : Switcher) : Switcher :=
  if startTrackSwitcher sw then sw
  else {| startTrackSwitcher := true; goroutines := S (goroutines sw) |}.

(** The system after the log entries [Start] begins with. *)
Definition after_guard_log (sw : Switcher) (s : System) : System :=
  let s0 := add_logged (LevelDebug, "Processing Start action") s in
  if startTrackSwitcher sw then s0
  else add_logged (LevelInfo, "Starting trackSwitcher goroutine") s0.

Definition nil_dereference : string :=
  "invalid memory address or nil pointer dereference".

(** [Start] called [n] times in a row; the result of the last call. *)
Fixpoint Start_times (n : nat) : M Running (option (DeviceStatus.t * option error)) :=
  match n with
  | O => ret None
  | S n' =>
      r <- Start ;;
      match n' with
      | O => ret (Some r)
      | S _ => Start_times n'
      end
  end.

End transport.

(** ** Sample environments *)

Module samples.

Import mpv.

Definition lookPath_usr_bin (file : string) : string * option error :=
  if String.eqb file "mpv" then ("/usr/bin/mpv", None)
  else ("", Some (exec_Error file ErrNotFound)).

Definition lookPath_dot (file : string) : string * option error :=
  if String.eqb file "mpv" then ("mpv", Some (exec_Error "mpv" ErrDot))
  else if String.eqb file "./mpv" then ("./mpv", None)
  else ("", Some (exec_Error file ErrNotFound)).

Definition lookPath_none (file : string) : string * option error :=
  ("", Some (exec_Error file ErrNotFound)).

(** A machine on which the player starts but never creates its socket. *)
Definition os_no_socket : OS :=
  {| conf_Server_MPVPath := "";
     conf_Server_MPVCmdTemplate := "mpv --audio-device=%d --no-audio-display --input-ipc-server=%s";
     exec_LookPath := lookPath_usr_bin;
     socketName := fun prefix suffix => "/tmp/" +:+ prefix +:+ "4711" +:+ suffix;
     cmd_Start := fun _ => None;
     os_Stat := fun _ _ => (None, Some (os_Error "no such file or directory"));
     sleep_lag := fun _ => 0;
     conn_Open := fun _ => None |}.

(** The same machine with the socket present from 250ms on. *)
Definition os_socket_250ms : OS :=
  {| conf_Server_MPVPath := conf_Server_MPVPath os_no_socket;
     conf_Server_MPVCmdTemplate := conf_Server_MPVCmdTemplate os_no_socket;
     exec_LookPath := exec_LookPath os_no_socket;
     socketName := socketName os_no_socket;
     cmd_Start := cmd_Start os_no_socket;
     os_Stat := fun _ t => if 250 * Millisecond <=? t then (Some {| IsDir := false |}, None)
                           else (None, Some (os_Error "no such file or directory"));
     sleep_lag := sleep_lag os_no_socket;
     conn_Open := conn_Open os_no_socket |}.

Definition os_dot : OS :=
  {| conf_Server_MPVPath := "";
     conf_Server_MPVCmdTemplate := "mpv --idle";
     exec_LookPath := lookPath_dot;
     socketName := socketName os_no_socket;
     cmd_Start := fun _ => None;
     os_Stat := os_Stat os_no_socket;
     sleep_lag := fun _ => 0;
     conn_Open := fun _ => None |}.

Definition os_no_mpv : OS :=
  {| conf_Server_MPVPath := "/opt/mpv/bin/mpv";
     conf_Server_MPVCmdTemplate := "mpv --idle";
     exec_LookPath := lookPath_none;
     socketName := socketName os_no_socket;
     cmd_Start := fun _ => None;
     os_Stat := os_Stat os_no_socket;
     sleep_lag := fun _ => 0;
     conn_Open := fun _ => None |}.

Definition track_A : playback.MediaFile :=
  {| playback.ID := "a"; playback.Path := "/music/a.flac" |}.
Definition track_B : playback.MediaFile :=
  {| playback.ID := "b"; playback.Path := "/music/b.flac" |}.
Definition track_C : playback.MediaFile :=
  {| playback.ID := "c"; playback.Path := "/music/c.flac" |}.

(** A catalog that knows three tracks. *)
Definition catalog : playback.PlaybackServer :=
  {| playback.GetMediaFile := fun id =>
       if String.eqb id "a" then (Some track_A, None)
       else if String.eqb id "b" then (Some track_B, None)
       else if String.eqb id "c" then (Some track_C, None)
       else (None, Some (playback.errors_New "data not found")) |}.

Definition connection : mpv.Connection := {| mpv.socket := "/tmp/mpv-ctrl-4711.socket" |}.

Definition device_with (q : playback.Queue) : playback.SpeakerPlaybackDevice :=
  {| playback.ParentPlaybackServer := catalog;
     playback.MpvConn := Some connection;
     playback.Default := false;
     playback.Name := "jukebox";
     playback.DeviceName := "hw:1";
     playback.PlaybackQueue := q;
     playback.Gain := Float.f32_1 |}.

Definition system_with (pl : list playback.Request -> playback.Request -> playback.Reply)
    (q : playback.Queue) : playback.System :=
  {| playback.device := device_with q;
     playback.player := pl;
     playback.sent := [];
     playback.slept := [];
     playback.lookups := [];
     playback.logged := [] |}.

Definition property_unavailable : playback.error :=
  playback.errors_New "mpv error: property unavailable".

(** A player that is playing, 42.5 seconds into the track. *)
Definition player_playing (history : list playback.Request) (r : playback.Request)
  : playback.Reply :=
  match r with
  | playback.IpcGet property =>
      if String.eqb property "pause" then (playback.Bool false, None)
      else if String.eqb property "time-pos" then (playback.Float64 (Float.Dy 85 (-1)), None)
      else (playback.Nil, Some property_unavailable)
  | _ => (playback.Nil, None)
  end.

(** A player that has no position yet, and never gets one. *)
Definition player_starting (history : list playback.Request) (r : playback.Request)
  : playback.Reply :=
  match r with
  | playback.IpcGet property =>
      if String.eqb property "pause" then (playback.Bool true, None)
      else (playback.Nil, Some property_unavailable)
  | _ => (playback.Nil, None)
  end.

(** A player whose position becomes available at the third query. *)
Definition player_recovering (history : list playback.Request) (r : playback.Request)
  : playback.Reply :=
  match r with
  | playback.IpcGet property =>
      if String.eqb property "pause" then (playback.Bool false, None)
      else if (length history <? 2)%nat then (playback.Nil, Some property_unavailable)
      else (playback.Float64 (Float.Dy 7 0), None)
  | _ => (playback.Nil, None)
  end.

(** A player that reports a position of 2^70 seconds. *)
Definition player_far (history : list playback.Request) (r : playback.Request)
  : playback.Reply :=
  match r with
  | playback.IpcGet property =>
      if String.eqb property "pause" then (playback.Bool false, None)
      else (playback.Float64 (Float.Dy 1 70), None)
  | _ => (playback.Nil, None)
  end.

(** A player that refuses every set and every command. *)
Definition player_refusing (history : list playback.Request) (r : playback.Request)
  : playback.Reply :=
  match r with
  | playback.IpcGet property =>
      if String.eqb property "pause" then (playback.Bool false, None)
      else (playback.Float64 (Float.Dy 3 0), None)
  | _ => (playback.Nil, Some (playback.errors_New "mpv error: invalid parameter"))
  end.

Definition queue_ABC (index : Z) : playback.Queue :=
  {| playback.Index := index; playback.Items := [track_A; track_B; track_C] |}.

(** A machine whose player creates the socket 3050ms after the start, past
    the deadline of the wait. *)
Definition os_socket_late : OS :=
  {| conf_Server_MPVPath := conf_Server_MPVPath os_no_socket;
     conf_Server_MPVCmdTemplate := conf_Server_MPVCmdTemplate os_no_socket;
     exec_LookPath := exec_LookPath os_no_socket;
     socketName := socketName os_no_socket;
     cmd_Start := cmd_Start os_no_socket;
     os_Stat := fun _ t => if 3050 * Millisecond <=? t then (Some {| IsDir := false |}, None)
                           else (None, Some (os_Error "no such file or directory"));
     sleep_lag := sleep_lag os_no_socket;
     conn_Open := conn_Open os_no_socket |}.

(** A machine on which the player cannot be started. *)
Definition os_no_exec : OS :=
  {| conf_Server_MPVPath := conf_Server_MPVPath os_no_socket;
     conf_Server_MPVCmdTemplate := conf_Server_MPVCmdTemplate os_no_socket;
     exec_LookPath := exec_LookPath os_no_socket;
     socketName := socketName os_no_socket;
     cmd_Start := fun _ => Some (os_Error "permission denied");
     os_Stat := os_Stat os_no_socket;
     sleep_lag := sleep_lag os_no_socket;
     conn_Open := conn_Open os_no_socket |}.

(** A machine with the socket in place at once, whose connection is
    refused. *)
Definition os_refused : OS :=
  {| conf_Server_MPVPath := conf_Server_MPVPath os_no_socket;
     conf_Server_MPVCmdTemplate := conf_Server_MPVCmdTemplate os_no_socket;
     exec_LookPath := exec_LookPath os_no_socket;
     socketName := socketName os_no_socket;
     cmd_Start := cmd_Start os_no_socket;
     os_Stat := fun _ _ => (Some {| IsDir := false |}, None);
     sleep_lag := sleep_lag os_no_socket;
     conn_Open := fun _ => Some (os_Error "connection refused") |}.

(** A device as the constructor leaves it after a failed bootstrap. *)
Definition device_unconnected (q : playback.Queue) : playback.SpeakerPlaybackDevice :=
  {| playback.ParentPlaybackServer := catalog;
     playback.MpvConn := None;
     playback.Default := false;
     playback.Name := "jukebox";
     playback.DeviceName := "hw:1";
     playback.PlaybackQueue := q;
     playback.Gain := Float.f32_1 |}.

Definition system_unconnected (q : playback.Queue) : playback.System :=
  {| playback.device := device_unconnected q;
     playback.player := player_playing;
     playback.sent := [];
     playback.slept := [];
     playback.lookups := [];
     playback.logged := [] |}.

Definition not_started : playback.Switcher :=
  {| playback.startTrackSwitcher := false; playback.goroutines := 0 |}.

End samples.

(** * Properties *)

(** ** The command line *)

Example Split_keeps_empty_pieces :
  strings.Split "mpv --a  b" " " = ["mpv"; "--a"; ""; "b"].
Proof. reflexivity. Qed.

Example ReplaceAll_every_occurrence :
  strings.ReplaceAll "--dev=%d%d x%s%" "%d" "hw:0" = "--dev=hw:0hw:0 x%s%".
Proof. reflexivity. Qed.

Example Sprint_int_decimal :
  Sprint_int (-12) = "-12" /\ Sprint_int 0 = "0" /\ Sprint_int 7 = "7".
Proof. repeat split; reflexivity. Qed.

Example createMPVCommand_sample :
  exists p,
    mpv.createMPVCommand samples.os_no_socket "hw:1" "/tmp/s" (mpv.fresh_process 0)
    = Ret ["/usr/bin/mpv"; "--audio-device=hw:1"; "--no-audio-display";
           "--input-ipc-server=/tmp/s"; "--idle"] p.
Proof. eexists. vm_compute. reflexivity. Qed.

(** ** Binary resolution *)

Section Resolution.

Import mpv resolver.

(** Once the guard is set, [mpvCommand] answers from the cached variables and
    touches nothing. *)
Lemma mpvCommand_cached (os : OS) (p : Process) :
  mpvOnce p = true ->
  mpvCommand os p = Ret (mpvPath p, mpvErr p) p.
Proof.
  intros Hdone.
  unfold mpvCommand, mpvOnce_Do, bind, gets, ret.
  rewrite Hdone. reflexivity.
Qed.

Lemma mpvCommand_calls_cached (oss : list OS) (p : Process) :
  mpvOnce p = true ->
  mpvCommand_calls oss p = Ret (map (fun _ => (mpvPath p, mpvErr p)) oss) p.
Proof.
  intros Hdone. induction oss as [|os oss IH]; simpl.
  - reflexivity.
  - unfold bind. rewrite (mpvCommand_cached os p Hdone), IH. reflexivity.
Qed.

(** The first call performs the resolution of the specification and sets the
    guard. *)
Lemma mpvCommand_first (os : OS) (p : Process) :
  mpvOnce p = false ->
  exists p1,
    mpvCommand os p = Ret (resolve os) p1
    /\ mpvOnce p1 = true
    /\ (mpvPath p1, mpvErr p1) = resolve os
    /\ opened (events p1) = opened (events p)
    /\ lookups_of (events p1) = lookups_of (events p) ++ resolve_lookups os.
Proof.
  intros Hfresh. destruct p as [once path err t tr]. simpl in Hfresh. subst once.
  unfold mpvCommand, mpvOnce_Do, resolve, resolve_lookups, bind, gets, ret, modify,
    LookPath, log, opened. simpl.
  destruct (negb (conf_Server_MPVPath os =? "")%string) eqn:Hconf; simpl.
  - destruct (exec_LookPath os (conf_Server_MPVPath os)) as [q [e|]] eqn:Hl; simpl;
      eexists; repeat split; simpl;
      unfold lookups_of; rewrite ?omap_app; simpl; rewrite ?app_nil_r; reflexivity.
  - destruct (exec_LookPath os "mpv") as [q [e|]] eqn:Hl; simpl.
    + destruct (errors_Is_ErrDot e) eqn:Hdot; simpl.
      * destruct (exec_LookPath os "./mpv") as [q' [e'|]] eqn:Hl'; simpl;
          eexists; repeat split; simpl;
          unfold lookups_of; rewrite ?omap_app; simpl;
          rewrite ?app_nil_r, <- ?app_assoc; reflexivity.
      * eexists; repeat split; simpl;
          unfold lookups_of; rewrite ?omap_app; simpl; rewrite ?app_nil_r; reflexivity.
    + eexists; repeat split; simpl;
        unfold lookups_of; rewrite ?omap_app; simpl; rewrite ?app_nil_r; reflexivity.
Qed.

(** C9.  Player-binary resolution is computed at most once per process: on a
    fresh process the first call of [mpvCommand] performs the look-up of the
    specification (the configured path if set, else the bare name with a
    retry from the current directory on the ambiguous-relative-path error)
    and makes no other look-up; every later call, whatever the environment
    has become, returns that same (path, error) pair and changes nothing, so
    a failure stays for the life of the process. *)
Theorem mpvCommand_resolves_once (os : OS) (later : list OS) (p : Process) :
  mpvOnce p = false ->
  exists p1,
    mpvCommand os p = Ret (resolve os) p1
    /\ lookups_of (events p1) = lookups_of (events p) ++ resolve_lookups os
    /\ (length (resolve_lookups os) <= 2)%nat
    /\ mpvCommand_calls later p1 = Ret (map (fun _ => resolve os) later) p1.
Proof.
  intros Hfresh.
  destruct (mpvCommand_first os p Hfresh) as (p1 & Hcall & Hdone & Hres & _ & Hlook).
  exists p1. repeat split; try assumption.
  - unfold resolve_lookups.
    destruct (negb _); [simpl; lia|]. destruct (from_option _ _ _); simpl; lia.
  - rewrite (mpvCommand_calls_cached later p1 Hdone), Hres. reflexivity.
Qed.

(** A failed resolution is what every later call reports, even after the
    binary has been installed. *)
Lemma mpvCommand_resolves_once_witness :
  mpvOnce (fresh_process 0) = false /\
  exists p1,
    mpvCommand samples.os_no_mpv (fresh_process 0)
      = Ret ("", Some (exec_Error "/opt/mpv/bin/mpv" ErrNotFound)) p1
    /\ lookups_of (events p1) = ["/opt/mpv/bin/mpv"]
    /\ mpvCommand_calls [samples.os_no_socket; samples.os_dot] p1
       = Ret [("", Some (exec_Error "/opt/mpv/bin/mpv" ErrNotFound));
              ("", Some (exec_Error "/opt/mpv/bin/mpv" ErrNotFound))] p1.
Proof.
  split; [reflexivity|].
  destruct (mpvCommand_resolves_once samples.os_no_mpv
              [samples.os_no_socket; samples.os_dot] (fresh_process 0) eq_refl)
    as (p1 & H1 & H2 & _ & H3).
  exists p1. repeat split; assumption.
Defined.

Example mpvCommand_current_directory_retry :
  exists p1,
    mpvCommand samples.os_dot (fresh_process 0) = Ret ("./mpv", None) p1
    /\ lookups_of (events p1) = ["mpv"; "./mpv"].
Proof. eexists. split; vm_compute; reflexivity. Qed.

End Resolution.

(** ** Bootstrap: waiting for the control socket *)

Section Bootstrap.

Import mpv resolver.

Lemma mpvCommand_returns (os : OS) (p : Process) :
  exists p1,
    mpvCommand os p = Ret (mpvPath p1, mpvErr p1) p1
    /\ mpvOnce p1 = true
    /\ (binary_found os p -> mpvErr p1 = None)
    /\ opened (events p1) = opened (events p).
Proof.
  unfold binary_found. destruct (mpvOnce p) eqn:Hdone.
  - exists p. rewrite (mpvCommand_cached os p Hdone). auto.
  - destruct (mpvCommand_first os p Hdone) as (p1 & Hcall & Hd & Hres & Hop & _).
    exists p1. rewrite Hcall, Hres. repeat split; try assumption.
    intros Hok. rewrite <- Hres in Hok. exact Hok.
Qed.

Lemma createMPVCommand_cached (os : OS) (deviceName sock : string) (p : Process) :
  mpvOnce p = true ->
  exists l, createMPVCommand os deviceName sock p = Ret (l ++ ["--idle"]) p.
Proof.
  intros Hdone. unfold createMPVCommand, fixCmd, bind.
  rewrite (mpvCommand_cached os p Hdone). unfold ret. eexists. reflexivity.
Qed.

Lemma start_started (os : OS) (l : list string) (p : Process) :
  (forall a, cmd_Start os a = None) ->
  exists j p1,
    start os (l ++ ["--idle"]) p = Ret (j, None) p1
    /\ opened (events p1) = opened (events p).
Proof.
  intros Hstart. unfold start, Executor_start, bind, log, modify, ret. simpl.
  destruct (l ++ ["--idle"]) as [|name rest] eqn:Hl.
  - destruct l; discriminate.
  - simpl. rewrite Hstart. simpl. do 2 eexists. split; [reflexivity|].
    simpl. unfold opened. rewrite !omap_app. simpl. rewrite !app_nil_r. reflexivity.
Qed.

Lemma waitForSocket_loop_step (fuel : nat) (os : OS) (path : string)
    (timeout pause end_ retries : Z) (p : Process) :
  waitForSocket_loop (S fuel) os path timeout pause end_ retries p
  = if socket_found (os_Stat os path (clock p)) then
      Ret None (emit (EvLog LevelDebug "Socket found") (after_stat path p))
    else if end_ <? clock p then
      Ret (Some (Errorf_timeout_reached timeout)) (after_stat path p)
    else
      waitForSocket_loop fuel os path timeout pause end_ (retries + 1)
        (after_sleep os pause (after_stat path p)).
Proof.
  cbn [waitForSocket_loop]. unfold bind at 1 2. unfold time_Now at 1, gets, modify.
  destruct (socket_found (os_Stat os path (clock p))); [reflexivity|].
  unfold bind at 1. unfold time_Now, gets. cbn [clock emit after_stat].
  destruct (end_ <? clock p); reflexivity.
Qed.

(** A socket that never shows up makes the poll loop end with the timeout
    error as soon as the clock has passed the deadline; [fuel] polls after the
    first are enough when they cover the time left. *)
Lemma waitForSocket_loop_timeout (os : OS) (path : string) (timeout pause end_ : Z) :
  0 < pause ->
  (forall t, 0 <= sleep_lag os t) ->
  (forall t, socket_found (os_Stat os path t) = false) ->
  forall (fuel : nat) (retries : Z) (p : Process),
    end_ < clock p + Z.of_nat fuel * pause ->
    exists p1,
      waitForSocket_loop (S fuel) os path timeout pause end_ retries p
      = Ret (Some (Errorf_timeout_reached timeout)) p1
      /\ opened (events p1) = opened (events p).
Proof.
  intros Hpause Hlag Hnever. induction fuel as [|fuel IH]; intros retries p Hfuel;
    rewrite waitForSocket_loop_step, Hnever.
  - replace (end_ <? clock p) with true by (symmetry; apply Z.ltb_lt; lia).
    eexists. split; [reflexivity|].
    unfold opened. simpl. rewrite omap_app. simpl. apply app_nil_r.
  - destruct (end_ <? clock p) eqn:Hlate.
    + eexists. split; [reflexivity|].
      unfold opened. simpl. rewrite omap_app. simpl. apply app_nil_r.
    + destruct (IH (retries + 1) (after_sleep os pause (after_stat path p)))
        as (p1 & Hrun & Hop).
      * cbn [after_sleep after_stat set_clock emit clock].
        specialize (Hlag (clock p)). lia.
      * exists p1. split; [exact Hrun|]. rewrite Hop.
        unfold opened. simpl. rewrite !omap_app. simpl. rewrite !app_nil_r. reflexivity.
Qed.

Lemma waitForSocket_timeout (os : OS) (path : string) (fuel : nat) (p : Process) :
  (forall t, 0 <= sleep_lag os t) ->
  (forall t, socket_found (os_Stat os path t) = false) ->
  (32 <= fuel)%nat ->
  exists p1,
    waitForSocket fuel os path (3 * Second) (100 * Millisecond) p
    = Ret (Some (Errorf_timeout_reached (3 * Second))) p1
    /\ opened (events p1) = opened (events p).
Proof.
  intros Hlag Hnever Hfuel. unfold waitForSocket, bind, time_Now, gets.
  destruct fuel as [|fuel]; [lia|].
  apply waitForSocket_loop_timeout; try assumption.
  - unfold Millisecond. lia.
  - unfold Second, Millisecond. lia.
Qed.

Lemma OpenMpvAndConnection_timeout (os : OS) (fuel : nat) (deviceName : string)
    (p : Process) :
  binary_found os p ->
  (forall a, cmd_Start os a = None) ->
  (forall t, 0 <= sleep_lag os t) ->
  (forall path t, socket_found (os_Stat os path t) = false) ->
  (32 <= fuel)%nat ->
  exists p1,
    OpenMpvAndConnection fuel os deviceName p
    = Ret (None, Some (Errorf_timeout_reached (3 * Second))) p1
    /\ opened (events p1) = opened (events p).
Proof.
  intros Hbin Hstart Hlag Hnever Hfuel.
  destruct (mpvCommand_returns os p) as (p1 & Hcmd & Hdone & Hok & Hop1).
  specialize (Hok Hbin).
  destruct (createMPVCommand_cached os deviceName
              (socketName os "mpv-ctrl-" ".socket") p1 Hdone) as (l & Hargs).
  destruct (start_started os l p1 Hstart) as (j & p2 & Hrun & Hop2).
  destruct (waitForSocket_timeout os (socketName os "mpv-ctrl-" ".socket") fuel p2
              Hlag (Hnever _) Hfuel) as (p3 & Hwait & Hop3).
  unfold OpenMpvAndConnection, bind.
  rewrite Hcmd. cbn [fst snd]. rewrite Hok, Hargs, Hrun. cbn [fst snd].
  rewrite Hwait. unfold log, modify, ret.
  eexists. split; [reflexivity|].
  cbn [events emit]. unfold opened in *. rewrite omap_app. simpl.
  rewrite app_nil_r. congruence.
Qed.

(** C1 (as the code has it).  When the player binary is found and the player
    starts but its control socket never appears, [OpenMpvAndConnection]
    returns the timeout error of the 3-second wait and no connection, and no
    connection is opened; [NewSpeakerPlaybackDevice] drops that error and
    still returns a device, whose connection is nil, with gain 1 and an empty
    queue. *)
Theorem NewSpeakerPlaybackDevice_socket_timeout (os : OS) (fuel : nat)
    (server : playback.PlaybackServer) (name deviceName : string) (p : Process) :
  binary_found os p ->
  (forall a, cmd_Start os a = None) ->
  (forall t, 0 <= sleep_lag os t) ->
  (forall path t, socket_found (os_Stat os path t) = false) ->
  (32 <= fuel)%nat ->
  exists p1 pd,
    OpenMpvAndConnection fuel os deviceName p
    = Ret (None, Some (Errorf_timeout_reached (3 * Second))) p1
    /\ opened (events p1) = opened (events p)
    /\ playback.NewSpeakerPlaybackDevice fuel os server name deviceName p = Ret pd p1
    /\ playback.MpvConn pd = None
    /\ playback.PlaybackQueue pd = playback.NewQueue
    /\ playback.Gain pd = Float.f32_1.
Proof.
  intros Hbin Hstart Hlag Hnever Hfuel.
  destruct (OpenMpvAndConnection_timeout os fuel deviceName p
              Hbin Hstart Hlag Hnever Hfuel) as (p1 & Hopen & Hop).
  exists p1. eexists. split; [exact Hopen|]. split; [exact Hop|].
  unfold playback.NewSpeakerPlaybackDevice, bind. rewrite Hopen.
  repeat split.
Qed.

Lemma NewSpeakerPlaybackDevice_socket_timeout_witness :
  binary_found samples.os_no_socket (fresh_process 0) /\
  exists p1 pd,
    OpenMpvAndConnection 32 samples.os_no_socket "hw:1" (fresh_process 0)
    = Ret (None, Some (Errorf_timeout_reached 3000000000)) p1
    /\ playback.NewSpeakerPlaybackDevice 32 samples.os_no_socket
         samples.catalog "jukebox" "hw:1" (fresh_process 0) = Ret pd p1
    /\ playback.MpvConn pd = None.
Proof.
  split; [reflexivity|].
  destruct (NewSpeakerPlaybackDevice_socket_timeout samples.os_no_socket 32
              samples.catalog "jukebox" "hw:1" (fresh_process 0))
    as (p1 & pd & H1 & _ & H2 & H3 & _).
  - reflexivity.
  - reflexivity.
  - intros t. simpl. lia.
  - reflexivity.
  - lia.
  - exists p1, pd. repeat split; assumption.
Defined.

(** C1 (as stated) fails: on a machine whose player never creates the socket,
    the constructor does not fail; it returns a device. *)
Lemma NewSpeakerPlaybackDevice_does_not_fail :
  ~ construction.fails
      (playback.NewSpeakerPlaybackDevice 32 samples.os_no_socket
         samples.catalog "jukebox" "hw:1" (fresh_process 0)).
Proof. vm_compute. tauto. Qed.

(** With the socket present in time the chain ends with an open connection. *)
Example OpenMpvAndConnection_sample :
  exists p1,
    OpenMpvAndConnection 32 samples.os_socket_250ms "hw:1" (fresh_process 0)
    = Ret (Some {| socket := "/tmp/mpv-ctrl-4711.socket" |}, None) p1
    /\ opened (events p1) = ["/tmp/mpv-ctrl-4711.socket"].
Proof. eexists. repeat split; vm_compute; reflexivity. Qed.

End Bootstrap.

(** ** The queue model keeps the invariant of the specification *)

Section QueueInvariant.

Import playback.

Lemma NewQueue_wf : Queue_wf NewQueue.
Proof. right. split; reflexivity. Qed.

Lemma Queue_Clear_wf (q : Queue) : Queue_wf (Queue_Clear q).
Proof. right. split; reflexivity. Qed.

Lemma Queue_Add_wf (items : list MediaFile) (q : Queue) :
  Queue_wf q -> Queue_wf (Queue_Add items q).
Proof.
  unfold Queue_wf, Queue_Add, Queue_Size. cbn [Index Items].
  intros [Hin|[Hidx Hnil]].
  - left. replace (Index q =? -1) with false by (symmetry; apply Z.eqb_neq; lia).
    cbn [andb]. rewrite length_app. lia.
  - rewrite Hidx, Hnil. cbn [app]. destruct items as [|mf items].
    + right. split; reflexivity.
    + left. cbn. lia.
Qed.

Lemma Queue_SetIndex_wf (idx : Z) (q : Queue) : Queue_wf (Queue_SetIndex idx q).
Proof.
  unfold Queue_wf, Queue_SetIndex, Queue_Size. cbn [Index Items].
  destruct (Z.of_nat (length (Items q)) =? 0) eqn:Hz.
  - right. split; [reflexivity|]. apply Z.eqb_eq in Hz. apply nil_length_inv. lia.
  - left. apply Z.eqb_neq in Hz. lia.
Qed.

Lemma Queue_Remove_wf (idx : Z) (q : Queue) :
  Queue_wf q -> 0 <= idx < Queue_Size q -> Queue_wf (Queue_Remove idx q).
Proof.
  unfold Queue_wf, Queue_Remove, Queue_Size. cbn [Index Items].
  intros Hwf Hidx.
  assert (Hlen : length (delete (Z.to_nat idx) (Items q)) = pred (length (Items q))).
  { rewrite length_delete by (apply lookup_lt_is_Some_2; lia). lia. }
  rewrite Hlen. destruct Hwf as [Hin|[Hm1 Hnil]].
  - destruct (Z.of_nat (pred (length (Items q))) <=? Index q) eqn:Hle.
    + apply Z.leb_le in Hle. destruct (length (Items q)) as [|[|n]] eqn:Hl; [lia| |].
      * right. split; [reflexivity|]. apply nil_length_inv. rewrite Hlen. reflexivity.
      * left. lia.
    + apply Z.leb_gt in Hle. left. lia.
  - rewrite Hnil in Hidx. cbn in Hidx. lia.
Qed.

(** An index inside the queue becomes the cursor, and the track there is the
    current one. *)
Lemma Queue_SetIndex_in_range (idx : Z) (q : Queue) :
  0 <= idx < Queue_Size q ->
  Index (Queue_SetIndex idx q) = idx
  /\ Queue_Current (Queue_SetIndex idx q) = Items q !! Z.to_nat idx.
Proof.
  intros Hidx. unfold Queue_Current, Queue_SetIndex. cbn [Index Items].
  replace (Queue_Size q =? 0) with false by (symmetry; apply Z.eqb_neq; lia).
  replace (Z.max 0 (Z.min idx (Queue_Size q - 1))) with idx by lia.
  replace (idx <? 0) with false by (symmetry; apply Z.ltb_ge; lia).
  split; reflexivity.
Qed.

End QueueInvariant.

(** ** The player connection and the status queries *)

Import Float playback run.

Lemma bind_Ret {S A B} (m : M S A) (k : A -> M S B) (s s' : S) (a : A) :
  m s = Ret a s' -> bind m k s = k a s'.
Proof. intros H. unfold bind. rewrite H. reflexivity. Qed.

Lemma bind_gets {S A B} (f : S -> A) (k : A -> M S B) (s : S) :
  bind (gets f) k s = k (f s) s.
Proof. reflexivity. Qed.

Lemma bind_modify {S B} (f : S -> S) (k : unit -> M S B) (s : S) :
  bind (modify f) k s = k tt (f s).
Proof. reflexivity. Qed.

Lemma bind_ret {S A B} (a : A) (k : A -> M S B) (s : S) :
  bind (ret a) k s = k a s.
Proof. reflexivity. Qed.

Lemma bind_bind {S A B C} (m : M S A) (f : A -> M S B) (g : B -> M S C) (s : S) :
  bind (bind m f) g s = bind m (fun a => bind (f a) g) s.
Proof. unfold bind. destruct (m s); reflexivity. Qed.

(** Running the state primitives at the head of a computation. *)
Ltac run_head :=
  repeat first [ rewrite bind_bind | rewrite bind_modify | rewrite bind_gets
               | rewrite bind_ret ].

Lemma request_connected (r : Request) (s : System) :
  connected s ->
  request r s = Ret (player s (sent s) r) (add_sent r s).
Proof. intros [conn Hc]. unfold request, bind, gets, modify, ret. rewrite Hc. reflexivity. Qed.

Lemma request_nil_connection (r : Request) (s : System) :
  MpvConn (device s) = None ->
  request r s = Panic "invalid memory address or nil pointer dereference" s.
Proof. intros Hc. unfold request, bind, gets. rewrite Hc. reflexivity. Qed.

Lemma writes_app (l1 l2 : list Request) : writes (l1 ++ l2) = writes l1 ++ writes l2.
Proof. apply omap_app. Qed.

Lemma reads_only_refl (s : System) : reads_only s s.
Proof. repeat split; reflexivity. Qed.

Lemma reads_only_trans (s1 s2 s3 : System) :
  reads_only s1 s2 -> reads_only s2 s3 -> reads_only s1 s3.
Proof.
  unfold reads_only. intros (?&?&?&?&?) (?&?&?&?&?).
  repeat split; try congruence. etrans; eassumption.
Qed.

Lemma reads_only_connected (s s' : System) :
  reads_only s s' -> connected s -> connected s'.
Proof. intros (Hd&_) [c Hc]. exists c. rewrite Hd. exact Hc. Qed.

Lemma reads_only_logged (e : Level * string) (s : System) : reads_only s (add_logged e s).
Proof. repeat split; try reflexivity. apply prefix_app_r. reflexivity. Qed.

Lemma reads_only_slept (d : Z) (s : System) : reads_only s (add_slept d s).
Proof. repeat split; reflexivity. Qed.

Lemma reads_only_get (property : string) (s : System) :
  reads_only s (add_sent (IpcGet property) s).
Proof.
  repeat split; try reflexivity. simpl. rewrite writes_app. simpl. apply app_nil_r.
Qed.

(** One iteration of the loop of [Position] on a connected device. *)
Lemma Position_loop_step (fuel : nat) (rc : Z) (s : System) :
  connected s ->
  Position_loop (S fuel) rc s
  = let reply := player s (sent s) get_time_pos in
    let s1 := add_sent get_time_pos s in
    if unavailable reply then
      let s2 := add_logged (LevelDebug, "Got mpv error, retrying...") s1 in
      if 5 <? rc + 1 then Ret 0 s2
      else Position_loop fuel (rc + 1) (add_slept ((rc + 1) * Millisecond) s2)
    else
      match reply with
      | (_, Some _) =>
          Ret 0 (add_logged (LevelError, "Error getting position in track") s1)
      | (Float64 pos, None) => Ret (int_of_float64 pos) s1
      | (_, None) =>
          Ret 0 (add_logged
                   (LevelError, "Could not cast position from mpv into float64") s1)
      end.
Proof.
  intros Hc. cbn [Position_loop]. unfold MpvConn_Get.
  rewrite (bind_Ret _ _ _ _ _ (request_connected _ s Hc)).
  fold get_time_pos. cbv zeta. unfold unavailable.
  destruct (player s (sent s) get_time_pos) as [v [e|]]; cbn [fst snd].
  - destruct (is_property_unavailable (Some e)).
    + unfold log, time_Sleep, bind, modify, ret.
      destruct (5 <? rc + 1); reflexivity.
    + destruct v; reflexivity.
  - cbn [is_property_unavailable]. destruct v; reflexivity.
Qed.

(** The loop ends within [6 - retryCount] iterations, and only reads. *)
Lemma Position_loop_total (fuel : nat) :
  forall (rc : Z) (s : System),
    connected s -> 0 <= rc <= 5 -> 6 - rc <= Z.of_nat fuel ->
    exists pos s', Position_loop fuel rc s = Ret pos s' /\ reads_only s s'.
Proof.
  induction fuel as [|fuel IH]; intros rc s Hc Hrc Hfuel; [lia|].
  rewrite (Position_loop_step _ _ _ Hc). cbv zeta.
  pose proof (reads_only_get "time-pos" s) as Hget. fold get_time_pos in Hget.
  destruct (unavailable _).
  - destruct (5 <? rc + 1) eqn:Hbound.
    + do 2 eexists. split; [reflexivity|].
      eapply reads_only_trans; [exact Hget|apply reads_only_logged].
    + apply Z.ltb_ge in Hbound.
      match goal with |- context [Position_loop fuel _ ?q] => set (s2 := q) end.
      assert (Hs2 : reads_only s s2).
      { eapply reads_only_trans; [exact Hget|].
        eapply reads_only_trans; [apply reads_only_logged|apply reads_only_slept]. }
      destruct (IH (rc + 1) s2) as (pos & s' & Hrun & Hro);
        [eapply reads_only_connected; eassumption|lia|lia|].
      exists pos, s'. split; [exact Hrun|]. eapply reads_only_trans; eassumption.
  - destruct (player s (sent s) get_time_pos) as [v [e|]];
      destruct v; do 2 eexists; (split; [reflexivity|]);
        try exact Hget;
        (eapply reads_only_trans; [exact Hget|apply reads_only_logged]).
Qed.

(** More fuel than that changes nothing. *)
Lemma Position_loop_fuel (fuel : nat) :
  forall (fuel' : nat) (rc : Z) (s : System),
    connected s -> 0 <= rc <= 5 -> 6 - rc <= Z.of_nat fuel -> 6 - rc <= Z.of_nat fuel' ->
    Position_loop fuel rc s = Position_loop fuel' rc s.
Proof.
  induction fuel as [|fuel IH]; intros fuel' rc s Hc Hrc Hfuel Hfuel'; [lia|].
  destruct fuel' as [|fuel']; [lia|].
  rewrite !(Position_loop_step _ _ _ Hc). cbv zeta.
  destruct (unavailable _); [|reflexivity].
  destruct (5 <? rc + 1) eqn:Hbound; [reflexivity|].
  apply Z.ltb_ge in Hbound.
  apply IH; try lia.
  destruct Hc as [c Hc]. exists c. exact Hc.
Qed.

Lemma Position_total (s : System) :
  connected s -> exists pos s', Position s = Ret pos s' /\ reads_only s s'.
Proof. intros Hc. apply Position_loop_total; [exact Hc|lia|simpl; lia]. Qed.

Lemma isPlaying_total (s : System) :
  connected s -> exists b s', isPlaying s = Ret b s' /\ reads_only s s'.
Proof.
  intros Hc. unfold isPlaying, MpvConn_Get.
  rewrite (bind_Ret _ _ _ _ _ (request_connected _ s Hc)).
  pose proof (reads_only_get "pause" s) as Hget.
  destruct (player s (sent s) (IpcGet "pause")) as [v [e|]]; cbn [fst snd].
  - do 2 eexists. split; [reflexivity|].
    eapply reads_only_trans; [exact Hget|apply reads_only_logged].
  - destruct v; do 2 eexists; (split; [reflexivity|]);
      try exact Hget;
      (eapply reads_only_trans; [exact Hget|apply reads_only_logged]).
Qed.

(** [getStatus] always answers on a connected device; it reports the cursor
    and the gain of the device and only reads from the player. *)
Lemma getStatus_total (s : System) :
  connected s ->
  exists st s',
    getStatus s = Ret st s' /\ reads_only s s'
    /\ DeviceStatus.CurrentIndex st = Index (PlaybackQueue (device s))
    /\ DeviceStatus.Gain st = Gain (device s).
Proof.
  intros Hc. unfold getStatus, queue.
  destruct (isPlaying_total s Hc) as (b & s1 & Hplay & Hro1).
  destruct (Position_total s1 (reads_only_connected _ _ Hro1 Hc)) as (pos & s2 & Hpos & Hro2).
  unfold bind at 1. unfold gets at 1.
  rewrite (bind_Ret _ _ _ _ _ Hplay).
  unfold bind at 1. unfold gets at 1.
  rewrite (bind_Ret _ _ _ _ _ Hpos). unfold ret.
  do 2 eexists. split; [reflexivity|].
  split; [eapply reads_only_trans; eassumption|].
  split; [reflexivity|]. cbn. destruct Hro1 as (Hd&_). rewrite Hd. reflexivity.
Qed.


(** ** The position query *)


Lemma backoff_S (rc : Z) (k : nat) :
  backoff rc (S k) = (rc + 1) * Millisecond :: backoff (rc + 1) k.
Proof.
  unfold backoff. cbn [seq map]. f_equal.
  rewrite <- seq_shift, map_map. apply map_ext. intros i. f_equal. lia.
Qed.

Lemma time_pos_reply_next (s s2 : System) (j : nat) :
  player s2 = player s -> sent s2 = sent s ++ [get_time_pos] ->
  time_pos_reply s2 j = time_pos_reply s (S j).
Proof.
  intros Hp Hs. unfold time_pos_reply. rewrite Hp, Hs, <- app_assoc. reflexivity.
Qed.

(** The query number [k] is the first that is answered with something else
    than the transient error: [k] retries were made, each after its backoff,
    and the answer decides the result. *)
Lemma Position_loop_answered (k : nat) :
  forall (rc : Z) (s : System) (fuel : nat),
    connected s -> 0 <= rc -> rc + Z.of_nat k <= 5 -> (k < fuel)%nat ->
    (forall j, (j < k)%nat -> unavailable (time_pos_reply s j) = true) ->
    unavailable (time_pos_reply s k) = false ->
    exists s',
      Position_loop fuel rc s = Ret (position_of_reply (time_pos_reply s k)) s'
      /\ sent s' = sent s ++ replicate (S k) get_time_pos
      /\ slept s' = slept s ++ backoff rc k.
Proof.
  induction k as [|k IH]; intros rc s fuel Hc Hrc Hk Hfuel Hbefore Hthen;
    (destruct fuel as [|fuel]; [lia|]);
    rewrite (Position_loop_step _ _ _ Hc); cbv zeta.
  - unfold time_pos_reply in *. cbn [replicate] in *. rewrite app_nil_r in *.
    rewrite Hthen.
    destruct (player s (sent s) get_time_pos) as [v [e|]];
      destruct v; eexists; (split; [reflexivity|]);
      cbn; rewrite app_nil_r; split; reflexivity.
  - pose proof (Hbefore O ltac:(lia)) as H0.
    unfold time_pos_reply in H0. cbn [replicate] in H0. rewrite app_nil_r in H0.
    rewrite H0.
    replace (5 <? rc + 1) with false by (symmetry; apply Z.ltb_ge; lia).
    match goal with |- context [Position_loop fuel _ ?q] => set (s2 := q) end.
    assert (Hp : player s2 = player s) by reflexivity.
    assert (Hs : sent s2 = sent s ++ [get_time_pos]) by reflexivity.
    destruct (IH (rc + 1) s2 fuel) as (s' & Hrun & Hsent & Hslept).
    + destruct Hc as [c Hc]. exists c. exact Hc.
    + lia.
    + lia.
    + lia.
    + intros j Hj. rewrite (time_pos_reply_next s s2 j Hp Hs). apply Hbefore. lia.
    + rewrite (time_pos_reply_next s s2 k Hp Hs). exact Hthen.
    + exists s'. rewrite Hrun, (time_pos_reply_next s s2 k Hp Hs).
      split; [reflexivity|]. rewrite Hsent, Hslept, Hs, backoff_S.
      subst s2. cbn [slept add_slept add_logged add_sent].
      rewrite <- !app_assoc. split; reflexivity.
Qed.

(** Every query up to the bound is answered with the transient error: the
    failure that makes the count exceed five ends the loop with 0. *)
Lemma Position_loop_exhausted (k : nat) :
  forall (rc : Z) (s : System) (fuel : nat),
    connected s -> 0 <= rc -> rc + Z.of_nat k = 5 -> (k < fuel)%nat ->
    (forall j, (j <= k)%nat -> unavailable (time_pos_reply s j) = true) ->
    exists s',
      Position_loop fuel rc s = Ret 0 s'
      /\ sent s' = sent s ++ replicate (S k) get_time_pos
      /\ slept s' = slept s ++ backoff rc k.
Proof.
  induction k as [|k IH]; intros rc s fuel Hc Hrc Hk Hfuel Hall;
    (destruct fuel as [|fuel]; [lia|]);
    rewrite (Position_loop_step _ _ _ Hc); cbv zeta;
    pose proof (Hall O ltac:(lia)) as H0;
    unfold time_pos_reply in H0; cbn [replicate] in H0; rewrite app_nil_r in H0;
    rewrite H0.
  - replace (5 <? rc + 1) with true by (symmetry; apply Z.ltb_lt; lia).
    eexists. split; [reflexivity|]. cbn. rewrite app_nil_r. split; reflexivity.
  - replace (5 <? rc + 1) with false by (symmetry; apply Z.ltb_ge; lia).
    match goal with |- context [Position_loop fuel _ ?q] => set (s2 := q) end.
    assert (Hp : player s2 = player s) by reflexivity.
    assert (Hs : sent s2 = sent s ++ [get_time_pos]) by reflexivity.
    destruct (IH (rc + 1) s2 fuel) as (s' & Hrun & Hsent & Hslept).
    + destruct Hc as [c Hc]. exists c. exact Hc.
    + lia.
    + lia.
    + lia.
    + intros j Hj. rewrite (time_pos_reply_next s s2 j Hp Hs). apply Hall. lia.
    + exists s'. rewrite Hrun.
      split; [reflexivity|]. rewrite Hsent, Hslept, Hs, backoff_S.
      subst s2. cbn [slept add_slept add_logged add_sent].
      rewrite <- !app_assoc. split; reflexivity.
Qed.

(** C8.  The position query retries on the transient "property unavailable"
    error at most five times, retry number [i] coming [i] milliseconds after
    the failure before it.  If the query number [k] (from 0, [k <= 5]) is the
    first with another answer, [k] retries were made and that answer decides:
    any other error gives 0, a float gives its conversion to [int] (its
    integer part when that fits in an [int]).  If all six
    queries fail with the transient error, the bound is exceeded and the
    result is 0 after the sleeps of 1, 2, 3, 4 and 5 ms.  [Position] has no
    error result, and is this loop. *)
Theorem Position_retry_policy (s : System) (fuel : nat) :
  connected s -> (6 <= fuel)%nat ->
  (forall k, (k <= 5)%nat ->
     (forall j, (j < k)%nat -> unavailable (time_pos_reply s j) = true) ->
     unavailable (time_pos_reply s k) = false ->
     exists s',
       Position_loop fuel 0 s = Ret (position_of_reply (time_pos_reply s k)) s'
       /\ sent s' = sent s ++ replicate (S k) get_time_pos
       /\ slept s' = slept s ++ backoff 0 k)
  /\ ((forall j, (j <= 5)%nat -> unavailable (time_pos_reply s j) = true) ->
      exists s',
        Position_loop fuel 0 s = Ret 0 s'
        /\ sent s' = sent s ++ replicate 6 get_time_pos
        /\ slept s' = slept s ++ [1 * Millisecond; 2 * Millisecond; 3 * Millisecond;
                                  4 * Millisecond; 5 * Millisecond])
  /\ (forall v e, position_of_reply (v, Some e) = 0)
  /\ Position s = Position_loop fuel 0 s.
Proof.
  intros Hc Hfuel. repeat split.
  - intros k Hk Hbefore Hthen.
    apply Position_loop_answered; try assumption; lia.
  - intros Hall.
    destruct (Position_loop_exhausted 5 0 s fuel) as (s' & Hrun & Hsent & Hslept);
      try assumption; try lia.
    exists s'. repeat split; assumption.
  - intros v e. destruct v; reflexivity.
  - unfold Position. apply Position_loop_fuel; try assumption; simpl; lia.
Qed.

Lemma Position_retry_policy_witness :
  connected (samples.system_with samples.player_starting (samples.queue_ABC 0)) /\
  exists s',
    Position (samples.system_with samples.player_starting (samples.queue_ABC 0))
    = Ret 0 s'
    /\ sent s' = replicate 6 get_time_pos
    /\ slept s' = [1000000; 2000000; 3000000; 4000000; 5000000].
Proof.
  assert (Hc : connected (samples.system_with samples.player_starting (samples.queue_ABC 0)))
    by (eexists; reflexivity).
  split; [exact Hc|].
  destruct (Position_retry_policy _ 6 Hc ltac:(lia)) as (_ & Hall & _ & Heq).
  destruct Hall as (s' & Hrun & Hsent & Hslept); [intros j _; reflexivity|].
  exists s'. rewrite Heq. repeat split; assumption.
Defined.

(** Two failures, then an answer: two retries, after 1ms and 2ms. *)
Example Position_recovers :
  exists s',
    Position (samples.system_with samples.player_recovering (samples.queue_ABC 0))
    = Ret 7 s'
    /\ sent s' = replicate 3 get_time_pos
    /\ slept s' = [1 * Millisecond; 2 * Millisecond].
Proof. eexists. repeat split; vm_compute; reflexivity. Qed.

(** A position that does not fit in an [int] comes out as the smallest
    [int]; one that fits is cut to its integer part. *)
Example Position_conversion :
  (exists s',
     Position (samples.system_with samples.player_far (samples.queue_ABC 0))
     = Ret (-9223372036854775808) s')
  /\ exists s',
       Position (samples.system_with samples.player_playing (samples.queue_ABC 0))
       = Ret 42 s'.
Proof. split; eexists; vm_compute; reflexivity. Qed.

(** Less fuel than six cannot always end the loop, six can. *)
Example Position_loop_needs_six :
  Position_loop 5 0 (samples.system_with samples.player_starting (samples.queue_ABC 0))
  = OutOfFuel.
Proof. vm_compute. reflexivity. Qed.


(** ** Skip *)


Lemma connected_same_device (s s' : System) :
  MpvConn (device s') = MpvConn (device s) -> connected s -> connected s'.
Proof. intros H [c Hc]. exists c. congruence. Qed.

(** Running a request at the head of a computation, on a state whose device
    has the connection of a state known to be connected. *)
Ltac run_request Hc :=
  match goal with
  | |- context [bind (request ?r) ?k ?st] =>
      let H := fresh "Hconn" in
      assert (H : connected st)
        by (refine (connected_same_device _ st _ Hc); reflexivity);
      rewrite (bind_Ret _ _ _ _ _ (request_connected r st H)); clear H
  end.

Lemma Skip_unfold (index offset : Z) (s : System) :
  connected s ->
  Skip index offset s
  = bind getStatus (fun st => ret (st, None)) (after_skip index offset s).
Proof.
  intros Hc. unfold Skip, after_skip, log, queue. cbv zeta.
  run_head. cbn [device add_logged].
  destruct (negb (index =? Index (PlaybackQueue (device s)))).
  - unfold switchActiveTrackByIndex, update_queue, queue.
    run_head.
    cbn [device set_device PlaybackQueue set_PlaybackQueue add_logged].
    fold (set_queue (Queue_SetIndex index (PlaybackQueue (device s)))
            (add_logged (LevelDebug, "Processing Skip action") s)).
    destruct (Queue_Current _) as [mf|].
    + run_head. unfold MpvConn_Call. run_request Hc. reflexivity.
    + reflexivity.
  - run_head. unfold MpvConn_Call. run_request Hc. reflexivity.
Qed.

Lemma after_skip_connected (index offset : Z) (s : System) :
  connected s -> connected (after_skip index offset s).
Proof.
  apply connected_same_device. unfold after_skip. cbv zeta.
  destruct (negb _); [destruct (Queue_Current _)|]; reflexivity.
Qed.

Lemma Skip_total (index offset : Z) (s : System) :
  connected s ->
  exists st s',
    Skip index offset s = Ret (st, None) s'
    /\ reads_only (after_skip index offset s) s'
    /\ DeviceStatus.CurrentIndex st
       = Index (PlaybackQueue (device (after_skip index offset s))).
Proof.
  intros Hc. rewrite (Skip_unfold _ _ _ Hc).
  destruct (getStatus_total _ (after_skip_connected index offset s Hc))
    as (st & s' & Hst & Hro & Hidx & _).
  exists st, s'. rewrite (bind_Ret _ _ _ _ _ Hst). repeat split; try apply Hro.
  exact Hidx.
Qed.

(** C5.  [Skip] to the index the cursor is on issues the seek by [offset]
    and nothing else but property reads: no file is loaded, and the queue
    (order, length, cursor) is as before. *)
Theorem Skip_current_index_seeks (offset : Z) (s : System) :
  connected s ->
  exists st s',
    Skip (Index (PlaybackQueue (device s))) offset s = Ret (st, None) s'
    /\ writes (sent s') = writes (sent s) ++ [seek offset]
    /\ PlaybackQueue (device s') = PlaybackQueue (device s)
    /\ DeviceStatus.CurrentIndex st = Index (PlaybackQueue (device s)).
Proof.
  intros Hc.
  destruct (Skip_total (Index (PlaybackQueue (device s))) offset s Hc)
    as (st & s' & Hrun & (Hdev & _ & _ & Hw & _) & Hidx).
  exists st, s'. split; [exact Hrun|].
  unfold after_skip in *. cbv zeta in *. rewrite Z.eqb_refl in *. cbn [negb] in *.
  rewrite Hw, Hdev, Hidx. cbn [sent device add_sent add_logged].
  rewrite writes_app. repeat split.
Qed.

Lemma Skip_current_index_seeks_witness :
  connected (samples.system_with samples.player_playing (samples.queue_ABC 2)) /\
  exists st s',
    Skip 2 5 (samples.system_with samples.player_playing (samples.queue_ABC 2))
    = Ret (st, None) s'
    /\ writes (sent s') = [seek 5]
    /\ PlaybackQueue (device s') = samples.queue_ABC 2.
Proof.
  assert (Hc : connected (samples.system_with samples.player_playing (samples.queue_ABC 2)))
    by (eexists; reflexivity).
  split; [exact Hc|].
  destruct (Skip_current_index_seeks 5 _ Hc) as (st & s' & H1 & H2 & H3 & _).
  exists st, s'. repeat split; assumption.
Defined.

(** C4 (as the code has it).  [Skip] to an index inside the queue that is not
    the cursor moves the cursor there and issues the file load of that
    track, replacing the current playback, with the fixed start option; the
    [offset] argument plays no part. *)
Theorem Skip_other_index_loads (index offset : Z) (s : System) :
  connected s ->
  0 <= index < Queue_Size (PlaybackQueue (device s)) ->
  index <> Index (PlaybackQueue (device s)) ->
  exists track st s',
    Items (PlaybackQueue (device s)) !! Z.to_nat index = Some track
    /\ Skip index offset s = Ret (st, None) s'
    /\ Index (PlaybackQueue (device s')) = index
    /\ Items (PlaybackQueue (device s')) = Items (PlaybackQueue (device s))
    /\ writes (sent s') = writes (sent s) ++ [loadfile (Path track)]
    /\ DeviceStatus.CurrentIndex st = index
    /\ forall offset', Skip index offset' s = Skip index offset s.
Proof.
  intros Hc Hrange Hneq.
  destruct (Skip_total index offset s Hc) as (st & s' & Hrun & (Hdev & _ & _ & Hw & _) & Hidx).
  unfold Queue_Size in Hrange.
  destruct (lookup_lt_is_Some_2 (Items (PlaybackQueue (device s))) (Z.to_nat index))
    as [track Htrack]; [lia|].
  assert (Hset : Index (Queue_SetIndex index (PlaybackQueue (device s))) = index).
  { unfold Queue_SetIndex, Queue_Size. cbn [Index].
    destruct (Z.of_nat _ =? 0) eqn:Hz; [apply Z.eqb_eq in Hz; lia|lia]. }
  assert (Hcur : Queue_Current (Queue_SetIndex index (PlaybackQueue (device s)))
                 = Some track).
  { unfold Queue_Current. rewrite Hset.
    replace (index <? 0) with false by (symmetry; apply Z.ltb_ge; lia).
    exact Htrack. }
  assert (Hcond : negb (index =? Index (PlaybackQueue (device s))) = true).
  { apply negb_true_iff, Z.eqb_neq. exact Hneq. }
  exists track, st, s'. split; [exact Htrack|]. split; [exact Hrun|].
  unfold after_skip in *. cbv zeta in *. rewrite Hcond, Hcur in *.
  rewrite Hw, Hdev, Hidx.
  cbn [sent device add_sent add_logged set_queue set_device PlaybackQueue
       set_PlaybackQueue].
  rewrite writes_app, Hset. repeat split.
  intros offset'. rewrite !(Skip_unfold _ _ _ Hc). unfold after_skip. cbv zeta.
  rewrite Hcond. reflexivity.
Qed.

Lemma Skip_other_index_loads_witness :
  connected (samples.system_with samples.player_playing (samples.queue_ABC 0)) /\
  exists st s',
    Skip 2 0 (samples.system_with samples.player_playing (samples.queue_ABC 0))
    = Ret (st, None) s'
    /\ Index (PlaybackQueue (device s')) = 2
    /\ writes (sent s') = [loadfile "/music/c.flac"].
Proof.
  assert (Hc : connected (samples.system_with samples.player_playing (samples.queue_ABC 0)))
    by (eexists; reflexivity).
  split; [exact Hc|].
  destruct (Skip_other_index_loads 2 0 _ Hc) as (track & st & s' & H0 & H1 & H2 & _ & H3 & _).
  - unfold Queue_Size. simpl. lia.
  - simpl. lia.
  - exists st, s'. injection H0 as <-. repeat split; assumption.
Defined.

(** C4 (as stated) fails: on the empty queue of a new device the cursor is
    [-1]; [Skip] to index 0, which differs from it, loads no file. *)
Lemma Skip_empty_queue_loads_nothing :
  0 <> Index (PlaybackQueue (device (samples.system_with samples.player_playing NewQueue)))
  /\ ~ (exists st err s' path,
          Skip 0 0 (samples.system_with samples.player_playing NewQueue)
          = Ret (st, err) s'
          /\ In (loadfile path) (sent s')).
Proof.
  split; [discriminate|].
  intros (st & err & s' & path & Hrun & Hin).
  vm_compute in Hrun. injection Hrun as _ _ <-.
  cbn in Hin. intuition discriminate.
Qed.

(** C10.  [Skip] returns a nil error for every index and offset.  This
    includes an index for which the queue has no track: the switch then ends
    with "could not get current track" before any command is sent, and [Skip]
    drops that error. *)
Theorem Skip_returns_nil (index offset : Z) (s : System) :
  connected s ->
  (exists st s', Skip index offset s = Ret (st, None) s')
  /\ (Queue_Current (Queue_SetIndex index (PlaybackQueue (device s))) = None ->
      exists s1,
        switchActiveTrackByIndex index offset s
        = Ret (Some (errors_New "could not get current track")) s1
        /\ sent s1 = sent s).
Proof.
  intros Hc. split.
  - destruct (Skip_total index offset s Hc) as (st & s' & Hrun & _).
    exists st, s'. exact Hrun.
  - intros Hnone. unfold switchActiveTrackByIndex, update_queue, queue.
    rewrite bind_modify, bind_gets.
    cbn [device set_device PlaybackQueue set_PlaybackQueue].
    rewrite Hnone. eexists. split; reflexivity.
Qed.

Lemma Skip_returns_nil_witness :
  connected (samples.system_with samples.player_playing NewQueue) /\
  (exists st s',
     Skip 3 0 (samples.system_with samples.player_playing NewQueue) = Ret (st, None) s')
  /\ exists s1,
       switchActiveTrackByIndex 3 0 (samples.system_with samples.player_playing NewQueue)
       = Ret (Some (errors_New "could not get current track")) s1.
Proof.
  assert (Hc : connected (samples.system_with samples.player_playing NewQueue))
    by (eexists; reflexivity).
  split; [exact Hc|].
  destruct (Skip_returns_nil 3 0 _ Hc) as (H1 & H2).
  split; [exact H1|].
  destruct (H2 eq_refl) as (s1 & Hs1 & _). exists s1. exact Hs1.
Defined.

(** The end-to-end run of the specification: queue [A,B,C] at index 0,
    [Skip(2,0)] loads C without a seek, then [Skip(2,5)] seeks without a
    load. *)
Example Skip_end_to_end :
  exists st1 s1 st2 s2,
    Skip 2 0 (samples.system_with samples.player_playing (samples.queue_ABC 0))
    = Ret (st1, None) s1
    /\ DeviceStatus.CurrentIndex st1 = 2
    /\ writes (sent s1) = [loadfile "/music/c.flac"]
    /\ Skip 2 5 s1 = Ret (st2, None) s2
    /\ DeviceStatus.CurrentIndex st2 = 2
    /\ writes (sent s2) = [loadfile "/music/c.flac"; seek 5].
Proof. do 4 eexists. repeat split; vm_compute; reflexivity. Qed.


(** ** Stop and Clear *)

(** Every method ends by asking for the status and returning it with a nil
    error. *)
Lemma status_and_nil (s1 : System) :
  connected s1 ->
  exists st s',
    bind getStatus (fun st => ret (st, @None error)) s1 = Ret (st, None) s'
    /\ reads_only s1 s'
    /\ DeviceStatus.CurrentIndex st = Index (PlaybackQueue (device s1))
    /\ DeviceStatus.Gain st = Gain (device s1).
Proof.
  intros Hc. destruct (getStatus_total s1 Hc) as (st & s' & Hst & Hro & Hidx & Hgain).
  exists st, s'. rewrite (bind_Ret _ _ _ _ _ Hst). repeat split; try apply Hro; assumption.
Qed.

(** The goal is about a computation that has come down to the final status
    query on a state with the connection of [Hc]. *)
Ltac end_with_status Hc st s' Hrun Hro Hidx Hgain :=
  match goal with
  | |- context [bind getStatus _ ?s1] =>
      let H := fresh "Hconn" in
      assert (H : connected s1)
        by (refine (connected_same_device _ s1 _ Hc); reflexivity);
      destruct (status_and_nil s1 H) as (st & s' & Hrun & Hro & Hidx & Hgain);
      clear H
  end.

Lemma Stop_total (s : System) :
  connected s ->
  exists st s',
    Stop s = Ret (st, None) s'
    /\ device s' = device s
    /\ lookups s' = lookups s
    /\ writes (sent s') = writes (sent s) ++ [IpcSet "pause" (Bool true)]
    /\ logged s `prefix_of` logged s'.
Proof.
  intros Hc. unfold Stop, log, MpvConn_Set. run_head. run_request Hc.
  match goal with |- context [player ?a ?b ?c] => destruct (player a b c) as [v err] end.
  cbn [snd].
  destruct err; run_head;
    end_with_status Hc st s' Hrun Hro Hidx Hgain;
    exists st, s'; (split; [exact Hrun|]);
    destruct Hro as (Hd & _ & Hl & Hw & Hlog);
    rewrite Hd, Hl, Hw; cbn [device lookups sent add_sent add_logged];
    rewrite writes_app; (repeat split);
    (etrans; [|exact Hlog]); cbn [logged add_sent add_logged].
  - apply prefix_app_r, prefix_app_r. reflexivity.
  - apply prefix_app_r. reflexivity.
Qed.

Lemma Clear_total (s : System) :
  connected s ->
  exists st s',
    Clear s = Ret (st, None) s'
    /\ device s' = set_PlaybackQueue (Queue_Clear (PlaybackQueue (device s))) (device s)
    /\ lookups s' = lookups s
    /\ writes (sent s') = writes (sent s) ++ [IpcSet "pause" (Bool true)]
    /\ DeviceStatus.CurrentIndex st = -1.
Proof.
  intros Hc. unfold Clear, log, update_queue. run_head.
  match goal with
  | |- context [bind Stop _ ?s0] =>
      destruct (Stop_total s0) as (st0 & s1 & Hstop & Hd1 & Hl1 & Hw1 & _);
        [refine (connected_same_device _ s0 _ Hc); reflexivity|]
  end.
  rewrite (bind_Ret _ _ _ _ _ Hstop). run_head.
  assert (Hc1 : connected s1)
    by (refine (connected_same_device _ s1 _ Hc); rewrite Hd1; reflexivity).
  end_with_status Hc1 st s' Hrun Hro Hidx Hgain.
  exists st, s'. split; [exact Hrun|].
  destruct Hro as (Hd & _ & Hl & Hw & _).
  rewrite Hd, Hl, Hw, Hidx. cbn [device lookups sent set_device].
  rewrite Hd1, Hl1, Hw1. repeat split.
Qed.

(** ** Add and Set *)

Lemma Add_loop_resolved (ids : list string) (tracks : list MediaFile) :
  forall (items : list MediaFile) (s : System),
    resolves (ParentPlaybackServer (device s)) ids tracks ->
    exists s',
      Add_loop ids items s = Ret (inl (items ++ tracks)) s'
      /\ device s' = device s /\ player s' = player s /\ sent s' = sent s
      /\ lookups s' = lookups s ++ ids.
Proof.
  revert tracks. induction ids as [|id ids IH]; intros tracks items s Hres;
    inversion Hres as [|? mf ? tracks' Hid Hrest]; subst.
  - exists s. cbn. rewrite !app_nil_r. repeat split.
  - cbn [Add_loop]. run_head. rewrite Hid. unfold log. run_head.
    match goal with
    | |- context [Add_loop ids ?it ?q] => destruct (IH tracks' it q) as (s' & Hrun & Hd & Hp & Hs & Hl)
    end; [exact Hrest|].
    exists s'. rewrite Hrun, Hd, Hp, Hs, Hl. cbn [device player sent lookups add_logged add_lookup].
    rewrite <- !app_assoc. repeat split.
Qed.

Lemma Add_loop_failed (ok : list string) (tracks : list MediaFile) (bad : string)
    (rest : list string) (v : option MediaFile) (err : error) :
  forall (items : list MediaFile) (s : System),
    resolves (ParentPlaybackServer (device s)) ok tracks ->
    GetMediaFile (ParentPlaybackServer (device s)) bad = (v, Some err) ->
    exists s',
      Add_loop (ok ++ bad :: rest) items s = Ret (inr err) s'
      /\ device s' = device s /\ sent s' = sent s
      /\ lookups s' = lookups s ++ ok ++ [bad].
Proof.
  revert tracks. induction ok as [|id ok IH]; intros tracks items s Hres Hbad;
    inversion Hres as [|? mf ? tracks' Hid Hrest]; subst.
  - cbn [app Add_loop]. run_head. rewrite Hbad.
    eexists. split; [destruct v; reflexivity|]. repeat split.
  - cbn [app Add_loop]. run_head. rewrite Hid. unfold log. run_head.
    match goal with
    | |- context [Add_loop _ ?it ?q] => destruct (IH tracks' it q) as (s' & Hrun & Hd & Hs & Hl)
    end; [exact Hrest|exact Hbad|].
    exists s'. rewrite Hrun, Hd, Hs, Hl. cbn [device sent lookups add_logged add_lookup].
    rewrite <- !app_assoc. repeat split.
Qed.

(** [Add] when every id resolves.  Without ids the queue is not touched;
    otherwise the tracks found are handed to [Queue.Add] in one batch. *)
Lemma Add_resolved (ids : list string) (tracks : list MediaFile) (s : System) :
  connected s ->
  resolves (ParentPlaybackServer (device s)) ids tracks ->
  exists st s',
    Add ids s = Ret (st, None) s'
    /\ PlaybackQueue (device s')
       = match ids with
         | [] => PlaybackQueue (device s)
         | _ => Queue_Add tracks (PlaybackQueue (device s))
         end
    /\ lookups s' = lookups s ++ ids
    /\ writes (sent s') = writes (sent s)
    /\ DeviceStatus.CurrentIndex st = Index (PlaybackQueue (device s')).
Proof.
  intros Hc Hres. unfold Add, log. run_head.
  destruct ids as [|id ids].
  - cbn [length Nat.ltb Nat.leb].
    end_with_status Hc st s' Hrun Hro Hidx Hgain.
    exists st, s'. split; [exact Hrun|].
    destruct Hro as (Hd & _ & Hl & Hw & _). rewrite Hd, Hl, Hw, Hidx.
    cbn. rewrite !app_nil_r. repeat split.
  - replace (length (id :: ids) <? 1)%nat with false by reflexivity.
    match goal with
    | |- context [bind (Add_loop _ ?it) _ ?q] =>
        destruct (Add_loop_resolved (id :: ids) tracks it q Hres)
          as (s1 & Hloop & Hd1 & Hp1 & Hs1 & Hl1)
    end.
    rewrite (bind_Ret _ _ _ _ _ Hloop). unfold update_queue. run_head.
    assert (Hc1 : connected s1)
      by (refine (connected_same_device _ s1 _ Hc); rewrite Hd1; reflexivity).
    end_with_status Hc1 st s' Hrun Hro Hidx Hgain.
    exists st, s'. split; [exact Hrun|].
    destruct Hro as (Hd & _ & Hl & Hw & _). rewrite Hd, Hl, Hw, Hidx.
    cbn [device lookups sent set_device PlaybackQueue set_PlaybackQueue].
    rewrite Hd1, Hs1, Hl1. cbn [app device lookups sent add_logged].
    repeat split.
Qed.

(** C6.  [Add] asks the catalog for each id in order.  When every id
    resolves, the tracks found are appended to the queue in the order of the
    ids, one per id.  When an id fails, [Add] returns that error at once: the
    ids after it are not looked up, the device and so the queue are as they
    were, and nothing was sent to the player. *)
Theorem Add_appends_or_aborts (ids : list string) (s : System) :
  connected s ->
  (forall tracks,
     resolves (ParentPlaybackServer (device s)) ids tracks ->
     exists st s',
       Add ids s = Ret (st, None) s'
       /\ Items (PlaybackQueue (device s')) = Items (PlaybackQueue (device s)) ++ tracks
       /\ length tracks = length ids
       /\ lookups s' = lookups s ++ ids
       /\ writes (sent s') = writes (sent s))
  /\ (forall ok tracks bad rest v err,
        ids = ok ++ bad :: rest ->
        resolves (ParentPlaybackServer (device s)) ok tracks ->
        GetMediaFile (ParentPlaybackServer (device s)) bad = (v, Some err) ->
        exists s',
          Add ids s = Ret (DeviceStatus.zero, Some err) s'
          /\ device s' = device s
          /\ lookups s' = lookups s ++ ok ++ [bad]
          /\ sent s' = sent s).
Proof.
  intros Hc. split.
  - intros tracks Hres.
    destruct (Add_resolved ids tracks s Hc Hres) as (st & s' & Hrun & Hq & Hl & Hw & _).
    exists st, s'. split; [exact Hrun|]. rewrite Hq.
    pose proof (Forall2_length _ _ _ Hres) as Hlen.
    repeat split; try assumption; [|symmetry; exact Hlen].
    destruct ids; [|reflexivity].
    inversion Hres; subst. symmetry. apply app_nil_r.
  - intros ok tracks bad rest v err -> Hres Hbad. unfold Add, log. run_head.
    replace (length (ok ++ bad :: rest) <? 1)%nat with false
      by (destruct ok; reflexivity).
    match goal with
    | |- context [bind (Add_loop _ ?it) _ ?q] =>
        destruct (Add_loop_failed ok tracks bad rest v err it q Hres Hbad)
          as (s1 & Hloop & Hd1 & Hs1 & Hl1)
    end.
    rewrite (bind_Ret _ _ _ _ _ Hloop). unfold ret.
    exists s1. rewrite Hd1, Hs1, Hl1. repeat split.
Qed.

Lemma Add_appends_or_aborts_witness :
  connected (samples.system_with samples.player_playing (samples.queue_ABC 1)) /\
  (exists st s',
     Add ["c"; "a"] (samples.system_with samples.player_playing (samples.queue_ABC 1))
     = Ret (st, None) s'
     /\ Items (PlaybackQueue (device s'))
        = [samples.track_A; samples.track_B; samples.track_C;
           samples.track_C; samples.track_A]
     /\ lookups s' = ["c"; "a"])
  /\ exists s',
       Add ["b"; "x"; "a"] (samples.system_with samples.player_playing (samples.queue_ABC 1))
       = Ret (DeviceStatus.zero, Some (errors_New "data not found")) s'
       /\ PlaybackQueue (device s') = samples.queue_ABC 1
       /\ lookups s' = ["b"; "x"].
Proof.
  assert (Hc : connected (samples.system_with samples.player_playing (samples.queue_ABC 1)))
    by (eexists; reflexivity).
  split; [exact Hc|]. split.
  - destruct (Add_appends_or_aborts ["c"; "a"] _ Hc) as (Hok & _).
    destruct (Hok [samples.track_C; samples.track_A]) as (st & s' & H1 & H2 & _ & H3 & _).
    + repeat constructor.
    + exists st, s'. repeat split; assumption.
  - destruct (Add_appends_or_aborts ["b"; "x"; "a"] _ Hc) as (_ & Hfail).
    destruct (Hfail ["b"] [samples.track_B] "x" ["a"] None (errors_New "data not found"))
      as (s' & H1 & H2 & H3 & _).
    + reflexivity.
    + repeat constructor.
    + reflexivity.
    + exists s'. rewrite H2. repeat split; assumption.
Defined.

(** C7.  [Set] is [Clear] followed by [Add]: whatever the queue was, when
    every id resolves the queue holds the tracks of the ids, in their order,
    and the cursor is back at the start (0, or [-1] when there is no track). *)
Theorem Set_is_Clear_then_Add (ids : list string) (tracks : list MediaFile) (s : System) :
  connected s ->
  resolves (ParentPlaybackServer (device s)) ids tracks ->
  exists st0 s0 st s',
    Clear (add_logged (LevelDebug, "Processing Set action") s) = Ret (st0, None) s0
    /\ Set_ ids s = Add ids s0
    /\ Set_ ids s = Ret (st, None) s'
    /\ Items (PlaybackQueue (device s')) = tracks
    /\ Index (PlaybackQueue (device s')) = match ids with [] => -1 | _ => 0 end
    /\ DeviceStatus.CurrentIndex st = Index (PlaybackQueue (device s')).
Proof.
  intros Hc Hres.
  destruct (Clear_total (add_logged (LevelDebug, "Processing Set action") s))
    as (st0 & s0 & Hclear & Hd0 & _); [destruct Hc as [c Hc]; exists c; exact Hc|].
  assert (Hset : Set_ ids s = Add ids s0).
  { unfold Set_, log. run_head. rewrite (bind_Ret _ _ _ _ _ Hclear). reflexivity. }
  assert (Hc0 : connected s0)
    by (refine (connected_same_device _ s0 _ Hc); rewrite Hd0; reflexivity).
  destruct (Add_resolved ids tracks s0 Hc0) as (st & s' & Hadd & Hq & _ & _ & Hidx).
  { rewrite Hd0. exact Hres. }
  exists st0, s0, st, s'. split; [exact Hclear|]. split; [exact Hset|].
  rewrite Hset. split; [exact Hadd|]. rewrite Hidx, Hq, Hd0.
  cbn [PlaybackQueue set_PlaybackQueue Queue_Clear].
  destruct ids as [|id ids].
  - inversion Hres; subst. repeat split.
  - inversion Hres; subst. repeat split.
Qed.

Lemma Set_is_Clear_then_Add_witness :
  connected (samples.system_with samples.player_playing (samples.queue_ABC 2)) /\
  exists st s',
    Set_ ["b"; "a"] (samples.system_with samples.player_playing (samples.queue_ABC 2))
    = Ret (st, None) s'
    /\ Items (PlaybackQueue (device s')) = [samples.track_B; samples.track_A]
    /\ Index (PlaybackQueue (device s')) = 0.
Proof.
  assert (Hc : connected (samples.system_with samples.player_playing (samples.queue_ABC 2)))
    by (eexists; reflexivity).
  split; [exact Hc|].
  destruct (Set_is_Clear_then_Add ["b"; "a"] [samples.track_B; samples.track_A] _ Hc)
    as (_ & _ & st & s' & _ & _ & H1 & H2 & H3 & _).
  - repeat constructor.
  - exists st, s'. repeat split; assumption.
Defined.

(** ** Remove *)

(** Removing the element at a valid position: the elements before it and
    after it stay, in their order. *)
Lemma delete_splits {A} (l : list A) (i : nat) :
  (i < length l)%nat ->
  exists before x after,
    l = before ++ x :: after /\ length before = i /\ delete i l = before ++ after.
Proof.
  intros Hi. destruct (lookup_lt_is_Some_2 l i Hi) as [x Hx].
  exists (take i l), x, (drop (S i) l). split; [|split].
  - symmetry. apply take_drop_middle. exact Hx.
  - rewrite length_take. lia.
  - apply delete_take_drop.
Qed.

(** The part of [Remove] before the range check: the device is asked whether
    it plays and may be stopped; the queue is not touched and no error
    arises. *)
Lemma Remove_unfold (index : Z) (s : System) :
  connected s ->
  exists s2,
    Remove index s
    = bind queue (fun q =>
        bind (if (-1 <? index) && (index <? Queue_Size q)
              then update_queue (Queue_Remove index)
              else log LevelError ("Index to remove out of range: " +:+ Sprint_int index))
             (fun _ => bind getStatus (fun st => ret (st, None)))) s2
    /\ device s2 = device s
    /\ logged s `prefix_of` logged s2.
Proof.
  intros Hc. unfold Remove, log. run_head.
  match goal with
  | |- context [bind isPlaying _ ?s0] =>
      destruct (isPlaying_total s0) as (b & s1 & Hplay & Hd1 & _ & _ & _ & Hlog1);
        [refine (connected_same_device _ s0 _ Hc); reflexivity|]
  end.
  rewrite (bind_Ret _ _ _ _ _ Hplay). unfold queue at 1. run_head.
  assert (Hc1 : connected s1)
    by (refine (connected_same_device _ s1 _ Hc); rewrite Hd1; reflexivity).
  assert (Hpre : logged s `prefix_of` logged s1).
  { etrans; [|exact Hlog1]. apply prefix_app_r. reflexivity. }
  destruct (b && (Index (PlaybackQueue (device s1)) =? index)).
  - destruct (Stop_total s1 Hc1) as (st0 & s2 & Hstop & Hd2 & _ & _ & Hlog2).
    run_head. rewrite (bind_Ret _ _ _ _ _ Hstop). run_head. cbn [snd].
    exists s2. split; [reflexivity|].
    split; [rewrite Hd2, Hd1; reflexivity|]. etrans; eassumption.
  - run_head. exists s1. split; [reflexivity|]. split; assumption.
Qed.

(** C2 (as the code has it).  [Remove] with an index inside the queue removes
    exactly the element at that index and keeps the others in their order.
    With an index outside the queue, the queue is left as it was, the range
    error is written to the log, and the error returned to the caller is
    nil. *)
Theorem Remove_in_range_or_logged (index : Z) (s : System) :
  connected s ->
  (0 <= index < Queue_Size (PlaybackQueue (device s)) ->
   exists before x after st s',
     Items (PlaybackQueue (device s)) = before ++ x :: after
     /\ Z.of_nat (length before) = index
     /\ Remove index s = Ret (st, None) s'
     /\ Items (PlaybackQueue (device s')) = before ++ after)
  /\ (~ 0 <= index < Queue_Size (PlaybackQueue (device s)) ->
      exists st s',
        Remove index s = Ret (st, None) s'
        /\ PlaybackQueue (device s') = PlaybackQueue (device s)
        /\ In (LevelError, "Index to remove out of range: " +:+ Sprint_int index)
              (logged s')).
Proof.
  intros Hc.
  destruct (Remove_unfold index s Hc) as (s2 & Hrun & Hd2 & _).
  assert (Hc2 : connected s2)
    by (refine (connected_same_device _ s2 _ Hc); rewrite Hd2; reflexivity).
  rewrite Hrun. unfold queue. run_head. rewrite Hd2. split.
  - intros Hrange.
    replace ((-1 <? index) && (index <? Queue_Size (PlaybackQueue (device s))))
      with true by (symmetry; apply andb_true_iff; split; apply Z.ltb_lt; lia).
    unfold update_queue. run_head.
    end_with_status Hc2 st s' Hst Hro Hidx Hgain.
    destruct (delete_splits (Items (PlaybackQueue (device s))) (Z.to_nat index))
      as (before & x & after & Hsplit & Hlen & Hdel);
      [unfold Queue_Size in Hrange; lia|].
    exists before, x, after, st, s'. split; [exact Hsplit|]. split; [lia|].
    split; [exact Hst|]. destruct Hro as (Hd & _). rewrite Hd.
    cbn [device set_device PlaybackQueue set_PlaybackQueue]. rewrite Hd2.
    cbn [Queue_Remove Items]. exact Hdel.
  - intros Hrange.
    replace ((-1 <? index) && (index <? Queue_Size (PlaybackQueue (device s))))
      with false
      by (symmetry; apply andb_false_iff;
          destruct (Z.ltb_spec (-1) index); [right; apply Z.ltb_ge; lia|left; reflexivity]).
    unfold log. run_head.
    end_with_status Hc2 st s' Hst Hro Hidx Hgain.
    exists st, s'. split; [exact Hst|].
    destruct Hro as (Hd & _ & _ & _ & [k Hk]). rewrite Hd, Hk.
    cbn [device logged add_logged]. split; [rewrite Hd2; reflexivity|].
    apply in_or_app. left. apply in_or_app. right. left. reflexivity.
Qed.

Lemma Remove_in_range_or_logged_witness :
  connected (samples.system_with samples.player_playing (samples.queue_ABC 0)) /\
  (exists st s',
     Remove 1 (samples.system_with samples.player_playing (samples.queue_ABC 0))
     = Ret (st, None) s'
     /\ Items (PlaybackQueue (device s')) = [samples.track_A; samples.track_C])
  /\ exists st s',
       Remove 3 (samples.system_with samples.player_playing (samples.queue_ABC 0))
       = Ret (st, None) s'
       /\ PlaybackQueue (device s') = samples.queue_ABC 0
       /\ In (LevelError, "Index to remove out of range: 3") (logged s').
Proof.
  assert (Hc : connected (samples.system_with samples.player_playing (samples.queue_ABC 0)))
    by (eexists; reflexivity).
  split; [exact Hc|]. split.
  - destruct (Remove_in_range_or_logged 1 _ Hc) as (Hin & _).
    destruct Hin as (before & x & after & st & s' & H1 & H2 & H3 & H4).
    + unfold Queue_Size. simpl. lia.
    + exists st, s'. split; [exact H3|]. rewrite H4.
      destruct before as [|a [|b before]]; cbn [length] in H2; try lia.
      injection H1 as <- <- <-. reflexivity.
  - destruct (Remove_in_range_or_logged 3 _ Hc) as (_ & Hout).
    destruct Hout as (st & s' & H1 & H2 & H3).
    + unfold Queue_Size. simpl. lia.
    + exists st, s'. repeat split; assumption.
Defined.

(** C2 (as stated) fails: removing index 5 from a queue of three tracks
    returns no error to the caller. *)
Lemma Remove_out_of_range_returns_nil :
  ~ (exists st err s',
       Remove 5 (samples.system_with samples.player_playing (samples.queue_ABC 0))
       = Ret (st, Some err) s').
Proof.
  intros (st & err & s' & Hrun). vm_compute in Hrun. discriminate.
Qed.

(** ** SetGain *)

Lemma rne_shift_bounds (m k : Z) :
  m / 2 ^ k <= rne_shift m k <= m / 2 ^ k + 1.
Proof. unfold rne_shift. cbv zeta. destruct (_ || _); lia. Qed.

(** The volume computed from a gain in [0,1] is on the scale of the player. *)
Lemma volume_in_scale (g : float32) :
  in_unit_interval g -> 0 <= to_int (mul32 g f32_100) <= 100.
Proof.
  destruct g as [m e]. unfold in_unit_interval, mul32, round32, f32_100.
  cbn [mant expo]. intros [Hm Hle]. rewrite Z.add_0_r.
  rewrite (Z.abs_eq (m * 100)) by lia.
  set (k := Z.log2 (m * 100) + 1 - 24).
  destruct (k <=? 0) eqn:Hk.
  - unfold to_int. cbn [mant expo]. destruct (0 <=? e) eqn:He.
    + apply Z.leb_le in He.
      assert (0 <= 2 ^ e) by (apply Z.pow_nonneg; lia). nia.
    + apply Z.leb_gt in He.
      assert (Hpos : 0 < 2 ^ (- e)) by (apply Z.pow_pos_nonneg; lia).
      rewrite Z.quot_div_nonneg by lia. split.
      * apply Z.div_pos; lia.
      * apply Z.div_le_upper_bound; lia.
  - apply Z.leb_gt in Hk.
    assert (HM : 0 < m * 100).
    { destruct (Z.eq_dec m 0) as [->|]; [|lia]. subst k. vm_compute in Hk. discriminate. }
    destruct (Z.log2_spec (m * 100) HM) as [Hlo _].
    assert (H23 : 2 ^ 23 <= 2 ^ Z.log2 (m * 100))
      by (apply Z.pow_le_mono_r; subst k; lia).
    destruct (0 <=? e) eqn:He.
    + apply Z.leb_le in He.
      assert (1 <= 2 ^ e) by (apply (Z.pow_le_mono_r 2 0 e); lia).
      assert (m <= 1) by nia.
      change (2 ^ 23) with 8388608 in H23. lia.
    + apply Z.leb_gt in He.
      assert (Hn : 2 ^ Z.log2 (m * 100) < 2 ^ (- e + 7)).
      { rewrite Z.pow_add_r by lia. change (2 ^ 7) with 128.
        assert (0 < 2 ^ (- e)) by (apply Z.pow_pos_nonneg; lia). nia. }
      apply Z.pow_lt_mono_r_iff in Hn; [|lia|lia].
      assert (Hd : 0 < - (e + k)) by (subst k; lia).
      unfold to_int. cbn [mant expo].
      replace (0 <=? e + k) with false by (symmetry; apply Z.leb_gt; lia).
      pose proof (rne_shift_bounds (m * 100) k) as [Hq1 Hq2].
      assert (Hk2 : 0 < 2 ^ k) by (apply Z.pow_pos_nonneg; lia).
      assert (Hd2 : 2 <= 2 ^ (- (e + k))).
      { change 2 with (2 ^ 1) at 1. apply Z.pow_le_mono_r; lia. }
      assert (Hdiv0 : 0 <= m * 100 / 2 ^ k) by (apply Z.div_pos; lia).
      assert (Hdiv : m * 100 / 2 ^ k <= 100 * 2 ^ (- (e + k))).
      { apply Z.div_le_upper_bound; [lia|].
        replace (2 ^ k * (100 * 2 ^ (- (e + k)))) with (100 * (2 ^ (- (e + k)) * 2 ^ k))
          by ring.
        rewrite <- Z.pow_add_r by lia. replace (- (e + k) + k) with (- e) by ring. lia. }
      rewrite Z.quot_div_nonneg by lia. split.
      * apply Z.div_pos; lia.
      * apply Z.lt_succ_r. apply Z.div_lt_upper_bound; lia.
Qed.

(** Rounding to the nearest moves by at most half a unit of the last place. *)
Lemma rne_shift_error (m k : Z) :
  0 < k ->
  2 * (rne_shift m k * 2 ^ k) <= 2 * m + 2 ^ k
  /\ 2 * m <= 2 * (rne_shift m k * 2 ^ k) + 2 ^ k.
Proof.
  intros Hk. unfold rne_shift. cbv zeta.
  assert (Hpow : 2 ^ k = 2 * 2 ^ (k - 1)).
  { replace k with (Z.succ (k - 1)) at 1 by lia. apply Z.pow_succ_r. lia. }
  assert (Hhalf : 0 < 2 ^ (k - 1)) by (apply Z.pow_pos_nonneg; lia).
  pose proof (Z.div_mod m (2 ^ k) ltac:(lia)) as Hdm.
  pose proof (Z.mod_pos_bound m (2 ^ k) ltac:(lia)) as Hmod.
  destruct ((2 ^ (k - 1) <? m mod 2 ^ k)
            || ((m mod 2 ^ k =? 2 ^ (k - 1)) && Z.odd (m / 2 ^ k))) eqn:Hup.
  - assert (2 ^ (k - 1) <= m mod 2 ^ k).
    { apply orb_true_iff in Hup. destruct Hup as [Hup|Hup].
      - apply Z.ltb_lt in Hup. lia.
      - apply andb_true_iff in Hup. destruct Hup as [Hup _]. apply Z.eqb_eq in Hup. lia. }
    nia.
  - assert (m mod 2 ^ k <= 2 ^ (k - 1)).
    { apply orb_false_iff in Hup. destruct Hup as [Hup _]. apply Z.ltb_ge in Hup. lia. }
    nia.
Qed.

(** Rounding a quotient to the nearest integer gives its integer part or the
    next integer. *)
Lemma round_half_bounds (a p : Z) :
  0 < p -> a / p <= (2 * a + p) / (2 * p) <= a / p + 1.
Proof.
  intros Hp.
  pose proof (Z.mul_div_le a p Hp) as H1.
  pose proof (Z.mul_succ_div_gt a p Hp) as H2.
  split.
  - apply Z.div_le_lower_bound; [lia|]. nia.
  - apply Z.lt_succ_r. apply Z.div_lt_upper_bound; [lia|]. nia.
Qed.

(** The volume computed from a gain in [0,1] is [round(g*100)] or one below. *)
Lemma volume_near_round (g : float32) :
  in_unit_interval g ->
  to_int (mul32 g f32_100) <= round_times_100 g <= to_int (mul32 g f32_100) + 1.
Proof.
  destruct g as [m e]. unfold in_unit_interval, mul32, round32, f32_100, round_times_100.
  cbn [mant expo]. intros [Hm Hle]. rewrite Z.add_0_r.
  rewrite (Z.abs_eq (m * 100)) by lia.
  set (k := Z.log2 (m * 100) + 1 - 24).
  destruct (k <=? 0) eqn:Hk.
  - unfold to_int. cbn [mant expo]. destruct (0 <=? e) eqn:He.
    + lia.
    + apply Z.leb_gt in He.
      assert (Hpos : 0 < 2 ^ (- e)) by (apply Z.pow_pos_nonneg; lia).
      rewrite Z.quot_div_nonneg by lia.
      replace (2 ^ (- e + 1)) with (2 * 2 ^ (- e))
        by (rewrite Z.pow_add_r by lia; change (2 ^ 1) with 2; ring).
      replace (200 * m) with (2 * (m * 100)) by ring.
      apply round_half_bounds. exact Hpos.
  - apply Z.leb_gt in Hk.
    assert (HM : 0 < m * 100).
    { destruct (Z.eq_dec m 0) as [->|]; [|lia]. subst k. vm_compute in Hk. discriminate. }
    destruct (Z.log2_spec (m * 100) HM) as [Hlo _].
    assert (H23 : 2 ^ 23 <= 2 ^ Z.log2 (m * 100))
      by (apply Z.pow_le_mono_r; subst k; lia).
    destruct (0 <=? e) eqn:He.
    + apply Z.leb_le in He.
      assert (1 <= 2 ^ e) by (apply (Z.pow_le_mono_r 2 0 e); lia).
      assert (m <= 1) by nia.
      change (2 ^ 23) with 8388608 in H23. lia.
    + apply Z.leb_gt in He.
      assert (Hn : 2 ^ Z.log2 (m * 100) < 2 ^ (- e + 7)).
      { rewrite Z.pow_add_r by lia. change (2 ^ 7) with 128.
        assert (0 < 2 ^ (- e)) by (apply Z.pow_pos_nonneg; lia). nia. }
      apply Z.pow_lt_mono_r_iff in Hn; [|lia|lia].
      assert (Hd : 0 < - (e + k)) by (subst k; lia).
      unfold to_int. cbn [mant expo].
      replace (0 <=? e + k) with false by (symmetry; apply Z.leb_gt; lia).
      pose proof (rne_shift_bounds (m * 100) k) as [Hq1 _].
      pose proof (rne_shift_error (m * 100) k Hk) as [He1 He2].
      assert (HK : 0 < 2 ^ k) by (apply Z.pow_pos_nonneg; lia).
      assert (HD : 0 < 2 ^ (- (e + k))) by (apply Z.pow_pos_nonneg; lia).
      assert (HP : 2 ^ (- e) = 2 ^ (- (e + k)) * 2 ^ k).
      { rewrite <- Z.pow_add_r by lia. f_equal. ring. }
      assert (Hdiv0 : 0 <= m * 100 / 2 ^ k) by (apply Z.div_pos; lia).
      rewrite Z.quot_div_nonneg by lia.
      replace (2 ^ (- e + 1)) with (2 * 2 ^ (- e))
        by (rewrite Z.pow_add_r by lia; change (2 ^ 1) with 2; ring).
      rewrite HP.
      set (q := rne_shift (m * 100) k) in *.
      set (K := 2 ^ k) in *. set (D := 2 ^ (- (e + k))) in *.
      pose proof (Z.mul_div_le q D HD) as H3.
      pose proof (Z.mul_succ_div_gt q D HD) as H4.
      set (vol := q / D) in *.
      split.
      * apply Z.div_le_lower_bound; [nia|]. nia.
      * apply Z.lt_succ_r. apply Z.div_lt_upper_bound; [nia|]. nia.
Qed.

(** C3 (as the code has it).  [SetGain] with a gain in [0,1] sets the volume
    of the player to the integer part of the [float32] product of the gain
    and 100, a value from 0 to 100 that is [round(g*100)] or one below it,
    and then stores the gain in the device, whatever the player answered to
    the set; the status returned shows the stored gain, with a nil error. *)
Theorem SetGain_truncates_and_persists (g : float32) (s : System) :
  connected s ->
  is_float32 g ->
  in_unit_interval g ->
  exists st s',
    SetGain g s = Ret (st, None) s'
    /\ writes (sent s')
       = writes (sent s) ++ [IpcSet "volume" (Int (to_int (mul32 g f32_100)))]
    /\ 0 <= to_int (mul32 g f32_100) <= 100
    /\ to_int (mul32 g f32_100) <= round_times_100 g <= to_int (mul32 g f32_100) + 1
    /\ Gain (device s') = g
    /\ DeviceStatus.Gain st = g
    /\ PlaybackQueue (device s') = PlaybackQueue (device s).
Proof.
  intros Hc _ Hunit. unfold SetGain, log, MpvConn_Set. cbv zeta. run_head.
  run_request Hc.
  match goal with |- context [player ?a ?b ?c] => destruct (player a b c) as [v err] end.
  cbn [snd].
  destruct err; run_head;
    end_with_status Hc st s' Hrun Hro Hidx Hgain;
    exists st, s'; (split; [exact Hrun|]);
    destruct Hro as (Hd & _ & _ & Hw & _);
    rewrite Hd, Hw, Hgain;
    cbn [device sent add_sent add_logged set_device Gain set_Gain PlaybackQueue];
    rewrite writes_app; repeat split;
    first [apply volume_in_scale | apply volume_near_round]; exact Hunit.
Qed.

(** A gain of 65/128 on a player that refuses the set. *)
Lemma SetGain_truncates_and_persists_witness :
  connected (samples.system_with samples.player_refusing (samples.queue_ABC 0))
  /\ is_float32 (Dy 65 (-7))
  /\ in_unit_interval (Dy 65 (-7))
  /\ exists st s',
       SetGain (Dy 65 (-7))
         (samples.system_with samples.player_refusing (samples.queue_ABC 0))
       = Ret (st, None) s'
       /\ writes (sent s') = [IpcSet "volume" (Int 50)]
       /\ Gain (device s') = Dy 65 (-7)
       /\ In (LevelError, "Error setting volume") (logged s').
Proof.
  assert (Hc : connected (samples.system_with samples.player_refusing (samples.queue_ABC 0)))
    by (eexists; reflexivity).
  assert (Hf : is_float32 (Dy 65 (-7))) by (unfold is_float32; simpl; lia).
  assert (Hu : in_unit_interval (Dy 65 (-7))) by (unfold in_unit_interval; simpl; lia).
  split; [exact Hc|]. split; [exact Hf|]. split; [exact Hu|].
  destruct (SetGain_truncates_and_persists (Dy 65 (-7)) _ Hc Hf Hu)
    as (st & s' & H1 & H2 & _ & _ & H3 & _).
  exists st, s'. repeat split; try assumption.
  vm_compute in H1. injection H1 as _ <-. vm_compute. tauto.
Defined.

(** C3 (as stated) fails: for the gain 65/128 = 0.5078125 the product with
    100 is 50.78125, which rounds to 51, while the volume set is 50. *)
Lemma SetGain_does_not_round :
  is_float32 (Dy 65 (-7)) /\ in_unit_interval (Dy 65 (-7))
  /\ round_times_100 (Dy 65 (-7)) = 51
  /\ ~ (exists st err s',
          SetGain (Dy 65 (-7))
            (samples.system_with samples.player_playing (samples.queue_ABC 0))
          = Ret (st, err) s'
          /\ In (IpcSet "volume" (Int (round_times_100 (Dy 65 (-7))))) (sent s')).
Proof.
  split; [unfold is_float32; simpl; lia|].
  split; [unfold in_unit_interval; simpl; lia|].
  split; [reflexivity|].
  intros (st & err & s' & Hrun & Hin).
  vm_compute in Hrun. injection Hrun as _ _ <-.
  vm_compute in Hin. intuition discriminate.
Qed.

(** The product is rounded to [float32] before it is cut: for the [float32]
    nearest to 0.29 the exact product is below 29, the volume set is 29. *)
Example SetGain_float32_product :
  to_int (mul32 (Dy 9730785 (-25)) f32_100) = 29
  /\ 9730785 * 100 / 2 ^ 25 = 28.
Proof. split; reflexivity. Qed.

(** ** A device built without a connection *)

(** The device that [NewSpeakerPlaybackDevice] returns after the socket
    timeout has a nil connection: its first request to the player is a nil
    pointer dereference. *)
Example device_without_connection_panics :
  exists pd p1,
    NewSpeakerPlaybackDevice 32 samples.os_no_socket samples.catalog "jukebox" "hw:1"
      (mpv.fresh_process 0) = Ret pd p1
    /\ forall pl, exists s',
        Stop {| device := pd; player := pl; sent := []; slept := [];
                lookups := []; logged := [] |}
        = Panic "invalid memory address or nil pointer dereference" s'.
Proof.
  do 2 eexists. split; [vm_compute; reflexivity|].
  intros pl. eexists. reflexivity.
Qed.

(** * Further properties of the bootstrap chain *)

Section Chain.

Import mpv resolver chain.

(** ** The wait for the socket always ends *)

Lemma waitForSocket_loop_ends (os : OS) (path : string) (timeout pause end_ : Z) :
  0 < pause ->
  (forall t, 0 <= sleep_lag os t) ->
  forall (fuel : nat) (retries : Z) (p : Process),
    end_ < clock p + Z.of_nat fuel * pause ->
    exists r p1,
      waitForSocket_loop (S fuel) os path timeout pause end_ retries p = Ret r p1
      /\ (r = None \/ r = Some (Errorf_timeout_reached timeout))
      /\ clock p <= clock p1
      /\ ((forall t, sleep_lag os t = 0) -> clock p1 <= Z.max (clock p) (end_ + pause)).
Proof.
  intros Hpause Hlag. induction fuel as [|fuel IH]; intros retries p Hfuel;
    rewrite waitForSocket_loop_step.
  - destruct (socket_found _).
    + do 2 eexists. split; [reflexivity|]. split; [left; reflexivity|].
      cbn [clock emit after_stat]. split; [lia|intros _; lia].
    + replace (end_ <? clock p) with true by (symmetry; apply Z.ltb_lt; lia).
      do 2 eexists. split; [reflexivity|]. split; [right; reflexivity|].
      cbn [clock emit after_stat]. split; [lia|intros _; lia].
  - destruct (socket_found _).
    + do 2 eexists. split; [reflexivity|]. split; [left; reflexivity|].
      cbn [clock emit after_stat]. split; [lia|intros _; lia].
    + destruct (end_ <? clock p) eqn:Hlate.
      * do 2 eexists. split; [reflexivity|]. split; [right; reflexivity|].
        cbn [clock emit after_stat]. split; [lia|intros _; lia].
      * apply Z.ltb_ge in Hlate.
        destruct (IH (retries + 1) (after_sleep os pause (after_stat path p)))
          as (r & p1 & Hrun & Hr & Hclock & Hbound).
        { cbn [after_sleep after_stat set_clock emit clock].
          specialize (Hlag (clock p)). lia. }
        exists r, p1. split; [exact Hrun|]. split; [exact Hr|].
        cbn [after_sleep after_stat set_clock emit clock] in *.
        split; [specialize (Hlag (clock p)); lia|].
        intros Hexact. specialize (Hbound Hexact). rewrite Hexact in Hbound. lia.
Qed.

(** X1.  [waitForSocket] always returns, with nil or with the timeout error,
    after at most [timeout / pause + 2] polls, whatever the file system
    shows; when sleeps last exactly as asked, it returns no later than
    [timeout + pause] after it started. *)
Theorem waitForSocket_terminates (os : OS) (path : string) (timeout pause : Z)
    (fuel : nat) (p : Process) :
  0 < pause -> 0 <= timeout ->
  (forall t, 0 <= sleep_lag os t) ->
  timeout / pause + 2 <= Z.of_nat fuel ->
  exists r p1,
    waitForSocket fuel os path timeout pause p = Ret r p1
    /\ (r = None \/ r = Some (Errorf_timeout_reached timeout))
    /\ clock p <= clock p1
    /\ ((forall t, sleep_lag os t = 0) -> clock p1 <= clock p + timeout + pause).
Proof.
  intros Hpause Htimeout Hlag Hfuel. unfold waitForSocket, bind, time_Now, gets.
  assert (0 <= timeout / pause) by (apply Z.div_pos; lia).
  destruct fuel as [|fuel]; [lia|].
  destruct (waitForSocket_loop_ends os path timeout pause (clock p + timeout)
              Hpause Hlag fuel 0 p) as (r & p1 & Hrun & Hr & Hclock & Hbound).
  - pose proof (Z.mul_succ_div_gt timeout pause Hpause). nia.
  - exists r, p1. split; [exact Hrun|]. split; [exact Hr|]. split; [exact Hclock|].
    intros Hexact. specialize (Hbound Hexact). lia.
Qed.

Lemma waitForSocket_terminates_witness :
  exists r p1,
    waitForSocket 32 samples.os_socket_late "/tmp/s" (3 * Second) (100 * Millisecond)
      (fresh_process 0) = Ret r p1
    /\ clock p1 <= 3100 * Millisecond.
Proof.
  destruct (waitForSocket_terminates samples.os_socket_late "/tmp/s" (3 * Second)
              (100 * Millisecond) 32 (fresh_process 0))
    as (r & p1 & Hrun & _ & _ & Hbound).
  - reflexivity.
  - vm_compute. discriminate.
  - intros t. simpl. lia.
  - vm_compute. discriminate.
  - exists r, p1. split; [exact Hrun|]. apply Hbound. reflexivity.
Defined.

(** ** What the result of the wait tells *)

Lemma polls_of_emit_stat (path : string) (t : Z) (tr : list Event) :
  polls_of path (tr ++ [EvStat path t]) = polls_of path tr ++ [t].
Proof.
  unfold polls_of. rewrite omap_app. cbn. rewrite String.eqb_refl. reflexivity.
Qed.

Lemma waitForSocket_loop_sound (os : OS) (path : string) (timeout pause end_ : Z)
    (fuel : nat) :
  forall (retries : Z) (p p1 : Process) (r : option error),
    waitForSocket_loop fuel os path timeout pause end_ retries p = Ret r p1 ->
    exists failed last,
      polls_of path (events p1) = polls_of path (events p) ++ failed ++ [last]
      /\ Forall (fun t => socket_found (os_Stat os path t) = false) failed
      /\ match r with
         | None => socket_found (os_Stat os path last) = true
         | Some err =>
             err = Errorf_timeout_reached timeout
             /\ socket_found (os_Stat os path last) = false
             /\ end_ < clock p1
         end.
Proof.
  induction fuel as [|fuel IH]; intros retries p p1 r Hrun; [discriminate|].
  rewrite waitForSocket_loop_step in Hrun.
  destruct (socket_found (os_Stat os path (clock p))) eqn:Hfound.
  - injection Hrun as <- <-. exists [], (clock p). cbn [app events emit after_stat].
    split; [|split; [constructor|exact Hfound]].
    unfold polls_of. rewrite !omap_app. cbn. rewrite String.eqb_refl, app_nil_r.
    reflexivity.
  - destruct (end_ <? clock p) eqn:Hlate.
    + injection Hrun as <- <-. exists [], (clock p). cbn [app events emit after_stat clock].
      split; [apply polls_of_emit_stat|]. split; [constructor|].
      split; [reflexivity|]. split; [exact Hfound|]. apply Z.ltb_lt. exact Hlate.
    + destruct (IH _ _ _ _ Hrun) as (failed & last & Hpolls & Hfailed & Hres).
      exists (clock p :: failed), last. split; [|split; [constructor; assumption|exact Hres]].
      rewrite Hpolls. cbn [events emit after_stat after_sleep set_clock].
      unfold polls_of. rewrite !omap_app. cbn. rewrite String.eqb_refl, app_nil_r.
      rewrite <- app_assoc. reflexivity.
Qed.

(** X2.  A result of [waitForSocket] tells what the polls saw.  Nil is
    returned only when the last poll found the socket, and every poll before
    it had not.  The timeout error is returned only when no poll found the
    socket and the clock has passed the deadline: the wait never gives up
    early, and never after a poll that found the socket. *)
Theorem waitForSocket_result_sound (os : OS) (path : string) (timeout pause : Z)
    (fuel : nat) (p p1 : Process) (r : option error) :
  waitForSocket fuel os path timeout pause p = Ret r p1 ->
  exists failed last,
    polls_of path (events p1) = polls_of path (events p) ++ failed ++ [last]
    /\ Forall (fun t => socket_found (os_Stat os path t) = false) failed
    /\ match r with
       | None => socket_found (os_Stat os path last) = true
       | Some err =>
           err = Errorf_timeout_reached timeout
           /\ socket_found (os_Stat os path last) = false
           /\ clock p + timeout < clock p1
       end.
Proof.
  unfold waitForSocket, bind, time_Now, gets. apply waitForSocket_loop_sound.
Qed.

Lemma waitForSocket_result_sound_witness :
  exists p1 failed last,
    waitForSocket 32 samples.os_socket_250ms "/tmp/s" (3 * Second) (100 * Millisecond)
      (fresh_process 0) = Ret None p1
    /\ polls_of "/tmp/s" (events p1) = failed ++ [last]
    /\ Forall (fun t => socket_found (os_Stat samples.os_socket_250ms "/tmp/s" t) = false)
         failed
    /\ socket_found (os_Stat samples.os_socket_250ms "/tmp/s" last) = true.
Proof.
  assert (Hrun : exists p1,
             waitForSocket 32 samples.os_socket_250ms "/tmp/s" (3 * Second)
               (100 * Millisecond) (fresh_process 0) = Ret None p1)
    by (eexists; vm_compute; reflexivity).
  destruct Hrun as [p1 Hrun].
  destruct (waitForSocket_result_sound _ _ _ _ _ _ _ _ Hrun)
    as (failed & last & Hpolls & Hfailed & Hres).
  exists p1, failed, last. repeat split; assumption.
Defined.

(** ** The command line of the player *)

Lemma Split_no_space (s : string) :
  has_space s = false -> strings.Split s " " = [s].
Proof.
  induction s as [|c r IH]; [reflexivity|]. cbn [has_space strings.Split].
  intros H. apply orb_false_iff in H. destruct H as [Hc Hr].
  rewrite Hc, (IH Hr). reflexivity.
Qed.

Lemma Split_append (a b : string) :
  has_space a = false ->
  strings.Split (a +:+ String " " b) " " = a :: strings.Split b " ".
Proof.
  induction a as [|c r IH]; [reflexivity|]. cbn [has_space].
  intros H. apply orb_false_iff in H. destruct H as [Hc Hr].
  change (String c r +:+ String " " b) with (String c (r +:+ String " " b)).
  cbn [strings.Split]. rewrite Hc, (IH Hr). reflexivity.
Qed.

Lemma Split_pieces (s : string) :
  strings.Split s " " <> [] /\ Forall (fun w => has_space w = false) (strings.Split s " ").
Proof.
  induction s as [|c r [IHne IHall]]; cbn [strings.Split].
  - split; [discriminate|]. repeat constructor.
  - destruct (Ascii.eqb c " ") eqn:Hc.
    + split; [discriminate|]. constructor; [reflexivity|exact IHall].
    + destruct (strings.Split r " ") as [|w ws]; [contradiction|].
      split; [discriminate|]. inversion IHall; subst.
      constructor; [|assumption]. cbn [has_space]. rewrite Hc. assumption.
Qed.

(** Joining pieces without space and splitting again gives the pieces. *)
Lemma Split_Join (l : list string) :
  l <> [] -> Forall (fun w => has_space w = false) l ->
  strings.Split (strings.Join l " ") " " = l.
Proof.
  unfold strings.Join. induction l as [|x l IH]; [contradiction|].
  intros _ Hall. inversion Hall as [|? ? Hx Hl]; subst.
  destruct l as [|y l].
  - cbn [String.concat]. apply Split_no_space. exact Hx.
  - change (String.concat " " (x :: y :: l))
      with (x +:+ String " " (String.concat " " (y :: l))).
    rewrite (Split_append _ _ Hx), IH; [reflexivity|discriminate|exact Hl].
Qed.

(** Splitting at the spaces and joining with spaces gives the string back. *)
Lemma Join_Split (s : string) : strings.Join (strings.Split s " ") " " = s.
Proof.
  unfold strings.Join. induction s as [|c r IH]; [reflexivity|].
  cbn [strings.Split]. pose proof (Split_pieces r) as [Hne _].
  destruct (Ascii.eqb c " ") eqn:Hc.
  - apply Ascii.eqb_eq in Hc. subst c.
    destruct (strings.Split r " ") as [|w ws]; [contradiction|].
    change (String.concat " " ("" :: w :: ws))
      with (String " " (String.concat " " (w :: ws))).
    rewrite IH. reflexivity.
  - destruct (strings.Split r " ") as [|w ws]; [contradiction|].
    destruct ws as [|w' ws].
    + cbn [String.concat] in *. rewrite IH. reflexivity.
    + change (String.concat " " (String c w :: w' :: ws))
        with (String c (String.concat " " (w :: w' :: ws))).
      rewrite IH. reflexivity.
Qed.

(** [mpvCommand] from any state: what it returns and what it leaves. *)
Lemma mpvCommand_result (os : OS) (p : Process) :
  exists r p1,
    mpvCommand os p = Ret r p1
    /\ r = (resolved_path os p, mpvErr p1)
    /\ mpvOnce p1 = true
    /\ mpvPath p1 = resolved_path os p
    /\ mpvErr p1 = (if mpvOnce p then mpvErr p else (resolve os).2)
    /\ clock p1 = clock p
    /\ actions (events p1) = actions (events p).
Proof.
  unfold resolved_path.
  destruct (mpvOnce p) eqn:Hdone.
  - exists (mpvPath p, mpvErr p), p. rewrite (mpvCommand_cached os p Hdone).
    repeat split; auto.
  - destruct p as [once path err t tr]. simpl in Hdone. subst once.
    unfold mpvCommand, mpvOnce_Do, resolve, bind, gets, ret, modify, LookPath, mpv.log,
      actions. simpl.
    destruct (negb (conf_Server_MPVPath os =? "")%string) eqn:Hconf; simpl.
    + destruct (exec_LookPath os (conf_Server_MPVPath os)) as [q [e|]] eqn:Hl; simpl;
        do 2 eexists; (split; [reflexivity|]); repeat split; simpl;
        rewrite ?omap_app; simpl; rewrite ?app_nil_r; reflexivity.
    + destruct (exec_LookPath os "mpv") as [q [e|]] eqn:Hl; simpl.
      * destruct (errors_Is_ErrDot e) eqn:Hdot; simpl.
        -- destruct (exec_LookPath os "./mpv") as [q' [e'|]] eqn:Hl'; simpl;
             do 2 eexists; (split; [reflexivity|]); repeat split; simpl;
             rewrite ?omap_app; simpl; rewrite ?app_nil_r; reflexivity.
        -- do 2 eexists; (split; [reflexivity|]); repeat split; simpl;
             rewrite ?omap_app; simpl; rewrite ?app_nil_r; reflexivity.
      * do 2 eexists; (split; [reflexivity|]); repeat split; simpl;
          rewrite ?omap_app; simpl; rewrite ?app_nil_r; reflexivity.
Qed.

Lemma mpvCommand_runs (os : OS) (p : Process) :
  exists p1,
    mpvCommand os p = Ret (resolved_path os p, mpvErr p1) p1
    /\ mpvOnce p1 = true
    /\ mpvPath p1 = resolved_path os p
    /\ clock p1 = clock p
    /\ actions (events p1) = actions (events p)
    /\ (binary_found os p -> mpvErr p1 = None)
    /\ (forall err, binary_missing os p err -> mpvErr p1 = Some err).
Proof.
  destruct (mpvCommand_result os p)
    as (r & p1 & Hrun & -> & Hdone & Hpath & Herr & Hclock & Hact).
  exists p1. split; [exact Hrun|].
  unfold binary_found, binary_missing. rewrite Herr.
  repeat split; try assumption; destruct (mpvOnce p); auto.
Qed.

Lemma fixCmd_runs (os : OS) (cmd : string) (p : Process) :
  exists p1,
    fixCmd os cmd p
    = Ret (strings.Join (map (fix_token (resolved_path os p)) (strings.Split cmd " ")) " ") p1
    /\ mpvOnce p1 = true
    /\ mpvPath p1 = resolved_path os p
    /\ mpvErr p1 = (if mpvOnce p then mpvErr p else (resolve os).2)
    /\ clock p1 = clock p
    /\ actions (events p1) = actions (events p).
Proof.
  destruct (mpvCommand_result os p)
    as (r & p1 & Hrun & -> & Hdone & Hpath & Herr & Hclock & Hact).
  exists p1. unfold fixCmd, bind. rewrite Hrun. cbn [fst]. unfold ret.
  repeat split; assumption.
Qed.


Lemma fix_token_no_space (cmdPath w : string) :
  has_space cmdPath = false -> has_space w = false ->
  has_space (fix_token cmdPath w) = false.
Proof. intros Hp Hw. unfold fix_token. destruct (_ || _); assumption. Qed.

Lemma createMPVCommand_runs (os : OS) (deviceName sock : string) (p : Process) :
  exists p1,
    createMPVCommand os deviceName sock p
    = Ret (map (substitute deviceName sock)
             (strings.Split
                (strings.Join (map (fix_token (resolved_path os p))
                                 (strings.Split (conf_Server_MPVCmdTemplate os) " ")) " ")
                " ")
           ++ ["--idle"]) p1
    /\ mpvOnce p1 = true
    /\ mpvErr p1 = (if mpvOnce p then mpvErr p else (resolve os).2)
    /\ clock p1 = clock p
    /\ actions (events p1) = actions (events p).
Proof.
  destruct (fixCmd_runs os (conf_Server_MPVCmdTemplate os) p)
    as (p1 & Hrun & Hdone & _ & Herr & Hclock & Hact).
  exists p1. unfold createMPVCommand, bind. rewrite Hrun. unfold ret.
  repeat split; assumption.
Qed.

Lemma start_runs (os : OS) (name : string) (rest : list string) (p : Process) :
  start os (name :: rest) p
  = Ret (match cmd_Start os (name :: rest) with
         | Some err => (Executor_zero, Some (Errorf_starting_cmd err))
         | None => ({| args := name :: rest; cmd := Some (name, rest) |}, None)
         end)
        (emit (EvStart (name :: rest)) (emit (EvLog LevelDebug "Executing mpv command") p)).
Proof.
  unfold start, Executor_start, bind, mpv.log, modify, ret. cbn [args].
  destruct (cmd_Start os (name :: rest)); reflexivity.
Qed.

(** X3.  [fixCmd] returns a command line unchanged when none of its pieces
    is [mpv] or [mpv.exe]: splitting at the spaces and joining again loses
    nothing, also with leading, trailing or repeated spaces. *)
Theorem fixCmd_keeps_other_commands (os : OS) (cmd : string) (p : Process) :
  Forall (fun w => String.eqb w "mpv" || String.eqb w "mpv.exe" = false)
         (strings.Split cmd " ") ->
  exists p1, fixCmd os cmd p = Ret cmd p1.
Proof.
  intros Hnone. destruct (fixCmd_runs os cmd p) as (p1 & Hrun & _).
  assert (Hmap : map (fix_token (resolved_path os p)) (strings.Split cmd " ")
                 = strings.Split cmd " ").
  { revert Hnone. generalize (strings.Split cmd " "). intros l Hl.
    induction Hl as [|w ws Hw _ IH]; [reflexivity|].
    cbn [map]. rewrite IH. unfold fix_token. rewrite Hw. reflexivity. }
  exists p1. rewrite Hrun, Hmap, Join_Split. reflexivity.
Qed.

Lemma fixCmd_keeps_other_commands_witness :
  exists p1,
    fixCmd samples.os_no_socket " vlc  --intf dummy " (fresh_process 0)
    = Ret " vlc  --intf dummy " p1.
Proof.
  apply (fixCmd_keeps_other_commands samples.os_no_socket " vlc  --intf dummy "
           (fresh_process 0)).
  vm_compute. repeat constructor.
Defined.

(** X4.  When the path of the player binary has no space, every piece of the
    command template becomes exactly one argument: the piece itself, or the
    binary path for [mpv] and [mpv.exe], with [%d] and [%s] replaced by the
    device name and the socket path; [--idle] is added as the last
    argument. *)
Theorem createMPVCommand_one_argument_per_piece (os : OS) (deviceName sock : string)
    (p : Process) :
  has_space (resolved_path os p) = false ->
  exists p1,
    createMPVCommand os deviceName sock p
    = Ret (map (fun w => substitute deviceName sock (fix_token (resolved_path os p) w))
             (strings.Split (conf_Server_MPVCmdTemplate os) " ")
           ++ ["--idle"]) p1.
Proof.
  intros Hpath.
  destruct (createMPVCommand_runs os deviceName sock p) as (p1 & Hrun & _).
  exists p1. rewrite Hrun. do 2 f_equal.
  pose proof (Split_pieces (conf_Server_MPVCmdTemplate os)) as [Hne Hall].
  rewrite Split_Join.
  - apply map_map.
  - intros Hnil. apply Hne. apply map_eq_nil in Hnil. exact Hnil.
  - apply Forall_map. eapply Forall_impl; [exact Hall|].
    intros w Hw. apply fix_token_no_space; assumption.
Qed.

Lemma createMPVCommand_one_argument_per_piece_witness :
  exists p1,
    createMPVCommand samples.os_no_socket "hw:1" "/tmp/s" (fresh_process 0)
    = Ret ["/usr/bin/mpv"; "--audio-device=hw:1"; "--no-audio-display";
           "--input-ipc-server=/tmp/s"; "--idle"] p1.
Proof.
  apply (createMPVCommand_one_argument_per_piece samples.os_no_socket "hw:1" "/tmp/s"
           (fresh_process 0)).
  reflexivity.
Defined.

(** A binary path with a space is cut into two arguments. *)
Example createMPVCommand_splits_path_with_space :
  exists p1,
    createMPVCommand samples.os_no_socket "hw:1" "/tmp/s"
      {| mpvOnce := true; mpvPath := "/opt/my apps/mpv"; mpvErr := None;
         clock := 0; events := [] |}
    = Ret ["/opt/my"; "apps/mpv"; "--audio-device=hw:1"; "--no-audio-display";
           "--input-ipc-server=/tmp/s"; "--idle"] p1.
Proof. eexists. vm_compute. reflexivity. Qed.

(** X5.  Whatever the template, the device name and the socket path are, the
    argument vector [createMPVCommand] builds ends with [--idle], so it is
    never empty, and [start] on it does not panic: it returns an executor
    without error exactly when the process could be started. *)
Theorem createMPVCommand_then_start (os : OS) (deviceName sock : string) (p : Process) :
  exists argv p1 r p2,
    createMPVCommand os deviceName sock p = Ret argv p1
    /\ last argv = Some "--idle"
    /\ start os argv p1 = Ret r p2
    /\ (r.2 = None <-> cmd_Start os argv = None)
    /\ actions (events p2) = actions (events p) ++ [EvStart argv].
Proof.
  destruct (createMPVCommand_runs os deviceName sock p) as (p1 & Hrun & _ & _ & _ & Hact).
  match type of Hrun with _ = Ret (?l ++ _) _ => set (pieces := l) in * end.
  destruct (pieces ++ ["--idle"]) as [|name rest] eqn:Hargv.
  { destruct pieces; discriminate. }
  do 4 eexists. split; [exact Hrun|]. split.
  { rewrite <- Hargv. apply last_snoc. }
  split; [apply start_runs|]. split.
  - destruct (cmd_Start os (name :: rest)); cbn [snd]; split; congruence.
  - unfold actions in *. cbn [events emit]. rewrite !omap_app, Hact. cbn.
    rewrite app_nil_r. reflexivity.
Qed.

(** ** The ways out of [OpenMpvAndConnection] *)

(** X6.  When the player binary cannot be resolved, [OpenMpvAndConnection]
    returns the resolution error and no connection, and does nothing else:
    no process is started, the socket is not polled, no connection is
    opened, no time passes. *)
Theorem OpenMpvAndConnection_binary_missing (os : OS) (fuel : nat) (deviceName : string)
    (p : Process) (err : error) :
  binary_missing os p err ->
  exists p1,
    OpenMpvAndConnection fuel os deviceName p = Ret (None, Some err) p1
    /\ actions (events p1) = actions (events p)
    /\ clock p1 = clock p.
Proof.
  intros Hmiss.
  destruct (mpvCommand_runs os p) as (p1 & Hrun & _ & _ & Hclock & Hact & _ & Herr).
  exists p1. unfold OpenMpvAndConnection, bind. rewrite Hrun. cbn [snd].
  rewrite (Herr err Hmiss). unfold ret. repeat split; assumption.
Qed.

Lemma OpenMpvAndConnection_binary_missing_witness :
  binary_missing samples.os_no_mpv (fresh_process 0)
    (exec_Error "/opt/mpv/bin/mpv" ErrNotFound)
  /\ exists p1,
       OpenMpvAndConnection 0 samples.os_no_mpv "hw:1" (fresh_process 0)
       = Ret (None, Some (exec_Error "/opt/mpv/bin/mpv" ErrNotFound)) p1
       /\ actions (events p1) = [].
Proof.
  split; [reflexivity|].
  destruct (OpenMpvAndConnection_binary_missing samples.os_no_mpv 0 "hw:1"
              (fresh_process 0) (exec_Error "/opt/mpv/bin/mpv" ErrNotFound) eq_refl)
    as (p1 & Hrun & Hact & _).
  exists p1. split; assumption.
Defined.

(** X7.  When the player process cannot be started, [OpenMpvAndConnection]
    returns the start error wrapped by [start] and no connection; the socket
    is not polled and no connection is opened. *)
Theorem OpenMpvAndConnection_start_fails (os : OS) (fuel : nat) (deviceName : string)
    (p : Process) (err : error) :
  binary_found os p ->
  (forall a, cmd_Start os a = Some err) ->
  exists argv p1,
    OpenMpvAndConnection fuel os deviceName p
    = Ret (None, Some (Errorf_starting_cmd err)) p1
    /\ actions (events p1) = actions (events p) ++ [EvStart argv]
    /\ clock p1 = clock p.
Proof.
  intros Hbin Hfail.
  destruct (mpvCommand_runs os p) as (p1 & Hrun & Hdone & _ & Hclock & Hact & Hok & _).
  specialize (Hok Hbin).
  destruct (createMPVCommand_runs os deviceName
              (socketName os "mpv-ctrl-" ".socket") p1) as (p2 & Hargs & _ & _ & Hc2 & Hact2).
  match type of Hargs with _ = Ret (?l ++ _) _ => set (pieces := l) in * end.
  destruct (pieces ++ ["--idle"]) as [|name rest] eqn:Hargv.
  { destruct pieces; discriminate. }
  exists (name :: rest). eexists. unfold OpenMpvAndConnection, bind.
  rewrite Hrun. cbn [snd]. rewrite Hok, Hargs, start_runs, Hfail. cbn [snd].
  unfold mpv.log, modify, ret. split; [reflexivity|].
  cbn [events emit clock]. unfold actions in *. rewrite !omap_app, Hact2, Hact. cbn.
  rewrite !app_nil_r. split; [reflexivity|congruence].
Qed.

Lemma OpenMpvAndConnection_start_fails_witness :
  binary_found samples.os_no_exec (fresh_process 0)
  /\ exists p1,
       OpenMpvAndConnection 0 samples.os_no_exec "hw:1" (fresh_process 0)
       = Ret (None, Some (Errorf_starting_cmd (os_Error "permission denied"))) p1.
Proof.
  split; [reflexivity|].
  destruct (OpenMpvAndConnection_start_fails samples.os_no_exec 0 "hw:1"
              (fresh_process 0) (os_Error "permission denied") eq_refl
              (fun _ => eq_refl))
    as (argv & p1 & Hrun & _).
  exists p1. exact Hrun.
Defined.

(** X8.  When the binary is found, the process starts and the socket is
    already there at the first poll, [OpenMpvAndConnection] opens one
    connection on the socket named by [socketName] without sleeping; it
    returns that connection if the open succeeds, and the error of the open
    with no connection otherwise. *)
Theorem OpenMpvAndConnection_socket_ready (os : OS) (fuel : nat) (deviceName : string)
    (p : Process) :
  binary_found os p ->
  (forall a, cmd_Start os a = None) ->
  socket_found (os_Stat os (socketName os "mpv-ctrl-" ".socket") (clock p)) = true ->
  (0 < fuel)%nat ->
  exists argv p1,
    OpenMpvAndConnection fuel os deviceName p
    = Ret (match conn_Open os (socketName os "mpv-ctrl-" ".socket") with
           | None => (Some {| socket := socketName os "mpv-ctrl-" ".socket" |}, None)
           | Some err => (None, Some err)
           end) p1
    /\ actions (events p1)
       = actions (events p)
         ++ [EvStart argv;
             EvStat (socketName os "mpv-ctrl-" ".socket") (clock p);
             EvOpen (socketName os "mpv-ctrl-" ".socket")]
    /\ clock p1 = clock p.
Proof.
  intros Hbin Hstart Hfound Hfuel.
  destruct (mpvCommand_runs os p) as (p1 & Hrun & Hdone & _ & Hclock & Hact & Hok & _).
  specialize (Hok Hbin).
  destruct (createMPVCommand_runs os deviceName
              (socketName os "mpv-ctrl-" ".socket") p1) as (p2 & Hargs & _ & _ & Hc2 & Hact2).
  match type of Hargs with _ = Ret (?l ++ _) _ => set (pieces := l) in * end.
  destruct (pieces ++ ["--idle"]) as [|name rest] eqn:Hargv.
  { destruct pieces; discriminate. }
  destruct fuel as [|fuel]; [lia|].
  exists (name :: rest). unfold OpenMpvAndConnection, bind.
  rewrite Hrun. cbn [snd]. rewrite Hok, Hargs, start_runs, Hstart. cbn [snd].
  unfold waitForSocket, time_Now, bind, gets. rewrite waitForSocket_loop_step.
  cbn [clock emit]. rewrite Hc2, Hclock, Hfound.
  unfold mpv.log, modify, ret.
  destruct (conn_Open os (socketName os "mpv-ctrl-" ".socket"));
    eexists; (split; [reflexivity|]);
    cbn [events emit clock after_stat set_clock]; unfold actions in *;
    rewrite !omap_app, Hact2, Hact; cbn; rewrite ?app_nil_r, <- ?app_assoc;
    rewrite Hc2, Hclock; (split; [reflexivity|congruence]).
Qed.

Lemma OpenMpvAndConnection_socket_ready_witness :
  binary_found samples.os_refused (fresh_process 0)
  /\ exists p1,
       OpenMpvAndConnection 1 samples.os_refused "hw:1" (fresh_process 0)
       = Ret (None, Some (os_Error "connection refused")) p1.
Proof.
  split; [reflexivity|].
  destruct (OpenMpvAndConnection_socket_ready samples.os_refused 1 "hw:1"
              (fresh_process 0) eq_refl (fun _ => eq_refl) eq_refl)
    as (argv & p1 & Hrun & _).
  - lia.
  - exists p1. exact Hrun.
Defined.

End Chain.

(** * Further properties of the device *)

Import transport.

(** ** The status queries *)

Lemma isPlaying_value (s : System) :
  connected s ->
  exists s',
    isPlaying s = Ret (playing_of_reply (player s (sent s) (IpcGet "pause"))) s'
    /\ sent s' = sent s ++ [IpcGet "pause"]
    /\ device s' = device s /\ player s' = player s.
Proof.
  intros Hc. unfold isPlaying, MpvConn_Get.
  rewrite (bind_Ret _ _ _ _ _ (request_connected _ s Hc)).
  destruct (player s (sent s) (IpcGet "pause")) as [v [e|]]; cbn [fst snd].
  - eexists. split; [destruct v; reflexivity|]. repeat split.
  - destruct v; eexists; (split; [reflexivity|]); repeat split.
Qed.

(** The loop of [Position] sends position queries only, at least one and at
    most as many as the retry count leaves. *)
Lemma Position_loop_queries (fuel : nat) :
  forall (rc : Z) (s : System),
    connected s -> 0 <= rc <= 5 -> 6 - rc <= Z.of_nat fuel ->
    exists pos s' n,
      Position_loop fuel rc s = Ret pos s'
      /\ sent s' = sent s ++ replicate n get_time_pos
      /\ (1 <= n)%nat /\ Z.of_nat n <= 6 - rc
      /\ device s' = device s /\ player s' = player s.
Proof.
  induction fuel as [|fuel IH]; intros rc s Hc Hrc Hfuel; [lia|].
  rewrite (Position_loop_step _ _ _ Hc). cbv zeta.
  destruct (unavailable _).
  - destruct (5 <? rc + 1) eqn:Hbound.
    + exists 0, (add_logged (LevelDebug, "Got mpv error, retrying...")
                   (add_sent get_time_pos s)), 1%nat.
      repeat split; lia.
    + apply Z.ltb_ge in Hbound.
      match goal with |- context [Position_loop fuel _ ?q] => set (s2 := q) end.
      destruct (IH (rc + 1) s2) as (pos & s' & n & Hrun & Hsent & Hn1 & Hn2 & Hd & Hp).
      * destruct Hc as [c Hc]. exists c. exact Hc.
      * lia.
      * lia.
      * exists pos, s', (S n). split; [exact Hrun|]. rewrite Hsent, Hd, Hp.
        subst s2. cbn [sent device player add_sent add_logged add_slept replicate].
        rewrite <- app_assoc. repeat split; lia.
  - destruct (player s (sent s) get_time_pos) as [v [e|]];
      destruct v; do 2 eexists; exists 1%nat; (split; [reflexivity|]);
      repeat split; lia.
Qed.

(** X9.  The status of a connected device is always obtained, and by reading
    only: one query of [pause], then between one and six queries of
    [time-pos].  It shows the cursor of the queue and the gain stored in the
    device, and reports the device as playing exactly when the player
    answered the pause query, without error, with the boolean false. *)
Theorem getStatus_reads (s : System) :
  connected s ->
  exists st s' n,
    getStatus s = Ret st s'
    /\ sent s' = sent s ++ IpcGet "pause" :: replicate n get_time_pos
    /\ (1 <= n <= 6)%nat
    /\ device s' = device s
    /\ DeviceStatus.CurrentIndex st = Index (PlaybackQueue (device s))
    /\ DeviceStatus.Gain st = Gain (device s)
    /\ DeviceStatus.Playing st = playing_of_reply (player s (sent s) (IpcGet "pause")).
Proof.
  intros Hc. unfold getStatus, queue.
  destruct (isPlaying_value s Hc) as (s1 & Hplay & Hsent1 & Hd1 & Hp1).
  assert (Hc1 : connected s1)
    by (refine (connected_same_device _ s1 _ Hc); rewrite Hd1; reflexivity).
  destruct (Position_loop_queries 6 0 s1 Hc1)
    as (pos & s2 & n & Hpos & Hsent2 & Hn1 & Hn2 & Hd2 & _); [lia|simpl; lia|].
  run_head. rewrite (bind_Ret _ _ _ _ _ Hplay). run_head.
  unfold Position. rewrite (bind_Ret _ _ _ _ _ Hpos). unfold ret.
  eexists. exists s2, n. split; [reflexivity|].
  rewrite Hsent2, Hsent1, Hd2, Hd1, <- app_assoc. cbn. repeat split; lia.
Qed.

Lemma getStatus_reads_witness :
  connected (samples.system_with samples.player_recovering (samples.queue_ABC 1))
  /\ exists st s',
       getStatus (samples.system_with samples.player_recovering (samples.queue_ABC 1))
       = Ret st s'
       /\ DeviceStatus.CurrentIndex st = 1
       /\ DeviceStatus.Playing st = true.
Proof.
  assert (Hc : connected (samples.system_with samples.player_recovering
                            (samples.queue_ABC 1))) by (eexists; reflexivity).
  split; [exact Hc|].
  destruct (getStatus_reads _ Hc) as (st & s' & n & Hrun & _ & _ & _ & Hidx & _ & Hplay).
  exists st, s'. repeat split; assumption.
Defined.

(** ** Stop, Clear and Get *)

(** X10.  [Stop] sets [pause] to true and returns a nil error whatever the
    player answers; when the player refuses the set, the refusal is only
    written to the log.  The device itself is not changed. *)
Theorem Stop_pauses (s : System) :
  connected s ->
  exists st s',
    Stop s = Ret (st, None) s'
    /\ writes (sent s') = writes (sent s) ++ [IpcSet "pause" (Bool true)]
    /\ device s' = device s
    /\ ((player s (sent s) (IpcSet "pause" (Bool true))).2 <> None ->
        In (LevelError, "Error pausing track") (logged s')).
Proof.
  intros Hc. unfold Stop, log, MpvConn_Set. run_head. run_request Hc.
  cbn [player sent add_logged].
  destruct (player s (sent s) (IpcSet "pause" (Bool true))) as [v err].
  cbn [snd].
  destruct err; run_head;
    end_with_status Hc st s' Hrun Hro Hidx Hgain;
    exists st, s'; (split; [exact Hrun|]);
    destruct Hro as (Hd & _ & _ & Hw & [k Hk]);
    rewrite Hd, Hw, Hk; cbn [device sent logged add_sent add_logged];
    rewrite writes_app; (repeat split); intros Herr.
  - apply in_or_app. left. apply in_or_app. right. left. reflexivity.
  - contradiction.
Qed.

Lemma Stop_pauses_witness :
  connected (samples.system_with samples.player_refusing (samples.queue_ABC 0))
  /\ exists st s',
       Stop (samples.system_with samples.player_refusing (samples.queue_ABC 0))
       = Ret (st, None) s'
       /\ writes (sent s') = [IpcSet "pause" (Bool true)]
       /\ In (LevelError, "Error pausing track") (logged s').
Proof.
  assert (Hc : connected (samples.system_with samples.player_refusing (samples.queue_ABC 0)))
    by (eexists; reflexivity).
  split; [exact Hc|].
  destruct (Stop_pauses _ Hc) as (st & s' & H1 & H2 & _ & H3).
  exists st, s'. split; [exact H1|]. split; [exact H2|].
  apply H3. simpl. discriminate.
Defined.

Lemma Get_returns_items (s : System) :
  connected s ->
  exists st s',
    Get s = Ret (Items (PlaybackQueue (device s)), st, None) s'
    /\ device s' = device s
    /\ writes (sent s') = writes (sent s)
    /\ DeviceStatus.CurrentIndex st = Index (PlaybackQueue (device s))
    /\ DeviceStatus.Gain st = Gain (device s).
Proof.
  intros Hc. unfold Get, log, queue. run_head.
  match goal with
  | |- context [bind getStatus _ ?s1] =>
      destruct (getStatus_total s1) as (st & s' & Hst & (Hd & _ & _ & Hw & _) & Hidx & Hgain);
        [refine (connected_same_device _ s1 _ Hc); reflexivity|]
  end.
  exists st, s'. rewrite (bind_Ret _ _ _ _ _ Hst). unfold ret, Queue_Get.
  repeat split; assumption.
Qed.

(** X11.  [Clear] pauses the player and empties the queue, with a nil error,
    whatever the queue held and whatever the player answers; a [Get] that
    follows returns no track and shows the cursor at [-1]. *)
Theorem Clear_then_Get (s : System) :
  connected s ->
  exists st s1 st2 s2,
    Clear s = Ret (st, None) s1
    /\ writes (sent s1) = writes (sent s) ++ [IpcSet "pause" (Bool true)]
    /\ DeviceStatus.CurrentIndex st = -1
    /\ Get s1 = Ret ([], st2, None) s2
    /\ DeviceStatus.CurrentIndex st2 = -1
    /\ writes (sent s2) = writes (sent s1).
Proof.
  intros Hc.
  destruct (Clear_total s Hc) as (st & s1 & Hclear & Hd1 & _ & Hw1 & Hidx1).
  assert (Hc1 : connected s1)
    by (refine (connected_same_device _ s1 _ Hc); rewrite Hd1; reflexivity).
  destruct (Get_returns_items s1 Hc1) as (st2 & s2 & Hget & _ & Hw2 & Hidx2 & _).
  rewrite Hd1 in Hget, Hidx2. cbn in Hget, Hidx2.
  exists st, s1, st2, s2. repeat split; assumption.
Qed.

Lemma Clear_then_Get_witness :
  connected (samples.system_with samples.player_refusing (samples.queue_ABC 2))
  /\ exists st s1 st2 s2,
       Clear (samples.system_with samples.player_refusing (samples.queue_ABC 2))
       = Ret (st, None) s1
       /\ Get s1 = Ret ([], st2, None) s2.
Proof.
  assert (Hc : connected (samples.system_with samples.player_refusing (samples.queue_ABC 2)))
    by (eexists; reflexivity).
  split; [exact Hc|].
  destruct (Clear_then_Get _ Hc) as (st & s1 & st2 & s2 & H1 & _ & _ & H2 & _).
  exists st, s1, st2, s2. split; assumption.
Defined.

(** [Add] when every id resolves: the device afterwards. *)
Lemma Add_resolved_device (ids : list string) (tracks : list MediaFile) (s : System) :
  connected s ->
  resolves (ParentPlaybackServer (device s)) ids tracks ->
  exists st s',
    Add ids s = Ret (st, None) s'
    /\ device s'
       = match ids with
         | [] => device s
         | _ => set_PlaybackQueue (Queue_Add tracks (PlaybackQueue (device s))) (device s)
         end.
Proof.
  intros Hc Hres. unfold Add, log. run_head.
  destruct ids as [|id ids].
  - cbn [length Nat.ltb Nat.leb].
    end_with_status Hc st s' Hrun Hro Hidx Hgain.
    exists st, s'. split; [exact Hrun|]. destruct Hro as (Hd & _). exact Hd.
  - replace (length (id :: ids) <? 1)%nat with false by reflexivity.
    match goal with
    | |- context [bind (Add_loop _ ?it) _ ?q] =>
        destruct (Add_loop_resolved (id :: ids) tracks it q Hres)
          as (s1 & Hloop & Hd1 & _)
    end.
    rewrite (bind_Ret _ _ _ _ _ Hloop). unfold update_queue. run_head.
    assert (Hc1 : connected s1)
      by (refine (connected_same_device _ s1 _ Hc); rewrite Hd1; reflexivity).
    end_with_status Hc1 st s' Hrun Hro Hidx Hgain.
    exists st, s'. split; [exact Hrun|]. destruct Hro as (Hd & _). rewrite Hd.
    cbn [device set_device]. rewrite Hd1. reflexivity.
Qed.

(** X19.  After [Set] with ids that all resolve, [Get] returns exactly the
    tracks of the ids, in their order, whatever the queue held before. *)
Theorem Set_then_Get (ids : list string) (tracks : list MediaFile) (s : System) :
  connected s ->
  resolves (ParentPlaybackServer (device s)) ids tracks ->
  exists st s1 st2 s2,
    Set_ ids s = Ret (st, None) s1
    /\ Get s1 = Ret (tracks, st2, None) s2
    /\ DeviceStatus.CurrentIndex st2 = match ids with [] => -1 | _ => 0 end.
Proof.
  intros Hc Hres.
  destruct (Clear_total (add_logged (LevelDebug, "Processing Set action") s))
    as (st0 & s0 & Hclear & Hd0 & _); [destruct Hc as [c Hc]; exists c; exact Hc|].
  assert (Hc0 : connected s0)
    by (refine (connected_same_device _ s0 _ Hc); rewrite Hd0; reflexivity).
  destruct (Add_resolved_device ids tracks s0 Hc0) as (st & s1 & Hadd & Hd1).
  { rewrite Hd0. exact Hres. }
  assert (Hset : Set_ ids s = Ret (st, None) s1).
  { unfold Set_, log. run_head. rewrite (bind_Ret _ _ _ _ _ Hclear). exact Hadd. }
  assert (Hc1 : connected s1).
  { refine (connected_same_device _ s1 _ Hc0). rewrite Hd1. destruct ids; reflexivity. }
  destruct (Get_returns_items s1 Hc1) as (st2 & s2 & Hget & _ & _ & Hidx2 & _).
  exists st, s1, st2, s2. split; [exact Hset|].
  rewrite Hd1, Hd0 in Hget, Hidx2.
  destruct ids as [|id ids]; inversion Hres; subst; cbn in Hget, Hidx2;
    split; assumption.
Qed.

Lemma Set_then_Get_witness :
  connected (samples.system_with samples.player_playing (samples.queue_ABC 2))
  /\ exists st s1 st2 s2,
       Set_ ["c"; "c"; "a"]
         (samples.system_with samples.player_playing (samples.queue_ABC 2))
       = Ret (st, None) s1
       /\ Get s1 = Ret ([samples.track_C; samples.track_C; samples.track_A], st2, None) s2
       /\ DeviceStatus.CurrentIndex st2 = 0.
Proof.
  assert (Hc : connected (samples.system_with samples.player_playing (samples.queue_ABC 2)))
    by (eexists; reflexivity).
  split; [exact Hc|].
  destruct (Set_then_Get ["c"; "c"; "a"]
              [samples.track_C; samples.track_C; samples.track_A] _ Hc)
    as (st & s1 & st2 & s2 & H1 & H2 & H3).
  - repeat constructor.
  - exists st, s1, st2, s2. repeat split; assumption.
Defined.

(** ** Remove, Shuffle, Skip and SetGain *)

(** X12.  [Remove] pauses the player first exactly when the player reports
    that it is playing and the index is the cursor of the queue; otherwise
    it sends nothing but property reads.  Its error is nil in both cases. *)
Theorem Remove_stops_current (index : Z) (s : System) :
  connected s ->
  exists st s',
    Remove index s = Ret (st, None) s'
    /\ writes (sent s')
       = writes (sent s)
         ++ (if playing_of_reply (player s (sent s) (IpcGet "pause"))
                && (Index (PlaybackQueue (device s)) =? index)
             then [IpcSet "pause" (Bool true)] else []).
Proof.
  intros Hc. unfold Remove, log. run_head.
  match goal with
  | |- context [bind isPlaying _ ?s0] =>
      destruct (isPlaying_value s0) as (s1 & Hplay & Hsent1 & Hd1 & _);
        [refine (connected_same_device _ s0 _ Hc); reflexivity|]
  end.
  cbn [player sent device add_logged] in Hplay, Hsent1, Hd1.
  rewrite (bind_Ret _ _ _ _ _ Hplay). unfold queue at 1. run_head. rewrite Hd1.
  assert (Hc1 : connected s1)
    by (refine (connected_same_device _ s1 _ Hc); rewrite Hd1; reflexivity).
  assert (Hw1 : writes (sent s1) = writes (sent s)).
  { rewrite Hsent1, writes_app. cbn. apply app_nil_r. }
  destruct (playing_of_reply _ && _).
  - destruct (Stop_total s1 Hc1) as (st0 & s2 & Hstop & Hd2 & _ & Hw2 & _).
    run_head. rewrite (bind_Ret _ _ _ _ _ Hstop). run_head. cbn [snd].
    assert (Hc2 : connected s2)
      by (refine (connected_same_device _ s2 _ Hc1); rewrite Hd2; reflexivity).
    unfold queue, update_queue. run_head.
    destruct ((-1 <? index) && _); run_head;
      end_with_status Hc2 st s' Hrun Hro Hidx Hgain;
      exists st, s'; (split; [exact Hrun|]);
      destruct Hro as (_ & _ & _ & Hw & _); rewrite Hw;
      cbn [sent set_device add_logged]; rewrite Hw2, Hw1; reflexivity.
  - run_head. unfold queue, update_queue. run_head.
    destruct ((-1 <? index) && _); run_head;
      end_with_status Hc1 st s' Hrun Hro Hidx Hgain;
      exists st, s'; (split; [exact Hrun|]);
      destruct Hro as (_ & _ & _ & Hw & _); rewrite Hw;
      cbn [sent set_device add_logged]; rewrite Hw1, app_nil_r; reflexivity.
Qed.

Lemma Remove_stops_current_witness :
  connected (samples.system_with samples.player_playing (samples.queue_ABC 1))
  /\ (exists st s',
        Remove 1 (samples.system_with samples.player_playing (samples.queue_ABC 1))
        = Ret (st, None) s'
        /\ writes (sent s') = [IpcSet "pause" (Bool true)])
  /\ exists st s',
       Remove 2 (samples.system_with samples.player_playing (samples.queue_ABC 1))
       = Ret (st, None) s'
       /\ writes (sent s') = [].
Proof.
  assert (Hc : connected (samples.system_with samples.player_playing (samples.queue_ABC 1)))
    by (eexists; reflexivity).
  split; [exact Hc|]. split.
  - destruct (Remove_stops_current 1 _ Hc) as (st & s' & H1 & H2).
    exists st, s'. split; assumption.
  - destruct (Remove_stops_current 2 _ Hc) as (st & s' & H1 & H2).
    exists st, s'. split; assumption.
Defined.

(** X16.  [Shuffle] leaves a queue of at most one track alone, whatever order
    the shuffle of the queue would draw: the device is unchanged, nothing but
    property reads is sent, and the error is nil. *)
Theorem Shuffle_short_queue (Queue_Shuffle : Queue -> Queue) (s : System) :
  connected s ->
  Queue_Size (PlaybackQueue (device s)) <= 1 ->
  exists st s',
    Shuffle Queue_Shuffle s = Ret (st, None) s'
    /\ device s' = device s
    /\ writes (sent s') = writes (sent s).
Proof.
  intros Hc Hsize. unfold Shuffle, log, queue. run_head.
  cbn [device add_logged].
  replace (1 <? Queue_Size (PlaybackQueue (device s))) with false
    by (symmetry; apply Z.ltb_ge; lia).
  run_head. end_with_status Hc st s' Hrun Hro Hidx Hgain.
  exists st, s'. split; [exact Hrun|]. destruct Hro as (Hd & _ & _ & Hw & _).
  split; assumption.
Qed.

Lemma Shuffle_short_queue_witness :
  connected (samples.system_with samples.player_playing
               {| Index := 0; Items := [samples.track_B] |})
  /\ exists st s',
       Shuffle (fun q => {| Index := Index q; Items := rev (Items q) |})
         (samples.system_with samples.player_playing
            {| Index := 0; Items := [samples.track_B] |})
       = Ret (st, None) s'
       /\ PlaybackQueue (device s') = {| Index := 0; Items := [samples.track_B] |}.
Proof.
  assert (Hc : connected (samples.system_with samples.player_playing
                            {| Index := 0; Items := [samples.track_B] |}))
    by (eexists; reflexivity).
  split; [exact Hc|].
  destruct (Shuffle_short_queue (fun q => {| Index := Index q; Items := rev (Items q) |})
              _ Hc) as (st & s' & H1 & H2 & _).
  - unfold Queue_Size. simpl. lia.
  - exists st, s'. split; [exact H1|]. rewrite H2. reflexivity.
Defined.

(** X17.  A [Skip] to another index inside the queue followed by a [Skip] to
    the same index loads the track once and then seeks: the second call
    finds the cursor on the index and does not load again. *)
Theorem Skip_then_Skip (index offset1 offset2 : Z) (s : System) :
  connected s ->
  0 <= index < Queue_Size (PlaybackQueue (device s)) ->
  index <> Index (PlaybackQueue (device s)) ->
  exists track st1 s1 st2 s2,
    Items (PlaybackQueue (device s)) !! Z.to_nat index = Some track
    /\ Skip index offset1 s = Ret (st1, None) s1
    /\ Skip index offset2 s1 = Ret (st2, None) s2
    /\ writes (sent s2) = writes (sent s) ++ [loadfile (Path track); seek offset2]
    /\ Index (PlaybackQueue (device s2)) = index.
Proof.
  intros Hc Hrange Hneq.
  destruct (Queue_SetIndex_in_range index _ Hrange) as [Hset Hcur].
  unfold Queue_Size in Hrange.
  destruct (lookup_lt_is_Some_2 (Items (PlaybackQueue (device s))) (Z.to_nat index))
    as [track Htrack]; [lia|].
  rewrite Htrack in Hcur.
  destruct (Skip_total index offset1 s Hc)
    as (st1 & s1 & Hrun1 & (Hd1 & _ & _ & Hw1 & _) & _).
  assert (Hafter1 : after_skip index offset1 s
                    = add_sent (loadfile (Path track))
                        (set_queue (Queue_SetIndex index (PlaybackQueue (device s)))
                           (add_logged (LevelDebug, "Processing Skip action") s))).
  { unfold after_skip. cbv zeta.
    replace (negb (index =? Index (PlaybackQueue (device s)))) with true
      by (symmetry; apply negb_true_iff, Z.eqb_neq; exact Hneq).
    rewrite Hcur. reflexivity. }
  rewrite Hafter1 in Hd1, Hw1.
  cbn [device sent add_sent set_queue set_device add_logged] in Hd1, Hw1.
  assert (Hidx1 : Index (PlaybackQueue (device s1)) = index)
    by (rewrite Hd1; exact Hset).
  assert (Hc1 : connected s1)
    by (refine (connected_same_device _ s1 _ Hc); rewrite Hd1; reflexivity).
  destruct (Skip_total index offset2 s1 Hc1)
    as (st2 & s2 & Hrun2 & (Hd2 & _ & _ & Hw2 & _) & _).
  assert (Hafter2 : after_skip index offset2 s1
                    = add_sent (seek offset2)
                        (add_logged (LevelDebug, "Processing Skip action") s1)).
  { unfold after_skip. cbv zeta. rewrite Hidx1, Z.eqb_refl. reflexivity. }
  rewrite Hafter2 in Hd2, Hw2. cbn [device sent add_sent add_logged] in Hd2, Hw2.
  exists track, st1, s1, st2, s2. split; [exact Htrack|].
  split; [exact Hrun1|]. split; [exact Hrun2|].
  rewrite Hw2, Hd2, writes_app, Hw1, writes_app, <- app_assoc.
  split; [reflexivity|exact Hidx1].
Qed.

Lemma Skip_then_Skip_witness :
  connected (samples.system_with samples.player_playing (samples.queue_ABC 0))
  /\ exists st1 s1 st2 s2,
       Skip 2 0 (samples.system_with samples.player_playing (samples.queue_ABC 0))
       = Ret (st1, None) s1
       /\ Skip 2 5 s1 = Ret (st2, None) s2
       /\ writes (sent s2) = [loadfile "/music/c.flac"; seek 5].
Proof.
  assert (Hc : connected (samples.system_with samples.player_playing (samples.queue_ABC 0)))
    by (eexists; reflexivity).
  split; [exact Hc|].
  destruct (Skip_then_Skip 2 0 5 _ Hc) as (track & st1 & s1 & st2 & s2 & H0 & H1 & H2 & H3 & _).
  - unfold Queue_Size. simpl. lia.
  - simpl. lia.
  - exists st1, s1, st2, s2. injection H0 as <-. repeat split; assumption.
Defined.

(** X20.  The gain a later status shows is the gain last given to [SetGain],
    also when the player refused the volume: the status reflects what the
    device stored, not what the player plays at. *)
Theorem SetGain_then_Get (g : float32) (s : System) :
  connected s ->
  exists st s1 st2 s2,
    SetGain g s = Ret (st, None) s1
    /\ Get s1 = Ret (Items (PlaybackQueue (device s)), st2, None) s2
    /\ DeviceStatus.Gain st2 = g.
Proof.
  intros Hc. unfold SetGain, log, MpvConn_Set. cbv zeta. run_head. run_request Hc.
  match goal with |- context [player ?a ?b ?c] => destruct (player a b c) as [v err] end.
  cbn [snd].
  destruct err; run_head;
    end_with_status Hc st s1 Hrun Hro Hidx Hgain;
    destruct Hro as (Hd & _);
    (assert (Hc1 : connected s1)
       by (refine (connected_same_device _ s1 _ Hc); rewrite Hd; reflexivity));
    destruct (Get_returns_items s1 Hc1) as (st2 & s2 & Hget & _ & _ & _ & Hgain2);
    rewrite Hd in Hget, Hgain2; cbn in Hget, Hgain2;
    exists st, s1, st2, s2; repeat split; assumption.
Qed.

Lemma SetGain_then_Get_witness :
  connected (samples.system_with samples.player_refusing (samples.queue_ABC 0))
  /\ exists st s1 st2 s2,
       SetGain (Dy 1 (-2))
         (samples.system_with samples.player_refusing (samples.queue_ABC 0))
       = Ret (st, None) s1
       /\ Get s1 = Ret ([samples.track_A; samples.track_B; samples.track_C], st2, None) s2
       /\ DeviceStatus.Gain st2 = Dy 1 (-2).
Proof.
  assert (Hc : connected (samples.system_with samples.player_refusing (samples.queue_ABC 0)))
    by (eexists; reflexivity).
  split; [exact Hc|].
  destruct (SetGain_then_Get (Dy 1 (-2)) _ Hc) as (st & s1 & st2 & s2 & H1 & H2 & H3).
  exists st, s1, st2, s2. repeat split; assumption.
Defined.

(** ** A device without connection *)

Lemma request_panics {A} (r : Request) (k : Reply -> M System A) (s : System) :
  MpvConn (device s) = None ->
  bind (request r) k s = Panic nil_dereference s.
Proof.
  intros Hnil. unfold bind. rewrite (request_nil_connection r s Hnil). reflexivity.
Qed.

Lemma getStatus_panics {A} (k : DeviceStatus.t -> M System A) (s : System) :
  MpvConn (device s) = None ->
  exists s', bind getStatus k s = Panic nil_dereference s' /\ device s' = device s.
Proof.
  intros Hnil. unfold getStatus, queue, isPlaying, MpvConn_Get. run_head.
  rewrite (request_panics _ _ s Hnil). eexists. split; reflexivity.
Qed.

Lemma Stop_panics (s : System) :
  MpvConn (device s) = None ->
  exists s', Stop s = Panic nil_dereference s' /\ device s' = device s.
Proof.
  intros Hnil. unfold Stop, log, MpvConn_Set. run_head.
  rewrite request_panics by exact Hnil. eexists. split; reflexivity.
Qed.

(** X18.  On a device whose connection is nil, [Stop], [Clear], [Get],
    [Remove], [SetGain] and a [Skip] to the cursor panic with a nil pointer
    dereference before they change the device: the queue is not cleared,
    nothing is removed and the gain is not stored.  [Add] with ids that
    resolve appends the tracks first and panics afterwards. *)
Theorem commands_without_connection_panic (s : System) :
  MpvConn (device s) = None ->
  (exists s', Stop s = Panic nil_dereference s' /\ device s' = device s)
  /\ (exists s', Clear s = Panic nil_dereference s' /\ device s' = device s)
  /\ (exists s', Get s = Panic nil_dereference s' /\ device s' = device s)
  /\ (forall index,
        exists s', Remove index s = Panic nil_dereference s' /\ device s' = device s)
  /\ (forall g,
        exists s', SetGain g s = Panic nil_dereference s' /\ device s' = device s)
  /\ (forall offset,
        exists s',
          Skip (Index (PlaybackQueue (device s))) offset s = Panic nil_dereference s'
          /\ device s' = device s)
  /\ (forall ids tracks,
        ids <> [] ->
        resolves (ParentPlaybackServer (device s)) ids tracks ->
        exists s',
          Add ids s = Panic nil_dereference s'
          /\ Items (PlaybackQueue (device s'))
             = Items (PlaybackQueue (device s)) ++ tracks).
Proof.
  intros Hnil.
  split; [apply Stop_panics; exact Hnil|].
  split.
  { unfold Clear, log. run_head.
    destruct (Stop_panics (add_logged (LevelDebug, "Processing Clear action") s) Hnil)
      as (s' & Hs & Hd).
    exists s'. unfold bind at 1. rewrite Hs. split; [reflexivity|exact Hd]. }
  split.
  { unfold Get, log, queue. run_head.
    match goal with
    | |- context [bind getStatus ?k ?q] =>
        destruct (getStatus_panics k q Hnil) as (s' & Hs & Hd)
    end.
    exists s'. split; [exact Hs|exact Hd]. }
  split.
  { intros index. unfold Remove, log, isPlaying, MpvConn_Get. run_head.
    rewrite request_panics by exact Hnil. eexists. split; reflexivity. }
  split.
  { intros g. unfold SetGain, log, MpvConn_Set. cbv zeta. run_head.
    rewrite request_panics by exact Hnil. eexists. split; reflexivity. }
  split.
  { intros offset. unfold Skip, log, queue. run_head. cbn [device add_logged].
    rewrite Z.eqb_refl. cbn [negb]. unfold MpvConn_Call. run_head.
    rewrite request_panics by exact Hnil. eexists. split; reflexivity. }
  intros ids tracks Hne Hres. unfold Add, log. run_head.
  destruct ids as [|id ids]; [contradiction|].
  replace (length (id :: ids) <? 1)%nat with false by reflexivity.
  match goal with
  | |- context [bind (Add_loop _ ?it) _ ?q] =>
      destruct (Add_loop_resolved (id :: ids) tracks it q Hres)
        as (s1 & Hloop & Hd1 & _)
  end.
  rewrite (bind_Ret _ _ _ _ _ Hloop). unfold update_queue. run_head.
  match goal with
  | |- context [bind getStatus ?k ?q] =>
      destruct (getStatus_panics k q) as (s' & Hs & Hd)
  end.
  { cbn [device set_device MpvConn set_PlaybackQueue]. rewrite Hd1. exact Hnil. }
  exists s'. split; [exact Hs|]. rewrite Hd. cbn [device set_device]. rewrite Hd1.
  reflexivity.
Qed.

Lemma commands_without_connection_panic_witness :
  MpvConn (device (samples.system_unconnected (samples.queue_ABC 0))) = None
  /\ (exists s',
        Clear (samples.system_unconnected (samples.queue_ABC 0)) = Panic nil_dereference s'
        /\ PlaybackQueue (device s') = samples.queue_ABC 0)
  /\ exists s',
       Add ["b"] (samples.system_unconnected (samples.queue_ABC 0))
       = Panic nil_dereference s'
       /\ Items (PlaybackQueue (device s'))
          = [samples.track_A; samples.track_B; samples.track_C; samples.track_B].
Proof.
  split; [reflexivity|].
  destruct (commands_without_connection_panic
              (samples.system_unconnected (samples.queue_ABC 0)) eq_refl)
    as (_ & (s1 & H1 & H2) & _ & _ & _ & _ & Hadd).
  split.
  - exists s1. split; [exact H1|]. rewrite H2. reflexivity.
  - destruct (Hadd ["b"] [samples.track_B]) as (s' & H3 & H4).
    + discriminate.
    + repeat constructor.
    + exists s'. split; assumption.
Defined.

(** ** Start *)

Lemma lift_Ret {A B} (m : M System A) (k : A -> M Running B)
    (s s' : System) (sw : Switcher) (a : A) :
  m s = Ret a s' -> bind (lift m) k (s, sw) = k a (s', sw).
Proof. intros H. unfold bind, lift. cbn [fst snd]. rewrite H. reflexivity. Qed.

(** [Start] after its log entries and the one-time guard. *)
Lemma Start_prologue (s : System) (sw : Switcher) :
  Start (s, sw)
  = bind (lift queue) (fun q =>
      if negb (Queue_IsEmpty q) then
        bind (lift (switchActiveTrackByIndex (Index q) 0)) (fun err =>
          match err with
          | Some err => bind (lift getStatus) (fun st => ret (st, Some err))
          | None =>
              bind (lift (MpvConn_Set "pause" (Bool false))) (fun err =>
                bind (match err with
                      | Some _ => lift (log LevelError "Error pausing track")
                      | None => ret tt
                      end)
                     (fun _ => bind (lift getStatus) (fun st => ret (st, None))))
          end)
      else bind (lift getStatus) (fun st => ret (st, None)))
      (after_guard_log sw s, after_guard sw).
Proof.
  unfold Start, after_guard, after_guard_log, startTrackSwitcher_Do,
    go_trackSwitcherGoroutine. cbv zeta.
  unfold bind at 1. unfold lift at 1. cbn [fst snd log modify].
  unfold bind at 1. unfold bind at 1. unfold gets at 1. cbn [fst snd].
  destruct (startTrackSwitcher sw) eqn:Hsw.
  - destruct sw as [b g]. cbn in Hsw. subst b. reflexivity.
  - unfold bind at 1. unfold lift at 1. cbn [fst snd log modify]. reflexivity.
Qed.

Lemma lift_status_and (e : option error) (s1 : System) (sw : Switcher) :
  connected s1 ->
  exists st s',
    bind (lift getStatus) (fun st => ret (st, e)) (s1, sw) = Ret (st, e) (s', sw)
    /\ reads_only s1 s'
    /\ DeviceStatus.CurrentIndex st = Index (PlaybackQueue (device s1)).
Proof.
  intros Hc. destruct (getStatus_total s1 Hc) as (st & s' & Hst & Hro & Hidx & _).
  exists st, s'. rewrite (lift_Ret _ _ _ _ _ _ Hst). repeat split; try apply Hro.
  exact Hidx.
Qed.

Lemma switchActiveTrackByIndex_runs (index offset : Z) (s : System) :
  connected s ->
  switchActiveTrackByIndex index offset s
  = match Queue_Current (Queue_SetIndex index (PlaybackQueue (device s))) with
    | Some track =>
        Ret None (add_sent (loadfile (Path track))
                    (set_queue (Queue_SetIndex index (PlaybackQueue (device s))) s))
    | None =>
        Ret (Some (errors_New "could not get current track"))
            (set_queue (Queue_SetIndex index (PlaybackQueue (device s))) s)
    end.
Proof.
  intros Hc. unfold switchActiveTrackByIndex, update_queue, queue. run_head.
  cbn [device set_device PlaybackQueue set_PlaybackQueue].
  fold (set_queue (Queue_SetIndex index (PlaybackQueue (device s))) s).
  destruct (Queue_Current _) as [track|]; [|reflexivity].
  unfold MpvConn_Call. run_head. run_request Hc. reflexivity.
Qed.

Lemma MpvConn_Set_runs (property : string) (v : value) (s : System) :
  connected s ->
  MpvConn_Set property v s
  = Ret (player s (sent s) (IpcSet property v)).2 (add_sent (IpcSet property v) s).
Proof.
  intros Hc. unfold MpvConn_Set.
  rewrite (bind_Ret _ _ _ _ _ (request_connected _ s Hc)). reflexivity.
Qed.

(** The state in which [Start] asks for the status, and the error it
    returns. *)
Lemma Start_runs (s : System) (sw : Switcher) :
  connected s ->
  exists s1 e,
    Start (s, sw)
    = bind (lift getStatus) (fun st => ret (st, e)) (s1, after_guard sw)
    /\ MpvConn (device s1) = MpvConn (device s)
    /\ (Queue_IsEmpty (PlaybackQueue (device s)) = true ->
        e = None /\ device s1 = device s /\ writes (sent s1) = writes (sent s))
    /\ (forall track,
          Queue_IsEmpty (PlaybackQueue (device s)) = false ->
          Queue_Current (Queue_SetIndex (Index (PlaybackQueue (device s)))
                           (PlaybackQueue (device s))) = Some track ->
          e = None
          /\ device s1
             = set_PlaybackQueue
                 (Queue_SetIndex (Index (PlaybackQueue (device s)))
                    (PlaybackQueue (device s))) (device s)
          /\ writes (sent s1)
             = writes (sent s) ++ [loadfile (Path track); IpcSet "pause" (Bool false)]).
Proof.
  intros Hc. rewrite Start_prologue.
  assert (Hd0 : device (after_guard_log sw s) = device s
                /\ sent (after_guard_log sw s) = sent s).
  { unfold after_guard_log. cbv zeta. destruct (startTrackSwitcher sw); split; reflexivity. }
  destruct Hd0 as [Hd0 Hs0].
  set (s0 := after_guard_log sw s) in *.
  assert (Hc0 : connected s0)
    by (refine (connected_same_device _ s0 _ Hc); rewrite Hd0; reflexivity).
  rewrite (lift_Ret queue _ s0 s0 _ (PlaybackQueue (device s0))) by reflexivity.
  rewrite Hd0.
  destruct (Queue_IsEmpty (PlaybackQueue (device s))) eqn:Hempty; cbn [negb].
  - exists s0, None. split; [reflexivity|]. split; [rewrite Hd0; reflexivity|].
    split; [|intros track Hne; discriminate].
    intros _. rewrite Hd0, Hs0. repeat split.
  - pose proof (switchActiveTrackByIndex_runs (Index (PlaybackQueue (device s))) 0 s0 Hc0)
      as Hsw.
    rewrite Hd0 in Hsw.
    destruct (Queue_Current _) as [track|] eqn:Hcur.
    + rewrite (lift_Ret _ _ _ _ _ _ Hsw).
      match type of Hsw with _ = Ret _ ?q => set (s1 := q) in * end.
      assert (Hc1 : connected s1) by (refine (connected_same_device _ s1 _ Hc0); reflexivity).
      rewrite (lift_Ret _ _ _ _ _ _ (MpvConn_Set_runs "pause" (Bool false) s1 Hc1)).
      destruct ((player s1 (sent s1) (IpcSet "pause" (Bool false))).2).
      * rewrite (lift_Ret (log LevelError "Error pausing track") _ _
                   (add_logged (LevelError, "Error pausing track")
                      (add_sent (IpcSet "pause" (Bool false)) s1)) _ tt) by reflexivity.
        do 2 eexists. split; [reflexivity|].
        subst s1. cbn [device sent add_logged add_sent set_queue set_device].
        rewrite Hd0, Hs0. split; [reflexivity|]. split; [intros; discriminate|].
        intros track' _ Htrack. injection Htrack as <-.
        rewrite !writes_app, <- app_assoc. repeat split.
      * rewrite bind_ret.
        do 2 eexists. split; [reflexivity|].
        subst s1. cbn [device sent add_logged add_sent set_queue set_device].
        rewrite Hd0, Hs0. split; [reflexivity|]. split; [intros; discriminate|].
        intros track' _ Htrack. injection Htrack as <-.
        rewrite !writes_app, <- app_assoc. repeat split.
    + rewrite (lift_Ret _ _ _ _ _ _ Hsw).
      do 2 eexists. split; [reflexivity|].
      cbn [device set_queue set_device]. rewrite Hd0.
      split; [reflexivity|]. split; [intros; discriminate|].
      intros track _ Htrack. discriminate.
Qed.

(** [Start] always returns on a connected device, and the guard is set
    afterwards. *)
Lemma Start_total (s : System) (sw : Switcher) :
  connected s ->
  exists r s', Start (s, sw) = Ret r (s', after_guard sw) /\ connected s'.
Proof.
  intros Hc. destruct (Start_runs s sw Hc) as (s1 & e & Hrun & Hconn & _).
  assert (Hc1 : connected s1) by (refine (connected_same_device _ s1 _ Hc); exact Hconn).
  destruct (lift_status_and e s1 (after_guard sw) Hc1) as (st & s' & Hst & Hro & _).
  exists (st, e), s'. rewrite Hrun. split; [exact Hst|].
  eapply reads_only_connected; eassumption.
Qed.

(** X13.  [Start] on a queue whose cursor is on a track loads that track,
    sets [pause] to false and returns a nil error, also when the player
    refuses the set; the queue and its cursor are as before. *)
Theorem Start_loads_and_unpauses (s : System) (sw : Switcher) :
  connected s ->
  0 <= Index (PlaybackQueue (device s)) < Queue_Size (PlaybackQueue (device s)) ->
  exists track st s',
    Items (PlaybackQueue (device s)) !! Z.to_nat (Index (PlaybackQueue (device s)))
    = Some track
    /\ Start (s, sw) = Ret (st, None) (s', after_guard sw)
    /\ writes (sent s')
       = writes (sent s) ++ [loadfile (Path track); IpcSet "pause" (Bool false)]
    /\ PlaybackQueue (device s') = PlaybackQueue (device s)
    /\ DeviceStatus.CurrentIndex st = Index (PlaybackQueue (device s)).
Proof.
  intros Hc Hrange.
  destruct (Queue_SetIndex_in_range _ _ Hrange) as [Hset Hcur].
  destruct (lookup_lt_is_Some_2 (Items (PlaybackQueue (device s)))
              (Z.to_nat (Index (PlaybackQueue (device s))))) as [track Htrack].
  { unfold Queue_Size in Hrange. lia. }
  rewrite Htrack in Hcur.
  destruct (Start_runs s sw Hc) as (s1 & e & Hrun & Hconn & _ & Hload).
  destruct (Hload track) as (-> & Hd1 & Hw1).
  { unfold Queue_IsEmpty. apply Z.ltb_ge. lia. }
  { exact Hcur. }
  assert (Hc1 : connected s1) by (refine (connected_same_device _ s1 _ Hc); exact Hconn).
  destruct (lift_status_and None s1 (after_guard sw) Hc1)
    as (st & s' & Hst & (Hd & _ & _ & Hw & _) & Hidx).
  exists track, st, s'. split; [exact Htrack|]. rewrite Hrun. split; [exact Hst|].
  rewrite Hw, Hw1, Hidx, Hd, Hd1. cbn [PlaybackQueue set_PlaybackQueue].
  rewrite Hset. repeat split.
  destruct (PlaybackQueue (device s)) as [i items]. unfold Queue_SetIndex in *.
  cbn [Index Items] in *. rewrite Hset. reflexivity.
Qed.

Lemma Start_loads_and_unpauses_witness :
  connected (samples.system_with samples.player_refusing (samples.queue_ABC 1))
  /\ exists st s',
       Start (samples.system_with samples.player_refusing (samples.queue_ABC 1),
              samples.not_started)
       = Ret (st, None) (s', after_guard samples.not_started)
       /\ writes (sent s') = [loadfile "/music/b.flac"; IpcSet "pause" (Bool false)].
Proof.
  assert (Hc : connected (samples.system_with samples.player_refusing (samples.queue_ABC 1)))
    by (eexists; reflexivity).
  split; [exact Hc|].
  destruct (Start_loads_and_unpauses _ samples.not_started Hc)
    as (track & st & s' & H0 & H1 & H2 & _).
  - unfold Queue_Size. simpl. lia.
  - exists st, s'. injection H0 as <-. split; assumption.
Defined.

(** X14.  [Start] on an empty queue sends nothing but property reads and
    leaves the device as it is; its error is nil. *)
Theorem Start_empty_queue (s : System) (sw : Switcher) :
  connected s ->
  Items (PlaybackQueue (device s)) = [] ->
  exists st s',
    Start (s, sw) = Ret (st, None) (s', after_guard sw)
    /\ device s' = device s
    /\ writes (sent s') = writes (sent s).
Proof.
  intros Hc Hnil.
  destruct (Start_runs s sw Hc) as (s1 & e & Hrun & Hconn & Hempty & _).
  destruct Hempty as (-> & Hd1 & Hw1).
  { unfold Queue_IsEmpty, Queue_Size. rewrite Hnil. reflexivity. }
  assert (Hc1 : connected s1) by (refine (connected_same_device _ s1 _ Hc); exact Hconn).
  destruct (lift_status_and None s1 (after_guard sw) Hc1)
    as (st & s' & Hst & (Hd & _ & _ & Hw & _) & _).
  exists st, s'. rewrite Hrun. split; [exact Hst|]. split; congruence.
Qed.

Lemma Start_empty_queue_witness :
  connected (samples.system_with samples.player_playing NewQueue)
  /\ exists st s',
       Start (samples.system_with samples.player_playing NewQueue, samples.not_started)
       = Ret (st, None) (s', after_guard samples.not_started)
       /\ writes (sent s') = [].
Proof.
  assert (Hc : connected (samples.system_with samples.player_playing NewQueue))
    by (eexists; reflexivity).
  split; [exact Hc|].
  destruct (Start_empty_queue _ samples.not_started Hc eq_refl) as (st & s' & H1 & _ & H2).
  exists st, s'. split; assumption.
Defined.

Lemma Start_times_started (n : nat) :
  forall (s : System) (sw : Switcher),
    connected s -> startTrackSwitcher sw = true ->
    exists r s', Start_times (S n) (s, sw) = Ret (Some r) (s', sw) /\ connected s'.
Proof.
  induction n as [|n IH]; intros s sw Hc Hsw;
    destruct (Start_total s sw Hc) as (r & s1 & Hrun & Hc1);
    unfold after_guard in Hrun; rewrite Hsw in Hrun;
    cbn [Start_times]; rewrite (bind_Ret _ _ _ _ _ Hrun).
  - exists r, s1. split; [reflexivity|exact Hc1].
  - apply IH; assumption.
Qed.

(** X15.  However often [Start] is called on a connected device, the
    track-switcher goroutine is started by the first call only: after any
    number of calls one more goroutine runs than before the first. *)
Theorem Start_starts_one_goroutine (n : nat) (s : System) (sw : Switcher) :
  connected s ->
  startTrackSwitcher sw = false ->
  exists r s',
    Start_times (S n) (s, sw)
    = Ret (Some r) (s', {| startTrackSwitcher := true; goroutines := S (goroutines sw) |}).
Proof.
  intros Hc Hsw. destruct (Start_total s sw Hc) as (r & s1 & Hrun & Hc1).
  unfold after_guard in Hrun. rewrite Hsw in Hrun.
  cbn [Start_times]. rewrite (bind_Ret _ _ _ _ _ Hrun).
  destruct n as [|n].
  - exists r, s1. reflexivity.
  - destruct (Start_times_started n s1
                {| startTrackSwitcher := true; goroutines := S (goroutines sw) |} Hc1 eq_refl)
      as (r' & s' & Hrest & _).
    exists r', s'. exact Hrest.
Qed.

Lemma Start_starts_one_goroutine_witness :
  connected (samples.system_with samples.player_playing (samples.queue_ABC 0))
  /\ exists r s',
       Start_times 3 (samples.system_with samples.player_playing (samples.queue_ABC 0),
                      samples.not_started)
       = Ret (Some r) (s', {| startTrackSwitcher := true; goroutines := 1 |}).
Proof.
  assert (Hc : connected (samples.system_with samples.player_playing (samples.queue_ABC 0)))
    by (eexists; reflexivity).
  split; [exact Hc|].
  destruct (Start_starts_one_goroutine 2 _ samples.not_started Hc eq_refl) as (r & s' & H).
  exists r, s'. exact H.
Defined.
